(** * sphinx-galleria: the source-block parser and the generation engine

    A shallow embedding of [sphinx_galleria/py_source_parser.py] and of the
    execution, caching and figure code of [sphinx_galleria/gen_rst.py],
    together with the properties of the natural-language specification that
    were checked against it.

    Conventions.
    - A Python [str] is a [list ascii]; a character stands for the code
      point of the same number (U+0000 to U+00FF).
    - Functions of the Python standard library that the sources call
      ([str] methods, [re], [textwrap]) are given executable definitions
      that follow their documented behaviour on these strings.
    - What the sources obtain from the interpreter or from third-party
      packages (the result of [ast.parse], of [exec], of [hashlib.md5],
      of matplotlib) enters as data or as a parameter of the function
      that uses it.
    - A Python [float] is an exact rational ([Q]). *)

From Stdlib Require Import Ascii String List ZArith QArith Qround Lia Bool Arith
  Sorted.
From stdpp Require Import base option list gmap strings.
Import ListNotations.

#[local] Open Scope nat_scope.

(** ** Python strings *)

Module PyStr.

Abbreviation str := (list ascii).

(** A literal: [py "abc"] is the Python string ['abc']. *)
Definition py (s : string) : str := list_ascii_of_string s.

Definition chr (n : nat) : ascii := ascii_of_nat n.
Definition ord (c : ascii) : nat := nat_of_ascii c.

Definition NL : ascii := chr 10.
Definition TAB : ascii := chr 9.
Definition SPACE : ascii := chr 32.
Definition DQUOTE : ascii := chr 34.

Definition nl : str := [NL].

(** [c.isspace()] for a code point below 256. *)
Definition isspace (c : ascii) : bool :=
  let n := ord c in
  ((9 <=? n) && (n <=? 13)) || ((28 <=? n) && (n <=? 32))
  || (n =? 133) || (n =? 160).

Definition eqc (a b : ascii) : bool := Ascii.eqb a b.

Fixpoint eqs (a b : str) : bool :=
  match a, b with
  | [], [] => true
  | x :: a', y :: b' => eqc x y && eqs a' b'
  | _, _ => false
  end.

(** [s.startswith(p)] *)
Fixpoint startswith (p s : str) : bool :=
  match p, s with
  | [], _ => true
  | x :: p', y :: s' => eqc x y && startswith p' s'
  | _ :: _, [] => false
  end.

(** [s.lstrip()], [s.rstrip()], [s.strip()] *)
Fixpoint lstrip (s : str) : str :=
  match s with
  | c :: s' => if isspace c then lstrip s' else s
  | [] => []
  end.

Definition rstrip (s : str) : str := rev (lstrip (rev s)).

Definition strip (s : str) : str := rstrip (lstrip s).

(** [s.lstrip(c)] for a one-character argument. *)
Fixpoint lstrip_char (c : ascii) (s : str) : str :=
  match s with
  | x :: s' => if eqc x c then lstrip_char c s' else s
  | [] => []
  end.

(** The truth value of a string: non-empty. *)
Definition truthy (s : str) : bool :=
  match s with [] => false | _ :: _ => true end.

(** [s.count(c)] for a one-character argument. *)
Fixpoint count (c : ascii) (s : str) : nat :=
  match s with
  | [] => 0
  | x :: s' => (if eqc x c then 1 else 0) + count c s'
  end.

(** [s.replace(a, b)] for one-character arguments. *)
Definition replace_char (a b : ascii) (s : str) : str :=
  map (fun x => if eqc x a then b else x) s.

(** [s.find(sep)]: index of the first occurrence. *)
Fixpoint find (sep s : str) : option nat :=
  if startswith sep s then Some 0
  else match s with
       | [] => None
       | _ :: s' => option_map S (find sep s')
       end.

(** [s.split(sep, maxsplit)] for a non-empty [sep]; [maxsplit = None]
    is the unbounded split. *)
Fixpoint split_fuel (fuel : nat) (sep : str) (maxsplit : option nat)
    (s : str) : list str :=
  match fuel with
  | O => [s]
  | S fuel' =>
    match maxsplit with
    | Some O => [s]
    | _ =>
      match find sep s with
      | None => [s]
      | Some i =>
        firstn i s ::
          split_fuel fuel' sep (option_map Nat.pred maxsplit)
            (skipn (i + length sep) s)
      end
    end
  end.

Definition split (sep : str) (maxsplit : option nat) (s : str) : list str :=
  split_fuel (S (length s)) sep maxsplit s.

(** [sep.join(parts)] *)
Fixpoint join (sep : str) (parts : list str) : str :=
  match parts with
  | [] => []
  | [p] => p
  | p :: rest => p ++ sep ++ join sep rest
  end.

(** [s.replace(old, new)] for a non-empty [old]. *)
Definition replace (old new s : str) : str := join new (split old None s).

(** [parts[-1]] of a non-empty list. *)
Definition last_part (parts : list str) : str := List.last parts [].

(** [s[i:j]] *)
Definition slice (i j : nat) (s : str) : str := firstn (j - i) (skipn i s).

(** Decimal digits of a number, [str(n)]. *)
Fixpoint digits_fuel (fuel n : nat) (acc : str) : str :=
  match fuel with
  | O => acc
  | S fuel' =>
    let acc' := chr (48 + n mod 10) :: acc in
    if n <? 10 then acc' else digits_fuel fuel' (n / 10) acc'
  end.

Definition str_of_nat (n : nat) : str := digits_fuel (S n) n [].

(** ['{0:03}'.format(n)]: at least three digits, padded with zeros. *)
Definition format_03 (n : nat) : str :=
  let d := str_of_nat n in
  repeat (chr 48) (3 - length d) ++ d.

(** [template % arg] for a template with one [%s]. *)
Definition percent_s (template arg : str) : str :=
  match find (py "%s") template with
  | Some i => firstn i template ++ arg ++ skipn (i + 2) template
  | None => template
  end.

End PyStr.

Import PyStr.

(** ** The [re] module: a backtracking matcher

    The patterns of the sources are written as values of [regex] and run
    by a backtracking matcher that tries alternatives in the order of
    Python's engine: a greedy repetition first takes as many iterations as
    it can and gives them back one at a time.  [Bol] and [Eol] are [^] and
    [$] under [re.MULTILINE]. *)

Module Re.

Inductive regex : Type :=
| Eps
| Cls (p : ascii -> bool)            (* one character of a class *)
| Bol                                (* ^ *)
| Eol                                (* $ *)
| Seq (r1 r2 : regex)
| Star (r : regex)                   (* r*, greedy *)
| Group (name : string) (r : regex). (* (r) or (?P<name>r) *)

Definition Chr (c : ascii) : regex := Cls (eqc c).

(** [r+] *)
Definition Plus (r : regex) : regex := Seq r (Star r).

(** [r{n}] and [r{n,}] *)
Fixpoint Rep (n : nat) (r : regex) : regex :=
  match n with
  | O => Eps
  | S n' => Seq r (Rep n' r)
  end.

Definition AtLeast (n : nat) (r : regex) : regex := Seq (Rep n r) (Star r).

(** A literal string. *)
Fixpoint Lit (s : str) : regex :=
  match s with
  | [] => Eps
  | c :: s' => Seq (Chr c) (Lit s')
  end.

(** Character classes. *)
Definition dot (c : ascii) : bool := negb (eqc c NL).          (* . *)
Definition space (c : ascii) : bool := isspace c.              (* \s *)
Definition hash (c : ascii) : bool := eqc c (chr 35).          (* # *)
Definition isdigit (c : ascii) : bool :=
  (48 <=? ord c) && (ord c <=? 57).
Definition isalpha_ascii (c : ascii) : bool :=
  ((65 <=? ord c) && (ord c <=? 90)) || ((97 <=? ord c) && (ord c <=? 122)).
Definition ident (c : ascii) : bool :=                         (* [A-Za-z0-9_] *)
  isalpha_ascii c || isdigit c || eqc c (chr 95).

(** A position in the subject: the index, the character before it and
    the characters from it on. *)
Record cursor : Type := Cursor {
  c_idx : nat;
  c_prev : option ascii;
  c_rest : str
}.

Definition start_of (s : str) : cursor := Cursor 0 None s.

Definition at_bol (c : cursor) : bool :=
  match c_prev c with
  | None => true
  | Some a => eqc a NL
  end.

Definition at_eol (c : cursor) : bool :=
  match c_rest c with
  | [] => true
  | a :: _ => eqc a NL
  end.

Definition captures := list (string * (nat * nat)).

Definition cont := cursor -> captures -> option (cursor * captures).

(** The iterations of a greedy star.  An iteration that consumes
    nothing is refused, so that [fuel] above the length of the rest of
    the subject is never exhausted. *)
Fixpoint star_loop (fuel : nat) (body : cont -> cont) (k : cont) : cont :=
  fun c caps =>
    match fuel with
    | O => k c caps
    | S fuel' =>
      match body (fun c' caps' =>
                    if c_idx c' =? c_idx c then None
                    else star_loop fuel' body k c' caps') c caps with
      | Some r => Some r
      | None => k c caps
      end
    end.

Fixpoint run (r : regex) (k : cont) : cont :=
  match r with
  | Eps => k
  | Cls p => fun c caps =>
      match c_rest c with
      | a :: rest =>
        if p a then k (Cursor (S (c_idx c)) (Some a) rest) caps else None
      | [] => None
      end
  | Bol => fun c caps => if at_bol c then k c caps else None
  | Eol => fun c caps => if at_eol c then k c caps else None
  | Seq r1 r2 => run r1 (run r2 k)
  | Star r' => fun c caps =>
      star_loop (S (length (c_rest c))) (run r') k c caps
  | Group name r' => fun c caps =>
      run r' (fun c' caps' => k c' ((name, (c_idx c, c_idx c')) :: caps')) c caps
  end.

(** A match object: its span and the spans of its groups. *)
Record match_obj : Type := Match {
  m_start : nat;
  m_end : nat;
  m_groups : captures
}.

(** [pattern.match] at a given position. *)
Definition match_at (r : regex) (c : cursor) : option match_obj :=
  match run r (fun c' caps' => Some (c', caps')) c [] with
  | Some (c', caps') => Some (Match (c_idx c) (c_idx c') caps')
  | None => None
  end.

Definition step (c : cursor) : option cursor :=
  match c_rest c with
  | a :: rest => Some (Cursor (S (c_idx c)) (Some a) rest)
  | [] => None
  end.

Fixpoint advance (n : nat) (c : cursor) : cursor :=
  match n with
  | O => c
  | S n' => match step c with
            | Some c' => advance n' c'
            | None => c
            end
  end.

(** [re.finditer]: the non-overlapping matches from left to right.
    After a match the scan resumes at its end (one character further
    after an empty match). *)
Fixpoint finditer_from (fuel : nat) (r : regex) (c : cursor)
    : list match_obj :=
  match fuel with
  | O => []
  | S fuel' =>
    match match_at r c with
    | Some m =>
      m :: (if m_end m =? m_start m
            then match step c with
                 | Some c' => finditer_from fuel' r c'
                 | None => []
                 end
            else finditer_from fuel' r (advance (m_end m - m_start m) c))
    | None =>
      match step c with
      | Some c' => finditer_from fuel' r c'
      | None => []
      end
    end
  end.

Definition finditer (r : regex) (s : str) : list match_obj :=
  finditer_from (S (length s)) r (start_of s).

(** [re.search] *)
Definition search (r : regex) (s : str) : option match_obj :=
  head (finditer r s).

Fixpoint lookup_group (name : string) (caps : captures)
    : option (nat * nat) :=
  match caps with
  | [] => None
  | (n, span) :: caps' =>
    if String.eqb n name then Some span else lookup_group name caps'
  end.

(** [m.group(name)] on the subject [s]; the empty string when the
    group took no part in the match. *)
Definition group (s : str) (m : match_obj) (name : string) : str :=
  match lookup_group name (m_groups m) with
  | Some (i, j) => slice i j s
  | None => []
  end.

(** [re.sub(r, repl, s)] for a replacement without back-references. *)
Fixpoint sub_matches (ms : list match_obj) (repl s : str) (pos : nat) : str :=
  match ms with
  | [] => skipn pos s
  | m :: ms' =>
    slice pos (m_start m) s ++ repl ++ sub_matches ms' repl s (m_end m)
  end.

Definition sub (r : regex) (repl s : str) : str :=
  sub_matches (finditer r s) repl s 0.

(** [re.findall] for a pattern with one group. *)
Definition findall1 (r : regex) (name : string) (s : str) : list str :=
  map (fun m => group s m name) (finditer r s).

End Re.

(** ** [textwrap.dedent] *)

Module Textwrap.
Import Re.

Definition blank (c : ascii) : bool := eqc c SPACE || eqc c TAB.

(** [^[ \t]+$] *)
Definition whitespace_only_re : regex :=
  Seq Bol (Seq (Plus (Cls blank)) Eol).

(** Group 1 is [^[ \t]*]; one character outside [[ \t\n]] follows. *)
Definition leading_whitespace_re : regex :=
  Seq (Group "1" (Seq Bol (Star (Cls blank))))
      (Cls (fun c => negb (blank c || eqc c NL))).

Fixpoint common_prefix (a b : str) : str :=
  match a, b with
  | x :: a', y :: b' => if eqc x y then x :: common_prefix a' b' else []
  | _, _ => []
  end.

(** One turn of the loop over the indentations. *)
Definition narrow (margin : option str) (indent : str) : option str :=
  match margin with
  | None => Some indent
  | Some m =>
    if startswith m indent then Some m
    else if startswith indent m then Some indent
    else Some (common_prefix m indent)
  end.

Definition dedent (text : str) : str :=
  let text := sub whitespace_only_re [] text in
  let indents := findall1 leading_whitespace_re "1" text in
  match fold_left narrow indents None with
  | Some (c :: m) => sub (Seq Bol (Lit (c :: m))) [] text
  | _ => text
  end.

End Textwrap.

(** ** Exceptions and results *)

Module Py.

(** What the traceback module reports of an exception raised by an
    example: whether it is a [SyntaxError], the formatted frames of
    [traceback.format_list(traceback.extract_tb(tb))], outermost first,
    and the lines of [traceback.format_exception_only]. *)
Record exc_info : Type := ExcInfo {
  is_syntax_error : bool;
  frames : list str;
  exception_only : list str
}.

Inductive exn : Type :=
| IOError (path : str)
| ValueError (msg : str)
| TypeError (msg : str)
| NameError (name : string)
| ZeroDivisionError
| UnicodeDecodeError
| ExampleException (e : exc_info)   (* an [Exception] raised by an example *)
| ExampleExit.                      (* a [BaseException] that is no
                                       [Exception]: SystemExit,
                                       KeyboardInterrupt *)

Inductive result (A : Type) : Type :=
| Ok (a : A)
| Raise (e : exn).

Arguments Ok {A} a.
Arguments Raise {A} e.

#[global] Instance result_ret : MRet result := fun A a => Ok a.

#[global] Instance result_bind : MBind result := fun A B f m =>
  match m with
  | Ok a => f a
  | Raise e => Raise e
  end.

Definition is_ok {A} (r : result A) : bool :=
  match r with Ok _ => true | Raise _ => false end.

End Py.

Import Py.

(** ** Files *)

Module Fs.

(** An image as the imaging library sees it.  [Picture] is an image
    found on disk, [Resized] the result of [img.resize((w, h))] and
    [Canvas] a white [Image.new('RGB', (W, H))] with an image pasted at
    [(x, y)]. *)
Inductive image : Type :=
| Picture (width height : Z) (tag : nat)
| Resized (src : image) (w h : Z)
| Canvas (W H : Z) (pasted : image) (x y : Z).

Inductive file : Type :=
| Bytes (b : str)
| Image (i : image).

Abbreviation path := (list ascii).
Abbreviation filesystem := (gmap (list ascii) file).

(** [os.path.exists] *)
Definition exists_ (fs : filesystem) (p : path) : bool :=
  match fs !! p with Some _ => true | None => false end.

(** [open(p, 'rb').read()] and [open(p, 'r').read()] *)
Definition read (fs : filesystem) (p : path) : result str :=
  match fs !! p with
  | Some (Bytes b) => Ok b
  | _ => Raise (IOError p)
  end.

(** [open(p, 'w').write(b)] *)
Definition write (p : path) (b : str) (fs : filesystem) : filesystem :=
  <[p := Bytes b]> fs.

End Fs.

Import Fs.

(** ** [py_source_parser.py] *)

Module SourceParser.
Import Re.

Definition SYNTAX_ERROR_DOCSTRING : str :=
  join nl [ []; py "SyntaxError"; py "==========="; [];
            py "Example script with invalid Python syntax"; [] ].

(** The part of a syntax tree that the parser looks at: the statements
    of the module, of which only an expression statement holding a
    string literal is told apart, with its [lineno]. *)
Inductive ast_expr : Type :=
| Str (s : str)
| OtherExpr.

Inductive ast_stmt : Type :=
| Expr (value : ast_expr) (lineno : nat)
| OtherStmt.

Record ast_Module : Type := Module_ { body : list ast_stmt }.

(** The labels of the blocks, ['text'] and ['code']. *)
Inductive label : Type := text | code.

Definition block : Type := label * str * nat.

Definition label_of (b : block) : label := fst (fst b).
Definition content_of (b : block) : str := snd (fst b).
Definition lineno_of (b : block) : nat := snd b.

(** The values of [ast.literal_eval]; of a value that is neither an
    integer, a string, a boolean nor [None] the engine uses the truth
    value only. *)
Inductive literal : Type :=
| LInt (z : Z)
| LStr (s : str)
| LBool (b : bool)
| LNone
| LOther (source : str) (truth : bool).

(** The ways a call of [ast.literal_eval] ends. *)
Inductive evaluation : Type :=
| Evaluated (v : literal)
| EvalSyntaxError
| EvalValueError
| EvalRaises (e : exn).

(** The ways a call of [ast.parse] ends. *)
Inductive parsing : Type :=
| Parsed (node : ast_Module)
| ParseSyntaxError
| ParseRaises (e : exn).

(** The names bound at module level of [py_source_parser.py]: the
    imports and the definitions of the file. *)
Definition module_names : list string :=
  [ "division"; "absolute_import"; "print_function"; "ast"; "re";
    "dedent"; "SYNTAX_ERROR_DOCSTRING"; "parse_source_file";
    "get_docstring_and_rest"; "extract_file_config";
    "split_code_and_text_blocks" ]%string.

(** Evaluation of a global name in the module. *)
Definition global_name (name : string) : result unit :=
  if existsb (String.eqb name) module_names then Ok tt
  else Raise (NameError name).

(** [prop_pat]:
    [^\s*#\s*sphinx_galleria_([A-Za-z0-9_]+)\s*=\s*(.+)\s*$] *)
Definition prop_pat : regex :=
  Seq Bol
 (Seq (Star (Cls space))
 (Seq (Cls hash)
 (Seq (Star (Cls space))
 (Seq (Lit (py "sphinx_galleria_"))
 (Seq (Group "1" (Plus (Cls ident)))
 (Seq (Star (Cls space))
 (Seq (Chr (chr 61))
 (Seq (Star (Cls space))
 (Seq (Group "2" (Plus (Cls dot)))
 (Seq (Star (Cls space))
      Eol)))))))))).

(** [pattern]: group [header_line] is [^#{20,}.*], one [\s] follows,
    and group [text_content] is any number of [^#.*\s]. *)
Definition pattern : regex :=
  Seq (Group "header_line"
         (Seq Bol (Seq (AtLeast 20 (Cls hash)) (Star (Cls dot)))))
 (Seq (Cls space)
      (Group "text_content"
         (Star (Seq Bol (Seq (Cls hash) (Seq (Star (Cls dot)) (Cls space))))))).

(** [sub_pat]: [^#] *)
Definition sub_pat : regex := Seq Bol (Cls hash).

Definition missing_docstring (filename : str) : exn :=
  ValueError
    (py "Could not find docstring in file " ++ [DQUOTE] ++ filename
     ++ [DQUOTE] ++ py ". A docstring is required by sphinx-gallery unless the file is ignored by "
     ++ [DQUOTE] ++ py "ignore_pattern" ++ [DQUOTE]).

Section Parser.

(** [ast.parse] on the bytes of a file. *)
Variable ast_parse : str -> parsing.

(** The codec: the text of [content.decode('utf-8')], [None] when the
    bytes are no UTF-8 text. *)
Variable decode_utf8 : str -> option str.

(** [ast.literal_eval] *)
Variable literal_eval : str -> evaluation.

Variable fs : filesystem.

(** [content.decode('utf-8')] *)
Definition decoded (content : str) : result str :=
  match decode_utf8 content with
  | Some chars => Ok chars
  | None => Raise UnicodeDecodeError
  end.

Definition parse_source_file (filename : path)
    : result (option ast_Module * str) :=
  content ← read fs filename;
  (* change from Windows format to UNIX for uniformity *)
  let content := replace (py (String (chr 13) (String NL EmptyString))) nl content in
  match ast_parse content with
  | Parsed node =>
    content ← decoded content;
    mret (Some node, content)
  | ParseSyntaxError =>
    (* except SyntaxError: *)
    content ← decoded content;
    mret (None, content)
  | ParseRaises e => Raise e
  end.

(** A syntax tree of a released interpreter has no [docstring]
    attribute: [node.docstring] raises [AttributeError] and the
    handler of that exception is what runs. *)
Definition get_docstring_and_rest (filename : path)
    : result (str * str * nat) :=
  '(node, content) ← parse_source_file filename;
  match node with
  | None => mret (SYNTAX_ERROR_DOCSTRING, content, 1)
  | Some node =>
    let '(docstring, rest, lineno) :=
      match body node with
      | Expr (Str s) lineno :: _ =>
        (s, last_part (split nl (Some lineno) content), lineno + 1)
      | _ => ([], [], 0)
      end in
    if negb (truthy docstring) then Raise (missing_docstring filename)
    else mret (docstring, rest, lineno)
  end.

(** One turn of the loop of [extract_file_config]. *)
Definition config_step (content : str)
    (acc : result (gmap str literal)) (m : match_obj)
    : result (gmap str literal) :=
  file_conf ← acc;
  let name := group content m "1" in
  let value := group content m "2" in
  match literal_eval value with
  | Evaluated v => mret (<[name := v]> file_conf)
  | EvalSyntaxError | EvalValueError =>
    (* logger.warning(...) *)
    _ ← global_name "logger";
    mret file_conf
  | EvalRaises e => Raise e
  end.

Definition extract_file_config (content : str)
    : result (gmap str literal) :=
  fold_left (config_step content) (finditer prop_pat content) (mret ∅).

(** The state of the loop of [split_code_and_text_blocks]. *)
Record split_state : Type := SplitState {
  st_blocks : list block;
  st_lineno : nat;
  st_pos_so_far : nat
}.

Definition split_step (rest_of_content : str)
    (st : split_state) (m : match_obj) : split_state :=
  let blocks := st_blocks st in
  let lineno := st_lineno st in
  let code_block_content :=
    slice (st_pos_so_far st) (m_start m) rest_of_content in
  let blocks :=
    if truthy (strip code_block_content)
    then blocks ++ [(code, code_block_content, lineno)]
    else blocks in
  let lineno := lineno + count NL code_block_content in
  let lineno := lineno + 1 in  (* Ignored header line of hashes. *)
  let text_content := group rest_of_content m "text_content" in
  let text_block_content :=
    lstrip (Textwrap.dedent (sub sub_pat [] text_content)) in
  let blocks :=
    if truthy (strip text_block_content)
    then blocks ++ [(text, text_block_content, lineno)]
    else blocks in
  let lineno := lineno + count NL text_content in
  SplitState blocks lineno (m_end m).

Definition split_code_and_text_blocks (source_file : path)
    : result (gmap str literal * list block) :=
  '(docstring, rest_of_content, lineno) ← get_docstring_and_rest source_file;
  let blocks := [(text, docstring, 1)] in
  file_conf ← extract_file_config rest_of_content;
  let st := fold_left (split_step rest_of_content)
              (finditer pattern rest_of_content)
              (SplitState blocks lineno 0) in
  let remaining_content := skipn (st_pos_so_far st) rest_of_content in
  let blocks :=
    if truthy (strip remaining_content)
    then st_blocks st ++ [(code, remaining_content, st_lineno st)]
    else st_blocks st in
  mret (file_conf, blocks).

End Parser.

End SourceParser.

(** ** [gen_rst.py]: figures, images and fingerprints *)

Module GenRst.
Import SourceParser.

(** *** Text helpers of the standard library *)

(** The line boundaries of [str.splitlines]. *)
Definition is_linebreak (c : ascii) : bool :=
  let n := ord c in
  ((10 <=? n) && (n <=? 13)) || ((28 <=? n) && (n <=? 30)) || (n =? 133).

(** [s.splitlines(True)]; [cur] holds the current line, reversed. *)
Fixpoint splitlines_keep (s : str) (cur : str) : list str :=
  match s with
  | [] => match cur with [] => [] | _ => [rev cur] end
  | c :: s' =>
    if eqc c (chr 13) && startswith nl s' then splitlines_keep s' (c :: cur)
    else if is_linebreak c then rev (c :: cur) :: splitlines_keep s' []
    else splitlines_keep s' (c :: cur)
  end.

(** [textwrap.indent(text, prefix)] *)
Definition indent (text prefix : str) : str :=
  concat (map (fun line => if truthy (strip line) then prefix ++ line else line)
              (splitlines_keep text [])).

(** [s.expandtabs()]; [col] is the current column. *)
Fixpoint expandtabs_from (col : nat) (s : str) : str :=
  match s with
  | [] => []
  | c :: s' =>
    if eqc c TAB then
      let n := 8 - col mod 8 in
      repeat SPACE n ++ expandtabs_from (col + n) s'
    else if eqc c NL || eqc c (chr 13) then c :: expandtabs_from 0 s'
    else c :: expandtabs_from (S col) s'
  end.

Definition expandtabs (s : str) : str := expandtabs_from 0 s.

(** ['{0:03}'.format(z)] for an integer of either sign. *)
Definition format_03z (z : Z) : str :=
  if (z <? 0)%Z
  then let d := str_of_nat (Z.to_nat (- z)) in
       chr 45 :: repeat (chr 48) (2 - length d) ++ d
  else format_03 (Z.to_nat z).

(** *** Constants *)

Definition HLIST_HEADER : str :=
  join nl [ []; py ".. rst-class:: sphx-glr-horizontal"; []; [] ].

Definition HLIST_IMAGE_TEMPLATE : str :=
  join nl [ []; py "    *"; []; py "      .. image:: /%s";
            py "            :class: sphx-glr-multi-img"; [] ].

Definition SINGLE_IMAGE : str :=
  join nl [ []; py ".. image:: /%s"; py "    :class: sphx-glr-single-img"; [] ].

(** [CODE_OUTPUT.format(out)] *)
Definition CODE_OUTPUT (out : str) : str :=
  join nl [ py ".. rst-class:: sphx-glr-script-out"; []; py " Out::"; [] ]
  ++ nl ++ out ++ nl.

Definition SPHX_GLR_SIG : str :=
  join nl [ []; []; py ".. only:: html"; [];
            py " .. rst-class:: sphx-glr-signature"; [];
            py "    `Gallery generated by Sphinx-Gallery <https://sphinx-gallery.readthedocs.io>`_";
            [] ].

(** *** The platform

    The functions of [os.path] that the engine calls, and [os.sep]. *)
Record os_path : Type := OsPath {
  os_sep : ascii;
  path_join : path -> path -> path;
  path_normpath : path -> path;
  path_dirname : path -> path;
  path_basename : path -> path;
  path_splitext : path -> path * path;
  path_relpath : path -> path -> path
}.

(** *** The configuration of the gallery *)

Record gallery_conf : Type := GalleryConf {
  abort_on_example_error : bool;
  find_mayavi_figures : bool;
  src_dir : path;
  plot_gallery : bool;
  (** [re.search(filename_pattern, p)] finds a match *)
  filename_pattern : path -> bool;
  line_numbers : bool;
  min_reported_time : Q;
  thumbnail_size : Z * Z;
  default_thumb_file : option path;
  (** [LooseVersion(sphinx.__version__) >= '1.3'] *)
  sphinx_ge_1_3 : bool
}.

(** *** Images *)

Definition size (i : image) : Z * Z :=
  match i with
  | Picture w h _ => (w, h)
  | Resized _ w h => (w, h)
  | Canvas W H _ _ _ => (W, H)
  end.

(** [Image.open(p)] *)
Definition open_image (fs : filesystem) (p : path) : result image :=
  match fs !! p with
  | Some (Image i) => Ok i
  | _ => Raise (IOError p)
  end.

(** [a / float(b)] *)
Definition float_div (a b : Z) : result Q :=
  if (b =? 0)%Z then Raise ZeroDivisionError
  else Ok (inject_Z a / inject_Z b)%Q.

(** [int(round(q))]: to the nearest integer, a tie to the even one. *)
Definition round (q : Q) : Z :=
  let f := Qfloor q in
  let frac := (q - inject_Z f)%Q in
  match (frac ?= 1 # 2)%Q with
  | Lt => f
  | Gt => (f + 1)%Z
  | Eq => if Z.even f then f else (f + 1)%Z
  end.

Definition scale_image (in_fname out_fname : path)
    (max_width max_height : Z) (fs : filesystem) : result filesystem :=
  img ← open_image fs in_fname;
  let '(width_in, height_in) := size img in
  scale_w ← float_div max_width width_in;
  scale_h ← float_div max_height height_in;
  let scale :=
    if Qle_bool (inject_Z height_in * scale_w) (inject_Z max_height)
    then scale_w else scale_h in
  if Qle_bool 1 scale && eqs in_fname out_fname then mret fs
  else
    let width_sc := round (scale * inject_Z width_in) in
    let height_sc := round (scale * inject_Z height_in) in
    (* resize the image *)
    let img := Resized img width_sc height_sc in
    (* insert centered *)
    let thumb :=
      Canvas max_width max_height img
             ((max_width - width_sc) / 2)%Z ((max_height - height_sc) / 2)%Z in
    mret (<[out_fname := Image thumb]> fs).

(** *** Fingerprints *)

Section Md5.

(** [hashlib.md5(b).hexdigest()] *)
Variable md5_hexdigest : str -> str.

Definition md5_suffix : str := py ".md5".

Definition get_md5sum (fs : filesystem) (src_file : path) : result str :=
  src_content ← read fs src_file;
  mret (md5_hexdigest src_content).

Definition md5sum_is_current (fs : filesystem) (src_file : path)
    : result bool :=
  src_md5 ← get_md5sum fs src_file;
  let src_md5_file := src_file ++ md5_suffix in
  if exists_ fs src_md5_file then
    ref_md5 ← read fs src_md5_file;
    mret (eqs src_md5 ref_md5)
  else mret false.

End Md5.

(** *** Figures *)

Section Figures.

Variable os : os_path.

Definition figure_rst (figure_list : list path) (sources_dir : path)
    : str * nat :=
  let figure_paths :=
    map (fun figure_path =>
           lstrip_char (chr 47)
             (replace_char (os_sep os) (chr 47)
                (path_relpath os figure_path sources_dir)))
        figure_list in
  let images_rst :=
    match figure_paths with
    | [] => []
    | [figure_name] => percent_s SINGLE_IMAGE figure_name
    | _ =>
      fold_left (fun images_rst figure_name =>
                   images_rst ++ percent_s HLIST_IMAGE_TEMPLATE figure_name)
                figure_paths HLIST_HEADER
    end in
  (images_rst, length figure_list).

End Figures.

(** *** The process

    The state that the engine shares with the examples it runs: working
    directory, standard output, argument vector, loaded modules, the open
    figures of matplotlib (in the order of [plt.get_fignums()]) and the
    scenes of mayavi, the files, the registry of failing examples
    ([gallery_conf['failing_examples']]) and what was sent to the logger. *)

Inductive stream : Type :=
| HostStream (id : nat)
| LoggingTee (src_filename : path).

Inductive event : Type :=
| Warning (msg : str)
| Debug (src_file : path) (time_elapsed : Q).

Record process : Type := Process {
  cwd : path;
  sys_stdout : stream;
  sys_argv : list str;
  sys_modules : list str;
  figures : list (nat * image);
  scenes : list image;
  rc_defaults : bool;
  files : filesystem;
  failing_examples : gmap (list ascii) (list ascii);
  journal : list event
}.

Definition set_cwd (d : path) (p : process) : process :=
  Process d (sys_stdout p) (sys_argv p) (sys_modules p) (figures p)
          (scenes p) (rc_defaults p) (files p) (failing_examples p) (journal p).

Definition set_stdout (s : stream) (p : process) : process :=
  Process (cwd p) s (sys_argv p) (sys_modules p) (figures p)
          (scenes p) (rc_defaults p) (files p) (failing_examples p) (journal p).

Definition set_argv (a : list str) (p : process) : process :=
  Process (cwd p) (sys_stdout p) a (sys_modules p) (figures p)
          (scenes p) (rc_defaults p) (files p) (failing_examples p) (journal p).

Definition set_modules (m : list str) (p : process) : process :=
  Process (cwd p) (sys_stdout p) (sys_argv p) m (figures p)
          (scenes p) (rc_defaults p) (files p) (failing_examples p) (journal p).

Definition set_figures (f : list (nat * image)) (p : process) : process :=
  Process (cwd p) (sys_stdout p) (sys_argv p) (sys_modules p) f
          (scenes p) (rc_defaults p) (files p) (failing_examples p) (journal p).

Definition set_scenes (s : list image) (p : process) : process :=
  Process (cwd p) (sys_stdout p) (sys_argv p) (sys_modules p) (figures p)
          s (rc_defaults p) (files p) (failing_examples p) (journal p).

Definition set_rc_defaults (b : bool) (p : process) : process :=
  Process (cwd p) (sys_stdout p) (sys_argv p) (sys_modules p) (figures p)
          (scenes p) b (files p) (failing_examples p) (journal p).

Definition set_files (f : filesystem) (p : process) : process :=
  Process (cwd p) (sys_stdout p) (sys_argv p) (sys_modules p) (figures p)
          (scenes p) (rc_defaults p) f (failing_examples p) (journal p).

Definition set_failing (f : gmap (list ascii) (list ascii)) (p : process)
    : process :=
  Process (cwd p) (sys_stdout p) (sys_argv p) (sys_modules p) (figures p)
          (scenes p) (rc_defaults p) (files p) f (journal p).

Definition log (e : event) (p : process) : process :=
  Process (cwd p) (sys_stdout p) (sys_argv p) (sys_modules p) (figures p)
          (scenes p) (rc_defaults p) (files p) (failing_examples p)
          (journal p ++ [e]).

(** [os.chdir]; the call is taken to succeed. *)
Definition chdir (d : path) (p : process) : process := set_cwd d p.

(** [plt.close('all')] *)
Definition plt_close_all (p : process) : process := set_figures [] p.

(** *** Computations with state and exceptions

    A computation over a state [S] ends with a value or an exception and
    leaves a state in both cases. *)

Definition ST (S A : Type) : Type := S -> result A * S.

#[global] Instance ST_ret {S} : MRet (ST S) := fun A a s => (Ok a, s).

#[global] Instance ST_bind {S} : MBind (ST S) := fun A B f m s =>
  match m s with
  | (Ok a, s') => f a s'
  | (Raise e, s') => (Raise e, s')
  end.

Definition raise {S A} (e : exn) : ST S A := fun s => (Raise e, s).

Definition get {S} : ST S S := fun s => (Ok s, s).

Definition modify {S} (f : S -> S) : ST S unit := fun s => (Ok tt, f s).

(** A pure computation that may raise, run on the current state. *)
Definition lift {S A} (f : S -> result A) : ST S A := fun s => (f s, s).

(** [try: m finally: fin] *)
Definition try_finally {S A} (m : ST S A) (fin : S -> S) : ST S A :=
  fun s => let '(r, s') := m s in (r, fin s').

(** *** Saving the figures of a block *)

(** [image_path.format(n)] for the template of [generate_file_rst]. *)
Definition format_image_path (image_path : str) (n : nat) : str :=
  replace (py "{0:03}") (format_03 n) image_path.

Section SaveFigures.

Variable os : os_path.

(** The loop over [plt.get_fignums()]. *)
Fixpoint save_matplotlib (image_path : str) (fig_count : nat)
    (figs : list (nat * image)) (figure_list : list path) (fs : filesystem)
    : list path * filesystem :=
  match figs with
  | [] => (figure_list, fs)
  | (fig_num, fig) :: figs' =>
    let current_fig := format_image_path image_path (fig_count + fig_num) in
    (* fig.savefig(current_fig, ...) *)
    save_matplotlib image_path fig_count figs'
      (figure_list ++ [current_fig]) (<[current_fig := Image fig]> fs)
  end.

(** The loop over [zip(e.scenes, mayavi_fig_nums)]. *)
Fixpoint save_mayavi (image_path : str)
    (scenes_nums : list (image * nat)) (figure_list : list path)
    : ST filesystem (list path) :=
  match scenes_nums with
  | [] => mret figure_list
  | (scene, mayavi_fig_num) :: rest =>
    let current_fig := format_image_path image_path mayavi_fig_num in
    (* mlab.savefig(current_fig, figure=scene) *)
    _ ← modify (insert current_fig (Image scene));
    (* make sure the image is not too large *)
    fs ← get;
    fs ← lift (fun _ => scale_image current_fig current_fig 850 999 fs);
    _ ← modify (fun _ => fs);
    save_mayavi image_path rest (figure_list ++ [current_fig])
  end.

Definition save_figures (image_path : str) (fig_count : nat)
    (conf : gallery_conf) : ST process (str * nat) :=
  fun p =>
    let '(figure_list, fs) :=
      save_matplotlib image_path fig_count (figures p) [] (files p) in
    let p := set_files fs p in
    if find_mayavi_figures conf then
      let last_matplotlib_fig_num := fig_count + length figure_list in
      let total_fig_num := last_matplotlib_fig_num + length (scenes p) in
      let mayavi_fig_nums :=
        seq (last_matplotlib_fig_num + 1)
            (total_fig_num + 1 - (last_matplotlib_fig_num + 1)) in
      match save_mayavi image_path (combine (scenes p) mayavi_fig_nums)
                        figure_list (files p) with
      | (Ok figure_list, fs) =>
        (* mlab.close(all=True) *)
        let p := set_scenes [] (set_files fs p) in
        (Ok (figure_rst os figure_list (src_dir conf)), p)
      | (Raise e, fs) => (Raise e, set_files fs p)
      end
    else (Ok (figure_rst os figure_list (src_dir conf)), p).

End SaveFigures.

(** *** Code markup *)

(** [codestr.count('\n', 0, -len(codestr.lstrip()))]: the end index
    [-0] is the index 0. *)
Definition leading_blank_lines (codestr : str) : nat :=
  let n := length (lstrip codestr) in
  if n =? 0 then 0 else count NL (firstn (length codestr - n) codestr).

Definition codestr2rst (conf : gallery_conf) (codestr lang : str)
    (lineno : option nat) : str :=
  let lineno :=
    match lineno with
    | Some lineno =>
      if sphinx_ge_1_3 conf then
        (* Sphinx only starts numbering from the first non-empty line. *)
        let blank_lines := leading_blank_lines codestr in
        py "   :lineno-start: " ++ str_of_nat (lineno + blank_lines) ++ nl
      else py "   :linenos:" ++ nl
    | None => []
    end in
  let code_directive :=
    nl ++ py ".. code-block:: " ++ lang ++ nl ++ lineno ++ nl in
  let indented_block := indent codestr (repeat SPACE 4) in
  code_directive ++ indented_block.

(** [\w] on the code points below 256, and the pattern [([\w ]+)]. *)
Definition word (c : ascii) : bool :=
  let n := ord c in
  Re.ident c || (n =? 170) || (n =? 178) || (n =? 179) || (n =? 181)
  || (n =? 185) || (n =? 186) || ((188 <=? n) && (n <=? 190))
  || ((192 <=? n) && (n <=? 214)) || ((216 <=? n) && (n <=? 246))
  || (248 <=? n).

Definition title_pat : Re.regex :=
  Re.Group "1" (Re.Plus (Re.Cls (fun c => word c || eqc c SPACE))).

Definition extract_intro_and_title (filename docstring : str)
    : result (str * str) :=
  (* lstrip is just in case docstring has a '\n\n' at the beginning *)
  let paragraphs := split (nl ++ nl) None (lstrip docstring) in
  (* remove comments and other syntax like `.. _link:` *)
  let paragraphs :=
    List.filter (fun p => negb (startswith (py ".. ") p) && (0 <? length p))
                paragraphs in
  match paragraphs with
  | [] =>
    Raise (ValueError
             (py "Example docstring should have a header for the example title. Please check the example file:"
              ++ nl ++ py " " ++ filename ++ nl))
  | title_paragraph :: others =>
    match Re.search title_pat title_paragraph with
    | None =>
      Raise (ValueError
               (py "Could not find a title in first paragraph:" ++ nl
                ++ title_paragraph))
    | Some m =>
      let title := strip (Re.group title_paragraph m "1") in
      (* Use the title if no other paragraphs are provided *)
      let intro_paragraph :=
        match others with
        | [] => title
        | second :: _ => second
        end in
      (* Concatenate all lines of the first paragraph and truncate at 95 chars *)
      let intro := replace_char NL SPACE intro_paragraph in
      let intro :=
        if 95 <? length intro then firstn 95 intro ++ py "..." else intro in
      Ok (intro, title)
    end
  end.

(** *** Running a block *)

(** The variables of a file that the blocks share, [block_vars]. *)
Record block_vars : Type := BlockVars {
  execute_script : bool;
  fig_count : nat;
  image_path : str;
  src_file : path
}.

(** How the execution of a block ends: it runs to its end in [elapsed]
    seconds, it raises an [Exception] (a [SyntaxError] of [compile]
    included), or it raises an exception that is no [Exception]. *)
Inductive outcome : Type :=
| Completed (elapsed : Q)
| Failed (e : exc_info)
| Exited.

Record execution (namespace : Type) : Type := Execution {
  ending : outcome;
  printed : str;               (* what was written to sys.stdout *)
  globals_after : namespace;
  process_after : process
}.

Arguments ending {namespace} _.
Arguments printed {namespace} _.
Arguments globals_after {namespace} _.
Arguments process_after {namespace} _.

(** What the engine takes from its host: the platform, the interpreter
    and the modules of the package that lie outside these sources. *)
Record host : Type := Host {
  os : os_path;
  (** [hashlib.md5(b).hexdigest()] *)
  md5_hexdigest : str -> str;
  (** [ast.parse] *)
  ast_parse : str -> parsing;
  (** [bytes.decode('utf-8')], [None] when it raises [UnicodeDecodeError] *)
  decode_utf8 : str -> option str;
  (** [ast.literal_eval] *)
  literal_eval : str -> evaluation;
  (** the dictionary of globals of an example *)
  namespace : Type;
  (** the initial dictionary, with [__doc__] and [__name__] *)
  fresh_globals : namespace;
  (** [compile] of a block of a file, with its line numbers shifted to
      start at the given line, and [exec] of the result in the given
      globals *)
  py_exec : str -> nat -> path -> namespace -> process -> execution namespace;
  (** [glr_path_static()] *)
  glr_path_static : path;
  (** [CODE_DOWNLOAD.format(a, b, c)] *)
  CODE_DOWNLOAD : str -> str -> str -> str;
  (** [gen_binder_rst(fname, binder_conf)], empty without a binder
      configuration *)
  binder_badge_rst : path -> str;
  (** the file that [save_notebook(jupyter_notebook(blocks), _)] writes *)
  notebook_file : list block -> str;
  replace_py_ipynb : path -> path;
  (** the minutes and seconds of [divmod(t, 60)] as the timing line
      formats them *)
  format_minutes_seconds : Q -> str
}.

Section Engine.

Variable H : host.
Variable conf : gallery_conf.

(** The state of the run of one file. *)
Record state : Type := State {
  example_globals : namespace H;
  vars : block_vars;
  proc : process
}.

Definition set_proc (p : process) (st : state) : state :=
  State (example_globals st) (vars st) p.

Definition set_vars (v : block_vars) (st : state) : state :=
  State (example_globals st) v (proc st).

Definition on_proc (f : process -> process) (st : state) : state :=
  set_proc (f (proc st)) st.

(** The state in which [execute_code_block] runs a block: the figures
    closed, the directory of the source file as working directory and
    the standard output redirected. *)
Definition prepare (st : state) : state :=
  let src_file := src_file (vars st) in
  on_proc (set_stdout (LoggingTee src_file))
    (on_proc (chdir (path_dirname (os H) src_file))
       (on_proc plt_close_all st)).

(** The execution of a block from a given state. *)
Definition executed (code_block : str) (lineno : nat) (st : state)
    : execution (namespace H) :=
  py_exec H code_block lineno (src_file (vars st)) (example_globals st)
          (proc (prepare st)).

Definition handle_exception (e : exc_info) (src_file : path)
    : ST state str :=
  fun st =>
    let stack := frames e in
    (* Remove our code from traceback: *)
    let stack :=
      if is_syntax_error e
      then skipn 2 stack  (* Remove one extra level through ast.parse. *)
      else skipn 1 stack in
    let formatted_exception :=
      py "Traceback (most recent call last):" ++ nl
      ++ concat (stack ++ exception_only e) in
    let st :=
      on_proc (log (Warning (src_file ++ py " failed to execute correctly: "
                             ++ formatted_exception))) st in
    let except_rst := codestr2rst conf formatted_exception (py "pytb") None in
    (* Breaks build on first example error *)
    if abort_on_example_error conf then (Raise (ExampleException e), st)
    else
      (* Stores failing file *)
      let st :=
        on_proc (fun p => set_failing
                   (<[src_file := formatted_exception]> (failing_examples p)) p)
                st in
      let v := vars st in
      let st :=
        set_vars (BlockVars false (fig_count v) (image_path v)
                            (GenRst.src_file v)) st in
      (Ok except_rst, st).

(** Executes the code block of the example file *)
Definition execute_code_block (code_block : str) (lineno : nat)
    : ST state (str * Q) :=
  fun st =>
    let time_elapsed := 0%Q in
    (* If example is not suitable to run, skip executing its blocks *)
    if negb (execute_script (vars st)) then (Ok ([], time_elapsed), st)
    else
      let st := on_proc plt_close_all st in
      let cwd := cwd (proc st) in
      (* Redirect output to stdout and *)
      let orig_stdout := sys_stdout (proc st) in
      let src_file := src_file (vars st) in
      (* First cd in the original example dir, so that any file
         created by the example get created in this directory *)
      let st := on_proc (chdir (path_dirname (os H) src_file)) st in
      let st := on_proc (set_stdout (LoggingTee src_file)) st in
      try_finally
        (fun st =>
           let x := py_exec H code_block lineno src_file
                            (example_globals st) (proc st) in
           let st := State (globals_after x) (vars st) (process_after x) in
           match ending x with
           | Failed e =>
             (* except Exception: *)
             let st := on_proc (set_stdout orig_stdout) st in
             match handle_exception e src_file st with
             | (Ok except_rst, st) =>
               let code_output := nl ++ except_rst ++ nl ++ nl ++ nl ++ nl in
               (Ok (code_output, time_elapsed), st)
             | (Raise e', st) => (Raise e', st)
             end
           | Exited => (Raise ExampleExit, st)
           | Completed elapsed =>
             let time_elapsed := elapsed in
             (* else: *)
             let st := on_proc (set_stdout orig_stdout) st in
             let st := on_proc (chdir cwd) st in
             let my_stdout := expandtabs (strip (printed x)) in
             let stdout :=
               if truthy my_stdout
               then CODE_OUTPUT (indent my_stdout (repeat SPACE 4))
               else [] in
             match save_figures (os H) (image_path (vars st))
                                (fig_count (vars st)) conf (proc st) with
             | (Ok (images_rst, fig_num), p) =>
               let v := vars st in
               let st :=
                 State (example_globals st)
                       (BlockVars (execute_script v) (fig_count v + fig_num)
                                  (image_path v) (GenRst.src_file v))
                       p in
               let code_output :=
                 nl ++ images_rst ++ nl ++ nl ++ stdout ++ nl ++ nl in
               (Ok (code_output, time_elapsed), st)
             | (Raise e', p) => (Raise e', set_proc p st)
             end
           end)
        (* finally: *)
        (fun st => on_proc (set_stdout orig_stdout) (on_proc (chdir cwd) st))
        st.

(** A sequence of calls of [execute_code_block], with their results. *)
Fixpoint call_all (calls : list (str * nat)) (st : state)
    : list (result (str * Q)) * state :=
  match calls with
  | [] => ([], st)
  | (code_block, lineno) :: calls' =>
    let '(r, st) := execute_code_block code_block lineno st in
    let '(rs, st) := call_all calls' st in
    (r :: rs, st)
  end.

(** *** The thumbnail *)

(** [isinstance(v, int)], with the integer when it holds. *)
Definition as_int (v : literal) : option Z :=
  match v with
  | LInt z => Some z
  | LBool b => Some (if b then 1 else 0)%Z
  | _ => None
  end.

(** The truth value of a literal. *)
Definition literal_truth (v : literal) : bool :=
  match v with
  | LInt z => negb (z =? 0)%Z
  | LStr s => truthy s
  | LBool b => b
  | LNone => false
  | LOther _ t => t
  end.

Definition format_image_path_z (image_path : str) (z : Z) : str :=
  replace (py "{0:03}") (format_03z z) image_path.

(** Save the thumbnail image *)
Definition save_thumbnail (image_path_template : str) (src_file : path)
    (file_conf : gmap (list ascii) literal) : ST process unit :=
  fun p =>
    (* read specification of the figure to display as thumbnail from main text *)
    let thumbnail_number :=
      default (LInt 1) (file_conf !! py "thumbnail_number") in
    match as_int thumbnail_number with
    | None =>
      (Raise (TypeError
                (py "sphinx_galleria_thumbnail_number setting is not a number.")),
       p)
    | Some thumbnail_number =>
      let thumbnail_image_path :=
        format_image_path_z image_path_template thumbnail_number in
      let thumb_dir :=
        path_join (os H) (path_dirname (os H) thumbnail_image_path)
                  (py "thumb") in
      let base_image_name :=
        fst (path_splitext (os H) (path_basename (os H) src_file)) in
      let thumb_file :=
        path_join (os H) thumb_dir
                  (percent_s (py "sphx_glr_%s_thumb.png") base_image_name) in
      let img :=
        if bool_decide (is_Some (failing_examples p !! src_file)) then
          Some (path_join (os H) (glr_path_static H) (py "broken_example.png"))
        else if exists_ (files p) thumbnail_image_path then
          Some thumbnail_image_path
        else if negb (exists_ (files p) thumb_file) then
          (* create something to replace the thumbnail *)
          let img := path_join (os H) (glr_path_static H) (py "no_image.png") in
          Some (default img (default_thumb_file conf))
        else None in
      match img with
      | None => (Ok tt, p)
      | Some img =>
        match scale_image img thumb_file (fst (thumbnail_size conf))
                          (snd (thumbnail_size conf)) (files p) with
        | Ok fs => (Ok tt, set_files fs p)
        | Raise e => (Raise e, p)
        end
      end
    end.

(** *** One file *)

(** [needle in s] *)
Definition contains (needle s : str) : bool :=
  match find needle s with Some _ => true | None => false end.

Definition clean_modules (p : process) : process :=
  let p :=
    set_modules
      (List.filter (fun module => negb (contains (py "seaborn") module))
                   (sys_modules p)) p in
  (* Reset Matplotlib to default *)
  set_rc_defaults true p.

(** [shutil.copyfile(src, dst)] *)
Definition copyfile (src dst : path) : ST process unit :=
  fun p =>
    match files p !! src with
    | Some f => (Ok tt, set_files (<[dst := f]> (files p)) p)
    | None => (Raise (IOError src), p)
    end.

(** [file_conf.get('line_numbers', gallery_conf.get('line_numbers', False))] *)
Definition show_line_numbers (file_conf : gmap (list ascii) literal) : bool :=
  match file_conf !! py "line_numbers" with
  | Some v => literal_truth v
  | None => line_numbers conf
  end.

(** The loop over the blocks of [generate_file_rst]. *)
Fixpoint run_blocks (file_conf : gmap (list ascii) literal)
    (is_example_notebook_like : bool) (script_blocks : list block)
    (example_rst : str) (time_elapsed : Q) : ST state (str * Q) :=
  match script_blocks with
  | [] => mret (example_rst, time_elapsed)
  | (blabel, bcontent, lineno) :: rest =>
    match blabel with
    | code =>
      '(code_output, rtime) ← execute_code_block bcontent lineno;
      let time_elapsed := (time_elapsed + rtime)%Q in
      let lineno :=
        if negb (show_line_numbers file_conf) then None else Some lineno in
      let example_rst :=
        if is_example_notebook_like then
          let example_rst :=
            example_rst ++ codestr2rst conf bcontent (py "python") lineno
            ++ nl in
          example_rst ++ code_output
        else
          let example_rst := example_rst ++ code_output in
          let example_rst :=
            if contains (py "sphx-glr-script-out") code_output
            then (* Add some vertical space after output *)
                 example_rst ++ nl ++ nl ++ py "|" ++ nl ++ nl
            else example_rst in
          example_rst ++ codestr2rst conf bcontent (py "python") lineno ++ nl in
      run_blocks file_conf is_example_notebook_like rest example_rst
                 time_elapsed
    | text =>
      run_blocks file_conf is_example_notebook_like rest
                 (example_rst ++ bcontent ++ nl ++ nl) time_elapsed
    end
  end.

(** Writes md5 checksum if example has build correctly
    not failed and was initially meant to run(no-plot shall not cache md5sum) *)
Definition write_md5sum (block_vars : block_vars) (example_file : path)
    (p : process) : result process :=
  if execute_script block_vars then
    match get_md5sum (md5_hexdigest H) (files p) example_file with
    | Ok sum => Ok (set_files (write (example_file ++ md5_suffix) sum (files p)) p)
    | Raise e => Raise e
    end
  else Ok p.

Definition image_path_template (fname target_dir : path) : str :=
  let image_dir := path_join (os H) target_dir (py "images") in
  let base_image_name := fst (path_splitext (os H) fname) in
  let image_fname := py "sphx_glr_" ++ base_image_name ++ py "_{0:03}.png" in
  path_join (os H) image_dir image_fname.

(** The first lines of the document of a file. *)
Definition reference_target (example_file : path) : str :=
  let ref_fname := path_relpath (os H) example_file (src_dir conf) in
  let ref_fname := replace_char (os_sep (os H)) (chr 95) ref_fname in
  nl ++ nl ++ py ".. _sphx_glr_" ++ ref_fname ++ py ":" ++ nl ++ nl.

(** The state in which the loop over the blocks starts. *)
Definition initial_state (fname target_dir src_file : path) (p : process)
    : state :=
  let execute_script := filename_pattern conf src_file && plot_gallery conf in
  let block_vars :=
    BlockVars execute_script 0 (image_path_template fname target_dir)
              src_file in
  let p :=
    if GenRst.execute_script block_vars
    then (* We want to run the example without arguments. *)
         set_argv [src_file] p
    else p in
  State (fresh_globals H) block_vars p.

(** The part of [generate_file_rst] after the loop over the blocks. *)
Definition finish (fname target_dir src_file example_file : path)
    (file_conf : gmap (list ascii) literal) (script_blocks : list block)
    (intro : str) (argv_orig : list str) (example_rst : str)
    (time_elapsed : Q) (st : state) : result (str * Q) * process :=
  let block_vars := vars st in
  let p := set_argv argv_orig (proc st) in
  let p := clean_modules p in
  match write_md5sum block_vars example_file p with
  | Raise e => (Raise e, p)
  | Ok p =>
    match save_thumbnail (image_path_template fname target_dir) src_file
                         file_conf p with
    | (Raise e, p) => (Raise e, p)
    | (Ok _, p) =>
      let p :=
        set_files (write (replace_py_ipynb H example_file)
                         (notebook_file H script_blocks) (files p)) p in
      let example_rst :=
        if Qle_bool (min_reported_time conf) time_elapsed
        then example_rst ++ py "**Total running time of the script:**"
             ++ format_minutes_seconds H time_elapsed ++ nl ++ nl
        else example_rst in
      (* Generate a binder URL if specified *)
      let binder_badge_rst := binder_badge_rst H fname in
      let example_rst :=
        example_rst
        ++ CODE_DOWNLOAD H fname (replace_py_ipynb H fname) binder_badge_rst in
      let example_rst := example_rst ++ SPHX_GLR_SIG in
      let base_image_name := fst (path_splitext (os H) fname) in
      let p :=
        set_files (write (path_join (os H) target_dir
                                    (base_image_name ++ py ".rst"))
                         example_rst (files p)) p in
      let p :=
        if GenRst.execute_script block_vars
        then log (Debug src_file time_elapsed) p
        else p in
      (Ok (intro, time_elapsed), p)
    end
  end.

(** The part of [generate_file_rst] after the test of the fingerprint. *)
Definition regenerate (fname target_dir : path) (src_file example_file : path)
    (file_conf : gmap (list ascii) literal) (script_blocks : list block)
    (intro : str) : ST process (str * Q) :=
  fun p =>
    (* A simple example has two blocks: one for the
       example introduction/explanation and one for the code *)
    let is_example_notebook_like := 2 <? length script_blocks in
    let time_elapsed := 0%Q in
    let argv_orig := sys_argv p in
    match run_blocks file_conf is_example_notebook_like script_blocks
                     (reference_target example_file) time_elapsed
                     (initial_state fname target_dir src_file p) with
    | (Raise e, st) => (Raise e, proc st)
    | (Ok (example_rst, time_elapsed), st) =>
      finish fname target_dir src_file example_file file_conf script_blocks
             intro argv_orig example_rst time_elapsed st
    end.

(** Every code block of the list runs to its end, from the given state
    on. *)
Fixpoint all_completed (script_blocks : list block) (st : state) : bool :=
  match script_blocks with
  | [] => true
  | (text, _, _) :: rest => all_completed rest st
  | (code, bcontent, lineno) :: rest =>
    match ending (executed bcontent lineno st) with
    | Completed _ =>
      all_completed rest (snd (execute_code_block bcontent lineno st))
    | _ => false
    end
  end.

(** Generate the rst file for a given example. *)
Definition generate_file_rst (fname target_dir src_dir : path)
    : ST process (str * Q) :=
  let src_file := path_normpath (os H) (path_join (os H) src_dir fname) in
  let example_file := path_join (os H) target_dir fname in
  _ ← copyfile src_file example_file;
  '(file_conf, script_blocks) ←
    lift (fun p => split_code_and_text_blocks (ast_parse H) (decode_utf8 H) (literal_eval H)
                     (files p) src_file);
  '(intro, title) ←
    lift (fun _ => extract_intro_and_title fname
                     (content_of (hd (text, [], 1) script_blocks)));
  cached ← lift (fun p => md5sum_is_current (md5_hexdigest H) (files p)
                            example_file);
  if (cached : bool) then mret (intro, 0%Q)
  else regenerate fname target_dir src_file example_file file_conf
                  script_blocks intro.

End Engine.

Arguments example_globals {H} _.
Arguments vars {H} _.
Arguments proc {H} _.

End GenRst.

(** ** A POSIX platform: [posixpath] *)

Module Posix.
Import GenRst.

Definition slash : ascii := chr 47.

(** [p.rfind(c) + 1]: the index after the last [c], 0 without one. *)
Fixpoint after_last (c : ascii) (p : str) : nat :=
  match p with
  | [] => 0
  | x :: p' =>
    match after_last c p' with
    | O => if eqc x c then 1 else 0
    | S n => S (S n)
    end
  end.

Definition endswith_char (c : ascii) (p : str) : bool :=
  match rev p with
  | x :: _ => eqc x c
  | [] => false
  end.

Definition rstrip_char (c : ascii) (p : str) : str :=
  rev (lstrip_char c (rev p)).

Definition join (a b : path) : path :=
  if startswith [slash] b then b
  else if negb (truthy a) || endswith_char slash a then a ++ b
  else a ++ [slash] ++ b.

Definition dirname (p : path) : path :=
  let head := firstn (after_last slash p) p in
  if truthy head && negb (eqs head (repeat slash (length head)))
  then rstrip_char slash head
  else head.

Definition basename (p : path) : path := skipn (after_last slash p) p.

(** The scan of [genericpath._splitext] over the leading dots of the
    file name. *)
Fixpoint only_dots (s : str) : bool :=
  match s with
  | [] => true
  | c :: s' => eqc c (chr 46) && only_dots s'
  end.

Definition splitext (p : path) : path * path :=
  let sepIndex := after_last slash p in
  let dotIndex := after_last (chr 46) p in
  if (sepIndex <? dotIndex)
     && negb (only_dots (slice sepIndex (dotIndex - 1) p))
  then (firstn (dotIndex - 1) p, skipn (dotIndex - 1) p)
  else (p, []).

Definition dotdot : str := py "..".

(** The loop of [normpath] over the components; [new_comps] is kept
    reversed. *)
Fixpoint normalize (initial_slashes : bool) (comps : list str)
    (new_comps : list str) : list str :=
  match comps with
  | [] => rev new_comps
  | comp :: comps' =>
    if negb (truthy comp) || eqs comp (py ".")
    then normalize initial_slashes comps' new_comps
    else if negb (eqs comp dotdot)
            || (negb initial_slashes && negb (0 <? length new_comps))
            || match new_comps with
               | top :: _ => eqs top dotdot
               | [] => false
               end
    then normalize initial_slashes comps' (comp :: new_comps)
    else normalize initial_slashes comps' (tl new_comps)
  end.

Definition normpath (p : path) : path :=
  match p with
  | [] => py "."
  | _ =>
    let initial_slashes :=
      if startswith [slash] p
      then if startswith [slash; slash] p
              && negb (startswith [slash; slash; slash] p)
           then 2 else 1
      else 0 in
    let comps := split [slash] None p in
    let new_comps := normalize (0 <? initial_slashes) comps [] in
    let p := PyStr.join [slash] new_comps in
    let p := repeat slash initial_slashes ++ p in
    match p with [] => py "." | _ => p end
  end.

Fixpoint drop_common (a b : list str) : list str * list str :=
  match a, b with
  | x :: a', y :: b' => if eqs x y then drop_common a' b' else (a, b)
  | _, _ => (a, b)
  end.

(** [relpath] of paths that are absolute. *)
Definition relpath (p start : path) : path :=
  let start_list := List.filter truthy (split [slash] None (normpath start)) in
  let path_list := List.filter truthy (split [slash] None (normpath p)) in
  let '(start_rest, path_rest) := drop_common start_list path_list in
  let rel_list := repeat dotdot (length start_rest) ++ path_rest in
  match rel_list with
  | [] => py "."
  | first :: others => fold_left join others first
  end.

Definition posixpath : os_path :=
  OsPath slash join normpath dirname basename splitext relpath.

End Posix.

(** ** Concrete files and a concrete host

    The inputs at which the properties below are evaluated: a few source
    files with what the interpreter answers on them. *)

Module Examples.
Import SourceParser GenRst.

Definition lines (l : list string) : str := join nl (map py l).

Definition hashes : string := "####################".

(** A docstring of two paragraphs, code, and a section header with one
    comment line; the file does not end with a newline. *)
Definition narrative_py : str :=
  [DQUOTE; DQUOTE; DQUOTE] ++
  lines [ "Title"; "====="; ""; "Intro text" ] ++ [DQUOTE; DQUOTE; DQUOTE]
  ++ nl ++ lines [ "x = 1"; hashes; "# Some text" ].

(** The same file with a final newline. *)
Definition narrative_nl_py : str := narrative_py ++ nl.

(** A docstring that is one space. *)
Definition blank_doc_py : str :=
  [DQUOTE; SPACE; DQUOTE] ++ nl ++ lines [ "x = 1"; "" ].

(** A directive whose value is an unterminated string. *)
Definition bad_config_py : str :=
  [DQUOTE] ++ py "Title" ++ [DQUOTE] ++ nl ++
  lines [ "# sphinx_galleria_thumbnail_number = 'abc"; "x = 1"; "" ].

(** No docstring, and invalid syntax. *)
Definition no_doc_py : str := lines [ "x = 1"; "" ].
Definition broken_py : str := lines [ "x = = 1"; "" ].

(** Two blocks; the first opens figure 2 only, the second a new figure. *)
Definition plot_py : str :=
  [DQUOTE] ++ py "Figures" ++ [DQUOTE] ++ nl ++
  lines [ "plt.figure(2)"; hashes; "# Next"; "plt.figure()"; "" ].

(** A failing block followed by another block. *)
Definition failing_py : str :=
  [DQUOTE] ++ py "Failure" ++ [DQUOTE] ++ nl ++
  lines [ "1/0"; hashes; "# Next"; "print(1)"; "" ].

(** A file in Latin-1, as its first line declares: the docstring ends
    with the byte 0xE9, which is no UTF-8 text. *)
Definition latin1_py : str :=
  py "# -*- coding: latin-1 -*-" ++ nl
  ++ [DQUOTE] ++ py "Caf" ++ [chr 233] ++ [DQUOTE] ++ nl
  ++ lines [ "x = 1"; "" ].

(** A string literal with the byte 0xFF in a file that declares no
    encoding: the file is no UTF-8 text and does not parse. *)
Definition invalid_utf8_py : str :=
  py "x = " ++ [DQUOTE; chr 255; DQUOTE] ++ nl.

(** [ast.parse] on these files.  The line of a string literal is the
    line where it ends, which is what [get_docstring_and_rest] takes
    [docstring_node.lineno] to be. *)
Definition ast_parse (content : str) : parsing :=
  if eqs content narrative_py || eqs content narrative_nl_py
  then Parsed (Module_ [Expr (Str (lines ["Title"; "====="; ""; "Intro text"])) 4;
                        OtherStmt])
  else if eqs content blank_doc_py
  then Parsed (Module_ [Expr (Str [SPACE]) 1; OtherStmt])
  else if eqs content bad_config_py
  then Parsed (Module_ [Expr (Str (py "Title")) 1; OtherStmt])
  else if eqs content plot_py
  then Parsed (Module_ [Expr (Str (py "Figures")) 1; OtherStmt; OtherStmt])
  else if eqs content failing_py
  then Parsed (Module_ [Expr (Str (py "Failure")) 1; OtherStmt; OtherStmt])
  else if eqs content no_doc_py
  then Parsed (Module_ [OtherStmt])
  else if eqs content latin1_py
  then Parsed (Module_ [Expr (Str (py "Caf" ++ [chr 233])) 2; OtherStmt])
  else ParseSyntaxError.

(** [bytes.decode('utf-8')] on texts of the code points up to U+00FF: a
    byte below 0x80 is a character, and the bytes 0xC2 and 0xC3 start a
    sequence of two bytes.  Any other sequence is ill-formed or gives a
    code point above U+00FF; the files above hold none of the second
    kind. *)
Fixpoint decode_utf8 (content : str) : option str :=
  match content with
  | [] => Some []
  | c :: rest =>
    if ord c <? 128 then option_map (cons c) (decode_utf8 rest)
    else
      match rest with
      | c' :: rest' =>
        if ((ord c =? 194) || (ord c =? 195))
           && (128 <=? ord c') && (ord c' <? 192)
        then option_map (cons (chr ((ord c - 194) * 64 + ord c')))
                        (decode_utf8 rest')
        else None
      | [] => None
      end
  end.

(** [ast.literal_eval] on the values of the directives above. *)
Definition literal_eval (value : str) : evaluation :=
  if eqs value (py "2") then Evaluated (LInt 2)
  else if eqs value (py "True") then Evaluated (LBool true)
  else EvalSyntaxError.

(** A checksum in the place of MD5. *)
Definition digest (b : str) : str :=
  str_of_nat (fold_left (fun h c => (h * 31 + ord c) mod 4093) b 7).

Definition zero_division : exc_info :=
  ExcInfo false
    [ py "  File gen_rst.py, line 541, in execute_code_block" ++ nl;
      py "  File failing.py, line 2, in <module>" ++ nl ]
    [ py "ZeroDivisionError: division by zero" ++ nl ].

(** The globals of an example: the blocks that ran, latest first. *)
Definition namespace : Type := list str.

(** The interpreter on the blocks above.  A block that divides by zero
    fails, [plt.figure(2)] opens figure 2, [plt.figure()] opens the
    figure after the last open one, [print(1)] prints. *)
Definition py_exec (code_block : str) (lineno : nat) (src_file : path)
    (globals : namespace) (p : process) : execution namespace :=
  let globals := code_block :: globals in
  if contains (py "1/0") code_block
  then Execution namespace (Failed zero_division) [] globals p
  else if contains (py "plt.figure(2)") code_block
  then Execution namespace (Completed (1 # 2)) [] globals
         (set_figures (figures p ++ [(2, Picture 640 480 lineno)]) p)
  else if contains (py "plt.figure()") code_block
  then Execution namespace (Completed (1 # 2)) [] globals
         (set_figures
            (figures p ++
             [(S (list_max (map fst (figures p))), Picture 640 480 lineno)]) p)
  else if contains (py "print(1)") code_block
  then Execution namespace (Completed (1 # 4)) (py "1" ++ nl) globals p
  else Execution namespace (Completed (1 # 4)) [] globals p.

Definition host_ : host :=
  Host Posix.posixpath digest ast_parse decode_utf8 literal_eval namespace [] py_exec
       (py "/static")
       (fun a b c => py ".. download:: " ++ a ++ py " " ++ b ++ c ++ nl)
       (fun _ => [])
       (fun blocks => str_of_nat (length blocks))
       (fun p => fst (Posix.splitext p) ++ py ".ipynb")
       (fun _ => py " ( 0 minutes  0.500 seconds)").

Definition conf_ (abort : bool) : gallery_conf :=
  GalleryConf abort false (py "/doc") true (fun _ => true) false 0
              (400, 280)%Z None true.

Definition src_dir_ : path := py "/doc/examples".
Definition target_dir_ : path := py "/doc/auto".

(** A process at the start of a build, with one example file. *)
Definition process_ (fname content : str) : process :=
  Process (py "/doc") (HostStream 1) [py "sphinx-build"; py "-b"; py "html"]
          [py "sys"; py "seaborn.palettes"] [] [] true
          {[ Posix.join src_dir_ fname := Bytes content;
             py "/static/no_image.png" := Image (Picture 200 140 0);
             py "/static/broken_example.png" := Image (Picture 200 140 1) ]}
          ∅ [].

Definition vars_ (fname : str) : block_vars :=
  BlockVars true 0 (py "/doc/auto/images/sphx_glr_plot_{0:03}.png")
            (Posix.join src_dir_ fname).

Definition state_ (fname content : str) : state host_ :=
  State host_ [] (vars_ fname) (process_ fname content).

(** A build directory in which the copy of [plot.py] has its sidecar. *)
Definition cached_process_ : process :=
  let p := process_ (py "plot.py") plot_py in
  set_files (<[ py "/doc/auto/plot.py.md5" := Bytes (digest plot_py) ]> (files p)) p.

(** Source files: one without docstring, one that does not parse, and
    two that are no UTF-8 text. *)
Definition sources_ : filesystem :=
  {[ py "/doc/examples/nodoc.py" := Bytes no_doc_py;
     py "/doc/examples/broken.py" := Bytes broken_py;
     py "/doc/examples/latin1.py" := Bytes latin1_py;
     py "/doc/examples/invalid.py" := Bytes invalid_utf8_py ]}.

(** An image of 800 by 600 pixels. *)
Definition picture_ : image := Picture 800 600 7.
Definition thumb_png : path := py "/doc/auto/images/thumb/a.png".
Definition pictures_ : filesystem := {[ thumb_png := Image picture_ ]}.

End Examples.

(** ** The vocabulary of the properties *)

Module Spec.
Import SourceParser GenRst.

(** A string with at least one character that is no whitespace. *)
Definition nonblank (s : str) : bool :=
  existsb (fun c => negb (isspace c)) s.

(** The path that [figure_rst] writes for a figure. *)
Definition emitted (os : os_path) (sources_dir figure_path : path) : path :=
  lstrip_char (chr 47)
    (replace_char (os_sep os) (chr 47)
       (path_relpath os figure_path sources_dir)).

(** The single-image directive and one entry of the horizontal list. *)
Definition single_image (figure_name : str) : str :=
  nl ++ py ".. image:: /" ++ figure_name ++ nl
  ++ py "    :class: sphx-glr-single-img" ++ nl.

Definition hlist_entry (figure_name : str) : str :=
  nl ++ py "    *" ++ nl ++ nl ++ py "      .. image:: /" ++ figure_name ++ nl
  ++ py "            :class: sphx-glr-multi-img" ++ nl.

(** The docstring of a module: the string literal that is its first
    statement, when it is not empty. *)
Definition has_docstring (node : ast_Module) : bool :=
  match body node with
  | Expr (Str s) _ :: _ => truthy s
  | _ => false
  end.

(** The bytes of a file after [content.replace(b'\r\n', b'\n')], which
    [parse_source_file] parses and decodes. *)
Definition normalized (raw : str) : str :=
  replace [chr 13; NL] nl raw.

(** The position reached in a subject after reading [pre], with [s]
    still to read. *)
Definition cursor_at (pre s : str) : Re.cursor :=
  Re.Cursor (length pre) (last pre) s.

(** Twenty hash characters, and a line that does not start with them. *)
Definition hashes20 : str := repeat (chr 35) 20.

Definition plain_line (line : str) : bool :=
  forallb Re.dot line && negb (startswith hashes20 line).

(** Lines, each with its newline. *)
Definition terminated (lines : list str) : str :=
  concat (map (fun line => line ++ nl) lines).

(** The comment lines after a header: each is a hash character, a text
    without newline, and a newline. *)
Definition comment_lines (bodies : list str) : str :=
  concat (map (fun body => chr 35 :: body ++ nl) bodies).

(** The regular expression of one comment line, [^#.*\s], as it stands
    in [pattern]. *)
Definition comment_line_re : Re.regex :=
  Re.Seq Re.Bol
    (Re.Seq (Re.Cls Re.hash)
       (Re.Seq (Re.Star (Re.Cls Re.dot)) (Re.Cls Re.space))).

(** The numbers 1 to n that matplotlib gives to n figures opened in a
    row. *)
Definition numbered (images : list image) : list (nat * image) :=
  combine (seq 1 (length images)) images.

End Spec.

(** ** [gen_rst.py]: the tee of the standard output

    [sys.stdout] while a block runs is a [LoggingTee]: what the block
    prints goes to a string buffer, from which the output of the block is
    read, and line by line to the logger. *)

Module Tee.
Import GenRst.

Definition CR : ascii := chr 13.

(** [s.splitlines()]; [cur] holds the current line, reversed. *)
Fixpoint splitlines_from (s : str) (cur : str) : list str :=
  match s with
  | [] => match cur with [] => [] | _ => [rev cur] end
  | c :: s' =>
    if is_linebreak c then
      rev cur ::
        match s' with
        | c' :: s'' =>
          if eqc c CR && eqc c' NL then splitlines_from s'' []
          else splitlines_from s' []
        | [] => splitlines_from s' []
        end
    else splitlines_from s' (c :: cur)
  end.

Definition splitlines (s : str) : list str := splitlines_from s [].

(** A [LoggingTee]: the value of its [output_file], the messages that
    it has sent to [logger.verbose], and its attributes. *)
Record logging_tee : Type := LoggingTee_ {
  output_file : str;
  verbose : list str;
  src_filename : path;
  first_write : bool;
  logger_buffer : str
}.

(** [LoggingTee(output_file, logger, src_filename)] on an empty
    [output_file] and a logger that has received nothing. *)
Definition init (src_filename : path) : logging_tee :=
  LoggingTee_ [] [] src_filename true [].

(** [data[-1] not in '\r\n'] on a non-empty [data]; [lines[-1]] is
    taken of a list that is not empty then. *)
Definition write (data : str) (t : logging_tee) : logging_tee :=
  let output_file := output_file t ++ data in
  let verbose :=
    if first_write t
    then verbose t ++ [py "Output from " ++ src_filename t]
    else verbose t in
  let data := logger_buffer t ++ data in
  let lines := splitlines data in
  let incomplete :=
    match last data with
    | Some c => negb (eqc c CR || eqc c NL)
    | None => false
    end in
  if incomplete then
    (* Wait to write last line if it's incomplete. It will write next
       time or when the LoggingTee is flushed. *)
    LoggingTee_ output_file (verbose ++ removelast lines) (src_filename t)
                false (List.last lines [])
  else
    LoggingTee_ output_file (verbose ++ lines) (src_filename t) false [].

Definition flush (t : logging_tee) : logging_tee :=
  if truthy (logger_buffer t)
  then LoggingTee_ (output_file t) (verbose t ++ [logger_buffer t])
                   (src_filename t) (first_write t) []
  else t.

(** The writes of a block, one after the other, and the flush that
    [execute_code_block] makes when the block has ended. *)
Definition tee_all (src_filename : path) (writes : list str) : logging_tee :=
  flush (fold_left (fun t data => write data t) writes (init src_filename)).

End Tee.

(** ** More vocabulary *)

Module Layout.
Import Re SourceParser Spec.

(** A section of a source: the text that follows the twenty hashes on
    its header line, the texts of its comment lines after the hash
    character, and the lines of code up to the next header. *)
Record headed : Type := Headed {
  h_tail : str;
  h_bodies : list str;
  h_code : list str
}.

(** The header line and the comment lines of a section. *)
Definition head_of (s : headed) : str :=
  (hashes20 ++ h_tail s) ++ NL :: comment_lines (h_bodies s).

Definition render_section (s : headed) : str :=
  head_of s ++ terminated (h_code s).

(** The source after the docstring: lines of code, then sections. *)
Definition render (code_lines : list str) (sections : list headed) : str :=
  terminated code_lines ++ concat (map render_section sections).

(** The lines hold no newline, no line of code starts with twenty
    hashes, and the code after the comment lines of a section does not
    start with a hash character (it would be one more comment line), so
    that a section that is not the last has code. *)
Definition section_ok (s : headed) : bool :=
  forallb dot (h_tail s)
  && forallb (forallb dot) (h_bodies s)
  && forallb plain_line (h_code s)
  && negb (startswith [chr 35] (terminated (h_code s))).

Fixpoint sections_ok (sections : list headed) : bool :=
  match sections with
  | [] => true
  | s :: rest =>
    section_ok s
    && match rest with [] => true | _ :: _ => 0 <? length (h_code s) end
    && sections_ok rest
  end.

(** The block of lines of code that start at a line, if it is not
    blank. *)
Definition code_block (code_lines : list str) (lineno : nat) : list block :=
  if nonblank (terminated code_lines)
  then [(code, terminated code_lines, lineno)]
  else [].

(** The block of the comment lines that start at a line, if their text
    is not blank. *)
Definition text_block (bodies : list str) (lineno : nat) : list block :=
  let content :=
    lstrip (Textwrap.dedent (sub sub_pat [] (comment_lines bodies))) in
  if nonblank content then [(text, content, lineno)] else [].

(** The blocks of lines of code that start at a line and of the
    sections after them. *)
Fixpoint blocks_from (code_lines : list str) (sections : list headed)
    (lineno : nat) : list block :=
  match sections with
  | [] => code_block code_lines lineno
  | s :: rest =>
    code_block code_lines lineno
    ++ text_block (h_bodies s) (lineno + length code_lines + 1)
    ++ blocks_from (h_code s) rest
         (lineno + length code_lines + 1 + length (h_bodies s))
  end.

End Layout.

Module Notions.
Import SourceParser GenRst.

(** Numbers that do not decrease from [lo], through the list, to [hi]. *)
Fixpoint chain (lo : nat) (l : list nat) (hi : nat) : Prop :=
  match l with
  | [] => lo <= hi
  | a :: l' => lo <= a /\ chain a l' hi
  end.

(** The directives of a content in the order of the file: the name and
    the text of the value of each. *)
Definition directives (content : str) : list (str * str) :=
  map (fun m => (Re.group content m "1", Re.group content m "2"))
      (Re.finditer prop_pat content).

(** The values of directives that all evaluate. *)
Fixpoint evaluated (literal_eval : str -> evaluation)
    (ds : list (str * str)) : option (list (str * literal)) :=
  match ds with
  | [] => Some []
  | (name, value) :: ds' =>
    match literal_eval value, evaluated literal_eval ds' with
    | Evaluated v, Some vs => Some ((name, v) :: vs)
    | _, _ => None
    end
  end.

(** [file_conf[name] = value] *)
Definition bind_directive (file_conf : gmap (list ascii) literal)
    (d : str * literal) : gmap (list ascii) literal :=
  <[fst d := snd d]> file_conf.

(** The path of the thumbnail of a source file, [thumb_file] in
    [save_thumbnail]. *)
Definition thumbnail_path (H : host) (image_path_template : str)
    (src_file : path) (thumbnail_number : Z) : path :=
  path_join (os H)
    (path_join (os H)
       (path_dirname (os H)
          (format_image_path_z image_path_template thumbnail_number))
       (py "thumb"))
    (percent_s (py "sphx_glr_%s_thumb.png")
       (fst (path_splitext (os H) (path_basename (os H) src_file)))).

(** A character of a title: [[\w ]]. *)
Definition title_char (c : ascii) : bool := word c || eqc c SPACE.

(** The process [p'] differs from [p] in its files at most. *)
Definition only_files (p p' : process) : Prop := p' = set_files (files p') p.

(** A character that ends no line, or the newline. *)
Definition newline_only (c : ascii) : bool :=
  negb (is_linebreak c) || eqc c NL.

(** The lines that a text completes after the unfinished line [cur]
    (reversed), and the line that it leaves unfinished. *)
Fixpoint complete (s : str) (cur : str) : list str :=
  match s with
  | [] => []
  | c :: s' =>
    if eqc c NL then rev cur :: complete s' [] else complete s' (c :: cur)
  end.

Fixpoint pending (s : str) (cur : str) : str :=
  match s with
  | [] => cur
  | c :: s' => if eqc c NL then pending s' [] else pending s' (c :: cur)
  end.

(** A text without line boundary. *)
Definition plain (s : str) : bool :=
  forallb (fun c => negb (is_linebreak c)) s.

(** The line without the prefix that [indent] has put before it. *)
Definition unindent (prefix line : str) : str :=
  if Spec.nonblank line then skipn (length prefix) line else line.

End Notions.

(** ** More concrete files *)

Module Samples.
Import SourceParser GenRst Examples Layout.

(** A docstring and three stretches of code, with two headers; the
    second header has a text after its hashes and two comment lines, one
    of them empty. *)
Definition sections_py : str :=
  [DQUOTE] ++ py "Two sections" ++ [DQUOTE] ++ nl ++
  lines [ "x = 1"; hashes; "# First"; "y = 2";
          (hashes ++ " tail")%string; "# Second"; "#"; "z = 3"; "" ].

Definition sections_layout : list headed :=
  [ Headed [] [py " First"] [py "y = 2"];
    Headed (py " tail") [py " Second"; []] [py "z = 3"] ].

(** A file of one line, the docstring, without a final newline. *)
Definition one_line_py : str := [DQUOTE] ++ py "Doc" ++ [DQUOTE].

(** [ast.parse] on these two files. *)
Definition parse (content : str) : parsing :=
  if eqs content sections_py
  then Parsed (Module_ [Expr (Str (py "Two sections")) 1; OtherStmt])
  else if eqs content one_line_py
  then Parsed (Module_ [Expr (Str (py "Doc")) 1])
  else ParseSyntaxError.

Definition sources : filesystem :=
  {[ py "/doc/examples/sections.py" := Bytes sections_py;
     py "/doc/examples/one.py" := Bytes one_line_py ]}.

(** Two directives of the same name. *)
Definition twice : str :=
  lines [ "# sphinx_galleria_thumbnail_number = 2";
          "# sphinx_galleria_thumbnail_number = True"; "" ].

Definition twice_values : list (str * literal) :=
  [ (py "thumbnail_number", LInt 2); (py "thumbnail_number", LBool true) ].

(** A directive whose value is an unterminated string. *)
Definition unterminated : str :=
  lines [ "# sphinx_galleria_thumbnail_number = 'abc"; "x = 1"; "" ].

(** A configuration in which no example is executed. *)
Definition conf_no_plot : gallery_conf :=
  GalleryConf false false (py "/doc") false (fun _ => true) false 0
              (400, 280)%Z None true.

(** The template of the image paths of [plot.py]. *)
Definition plot_images : str :=
  py "/doc/auto/images/sphx_glr_plot_{0:03}.png".

(** A process in which one figure is open. *)
Definition one_figure : process :=
  set_figures [(1, Picture 640 480 0)] (process_ (py "plot.py") plot_py).

(** The process after the copy of [plot.py] into the target
    directory. *)
Definition copied_plot : process :=
  let p := process_ (py "plot.py") plot_py in
  set_files (<[ py "/doc/auto/plot.py" := Bytes plot_py ]> (files p)) p.

(** The blocks of [plot.py] up to its header. *)
Definition plot_blocks : list block :=
  [ (text, py "Figures", 1); (code, py "plt.figure(2)" ++ nl, 2) ].

End Samples.

(** * Properties *)

(** ** Strings *)

Section StringFacts.

Lemma lstrip_empty (s : str) :
  lstrip s = [] <-> forallb isspace s = true.
Proof.
  induction s as [|c s IH]; simpl; [tauto|].
  destruct (isspace c); simpl; [exact IH|].
  split; discriminate.
Qed.

Lemma forallb_rev {A} (f : A -> bool) (l : list A) :
  forallb f (rev l) = forallb f l.
Proof.
  induction l as [|a l IH]; simpl; [reflexivity|].
  rewrite forallb_app, IH. simpl. rewrite andb_true_r. apply andb_comm.
Qed.

Lemma lstrip_forallb (s : str) :
  forallb isspace (lstrip s) = forallb isspace s.
Proof.
  induction s as [|c s IH]; simpl; [reflexivity|].
  destruct (isspace c) eqn:E; simpl; [exact IH|].
  rewrite E. reflexivity.
Qed.

Lemma strip_empty (s : str) :
  strip s = [] <-> forallb isspace s = true.
Proof.
  unfold strip, rstrip. split.
  - intros Hs.
    assert (Hl : lstrip (rev (lstrip s)) = []).
    { destruct (lstrip (rev (lstrip s))); [reflexivity|].
      simpl in Hs. destruct (rev l); discriminate. }
    apply lstrip_empty in Hl. rewrite forallb_rev, lstrip_forallb in Hl.
    exact Hl.
  - intros Hs. apply lstrip_empty in Hs. rewrite Hs. reflexivity.
Qed.

(** A stripped string is non-empty exactly when the string has a
    character that is no whitespace. *)
Lemma truthy_strip (s : str) :
  truthy (strip s) = Spec.nonblank s.
Proof.
  unfold Spec.nonblank.
  destruct (strip s) eqn:E.
  - apply strip_empty in E. simpl. symmetry.
    apply not_true_is_false. intros Hex. apply existsb_exists in Hex.
    destruct Hex as [c [Hin Hc]].
    rewrite forallb_forall in E. rewrite (E c Hin) in Hc. discriminate.
  - simpl. symmetry. destruct (existsb _ s) eqn:Hex; [reflexivity|].
    assert (Hall : forallb isspace s = true).
    { apply forallb_forall. intros c Hin.
      destruct (isspace c) eqn:Hc; [reflexivity|].
      assert (existsb (fun c => negb (isspace c)) s = true).
      { apply existsb_exists. exists c. rewrite Hc. auto. }
      congruence. }
    apply strip_empty in Hall. congruence.
Qed.

Lemma eqc_true (a b : ascii) : eqc a b = true <-> a = b.
Proof. apply Ascii.eqb_eq. Qed.

Lemma eqc_refl (a : ascii) : eqc a a = true.
Proof. apply Ascii.eqb_refl. Qed.

Lemma eqs_true (a b : str) : eqs a b = true <-> a = b.
Proof.
  revert b. induction a as [|x a IH]; intros [|y b]; simpl;
    try (split; [discriminate|discriminate]); [tauto|].
  rewrite andb_true_iff, eqc_true, IH. split.
  - intros [-> ->]. reflexivity.
  - intros Heq. injection Heq. auto.
Qed.

Lemma eqs_refl (a : str) : eqs a a = true.
Proof. apply eqs_true. reflexivity. Qed.

Lemma lstrip_char_head (c : ascii) (s : str) :
  startswith [c] (lstrip_char c s) = false.
Proof.
  induction s as [|x s IH]; simpl; [reflexivity|].
  destruct (eqc x c) eqn:E; [exact IH|].
  simpl. rewrite andb_true_r.
  destruct (eqc c x) eqn:E'; [|reflexivity].
  apply eqc_true in E'. subst. rewrite eqc_refl in E. discriminate.
Qed.

Lemma lstrip_char_incl (c : ascii) (s : str) (x : ascii) :
  In x (lstrip_char c s) -> In x s.
Proof.
  induction s as [|y s IH]; simpl; [tauto|].
  destruct (eqc y c); simpl; tauto.
Qed.

Lemma replace_char_gone (a b : ascii) (s : str) :
  a <> b -> ~ In a (replace_char a b s).
Proof.
  intros Hab Hin. unfold replace_char in Hin. apply in_map_iff in Hin.
  destruct Hin as [x [Hx _]].
  destruct (eqc x a) eqn:E.
  - congruence.
  - subst. rewrite eqc_refl in E. discriminate.
Qed.

Lemma fold_left_append {A} (f : A -> str) (l : list A) (init : str) :
  fold_left (fun acc x => acc ++ f x) l init = init ++ concat (map f l).
Proof.
  revert init. induction l as [|x l IH]; intros init; simpl.
  - rewrite app_nil_r. reflexivity.
  - rewrite IH, <- app_assoc. reflexivity.
Qed.

End StringFacts.

(** ** Figures: the fragment of [figure_rst] *)

Section FigureRst.

Import GenRst Spec.

Variable os : os_path.

Lemma percent_s_single (figure_name : str) :
  percent_s SINGLE_IMAGE figure_name = single_image figure_name.
Proof. reflexivity. Qed.

Lemma percent_s_hlist (figure_name : str) :
  percent_s HLIST_IMAGE_TEMPLATE figure_name = hlist_entry figure_name.
Proof. reflexivity. Qed.

Lemma emitted_relative (sources_dir figure_path : path) :
  startswith [chr 47] (emitted os sources_dir figure_path) = false
  /\ (os_sep os <> chr 47 ->
      ~ In (os_sep os) (emitted os sources_dir figure_path)).
Proof.
  unfold emitted. split.
  - apply lstrip_char_head.
  - intros Hsep Hin. apply lstrip_char_incl in Hin.
    revert Hin. apply replace_char_gone. exact Hsep.
Qed.

(** C7.  For a list of N figure paths [figure_rst] returns the empty
    fragment when N = 0, the single-image directive when N = 1 and the
    horizontal-list header followed by one image entry per figure, in
    order, when N > 1.  The path written for a figure is its path relative
    to the sources directory with every [os.sep] turned into a forward
    slash and the leading slashes stripped: it does not start with a
    slash and, on a platform whose separator is not the slash, holds no
    separator of the platform.  The count returned is N. *)
Theorem figure_rst_fragment (figure_list : list path) (sources_dir : path) :
  let names := map (emitted os sources_dir) figure_list in
  figure_rst os figure_list sources_dir =
    (match names with
     | [] => []
     | [figure_name] => single_image figure_name
     | _ => HLIST_HEADER ++ concat (map hlist_entry names)
     end, length figure_list)
  /\ length names = length figure_list
  /\ Forall (fun figure_name =>
               startswith [chr 47] figure_name = false
               /\ (os_sep os <> chr 47 -> ~ In (os_sep os) figure_name))
            names.
Proof.
  intros names. split; [|split].
  - unfold figure_rst. fold (emitted os sources_dir). fold names.
    destruct names as [|n1 [|n2 rest]]; try reflexivity.
    apply (f_equal (fun x => (x, length figure_list))).
    rewrite fold_left_append.
    apply (f_equal (app HLIST_HEADER)), (f_equal (@concat ascii)).
    apply map_ext. intros a. apply percent_s_hlist.
  - apply length_map.
  - subst names. induction figure_list as [|figure_path l IH]; simpl.
    + constructor.
    + constructor; [apply emitted_relative | exact IH].
Qed.

(** When the open figures are numbered 1 to n, as matplotlib numbers
    figures opened in a row after [plt.close('all')], they are saved to
    the paths numbered [fig_count + 1] to [fig_count + n], and n is the
    count that is added to [fig_count]. *)
Lemma save_matplotlib_contiguous (image_path : str) (fig_count : nat)
    (images : list image) :
  forall (start : nat) (figure_list : list path) (fs : filesystem),
    fst (save_matplotlib image_path fig_count
           (combine (seq start (length images)) images) figure_list fs)
    = figure_list
      ++ map (fun k => format_image_path image_path (fig_count + k))
             (seq start (length images)).
Proof.
  induction images as [|image images IH]; intros start figure_list fs.
  - cbn. rewrite app_nil_r. reflexivity.
  - cbn [length seq combine save_matplotlib map].
    rewrite IH, <- app_assoc. reflexivity.
Qed.


End FigureRst.

(** ** The execution engine *)

Section EngineFacts.

Import SourceParser GenRst Spec.

Variable H : host.
Variable conf : gallery_conf.

Lemma execute_code_block_skipped (code_block : str) (lineno : nat)
    (st : state H) :
  execute_script (vars st) = false ->
  execute_code_block H conf code_block lineno st = (Ok ([], 0%Q), st).
Proof.
  intros Hflag. unfold execute_code_block. rewrite Hflag. reflexivity.
Qed.

Lemma call_all_skipped (calls : list (str * nat)) (st : state H) :
  execute_script (vars st) = false ->
  call_all H conf calls st = (map (fun _ => Ok ([], 0%Q)) calls, st).
Proof.
  intros Hflag. induction calls as [|[code_block lineno] calls IH]; simpl.
  - reflexivity.
  - rewrite (execute_code_block_skipped _ _ _ Hflag), IH. reflexivity.
Qed.

(** C8.  Whatever the block does and however the call ends, with a
    result or with an exception, [execute_code_block] leaves the working
    directory and the standard output stream that it found. *)
Theorem execute_code_block_restores (code_block : str) (lineno : nat)
    (st : state H) :
  let after := snd (execute_code_block H conf code_block lineno st) in
  cwd (proc after) = cwd (proc st)
  /\ sys_stdout (proc after) = sys_stdout (proc st).
Proof.
  unfold execute_code_block.
  destruct (execute_script (vars st)); simpl; [|split; reflexivity].
  unfold try_finally.
  match goal with |- context [let '(r, s') := ?m in _] => destruct m as [r s'] end.
  simpl. split; reflexivity.
Qed.


(** *** The fingerprint *)

Lemma md5sum_is_current_true (fs : filesystem) (src_file : path) :
  md5sum_is_current (md5_hexdigest H) fs src_file = Ok true
  <-> exists content ref_md5,
        fs !! src_file = Some (Bytes content)
        /\ fs !! (src_file ++ md5_suffix) = Some (Bytes ref_md5)
        /\ md5_hexdigest H content = ref_md5.
Proof.
  unfold md5sum_is_current, get_md5sum, read, exists_. split.
  - destruct (fs !! src_file) as [[content|i]|]; simpl; try discriminate.
    destruct (fs !! (src_file ++ md5_suffix)) as [[ref_md5|i]|]; simpl;
      try discriminate.
    intros Heq. exists content, ref_md5.
    split; [reflexivity|]. split; [reflexivity|].
    apply eqs_true. destruct (eqs _ _); [reflexivity|discriminate].
  - intros [content [ref_md5 [-> [-> Hsum]]]]. simpl.
    apply eqs_true in Hsum. rewrite Hsum. reflexivity.
Qed.

Lemma run_blocks_skipped (file_conf : gmap (list ascii) literal) (nb : bool)
    (script_blocks : list block) (example_rst : str) (time_elapsed : Q)
    (st : state H) :
  execute_script (vars st) = false ->
  exists out,
    run_blocks H conf file_conf nb script_blocks example_rst time_elapsed st
      = (Ok out, st).
Proof.
  intros Hflag. revert example_rst time_elapsed.
  induction script_blocks as [|[[blabel bcontent] lineno] rest IH];
    intros example_rst time_elapsed; simpl.
  - eexists. reflexivity.
  - destruct blabel.
    + apply IH.
    + unfold mbind, ST_bind.
      rewrite (execute_code_block_skipped _ _ _ Hflag). apply IH.
Qed.

(** A call that returns with the flag still set ran a block to its
    end. *)
Lemma flag_kept_completed (code_block : str) (lineno : nat)
    (st : state H) (r : str * Q) (st1 : state H) :
  execute_script (vars st) = true ->
  execute_code_block H conf code_block lineno st = (Ok r, st1) ->
  execute_script (vars st1) = true ->
  exists elapsed, ending (executed H code_block lineno st) = Completed elapsed.
Proof.
  intros Hflag Hcall Hflag1.
  unfold executed, prepare. simpl.
  unfold execute_code_block in Hcall. rewrite Hflag in Hcall. simpl in Hcall.
  unfold try_finally in Hcall. simpl in Hcall.
  destruct (ending (py_exec H code_block lineno _ _ _)) as [elapsed|e|].
  - exists elapsed. reflexivity.
  - exfalso. unfold handle_exception in Hcall.
    destruct (abort_on_example_error conf); simpl in Hcall.
    + discriminate.
    + injection Hcall as _ <-. simpl in Hflag1. discriminate.
  - discriminate.
Qed.

Lemma flag_at_end (file_conf : gmap (list ascii) literal) (nb : bool)
    (script_blocks : list block) (example_rst : str) (time_elapsed : Q)
    (st : state H) (out : str * Q) (st1 : state H) :
  run_blocks H conf file_conf nb script_blocks example_rst time_elapsed st
    = (Ok out, st1) ->
  execute_script (vars st1) = true ->
  execute_script (vars st) = true
  /\ all_completed H conf script_blocks st = true.
Proof.
  revert example_rst time_elapsed st.
  induction script_blocks as [|[[blabel bcontent] lineno] rest IH];
    intros example_rst time_elapsed st Hrun Hflag1; simpl in *.
  - injection Hrun as _ <-. auto.
  - destruct blabel.
    + eapply IH; eassumption.
    + destruct (execute_script (vars st)) eqn:Hflag.
      * unfold mbind, ST_bind in Hrun.
        destruct (execute_code_block H conf bcontent lineno st)
          as [[[code_output rtime]|e] st'] eqn:Hcall; [|discriminate].
        apply IH in Hrun; [|assumption]. destruct Hrun as [Hflag' Hall].
        destruct (flag_kept_completed _ _ _ _ _ Hflag Hcall Hflag')
          as [elapsed ->].
        auto.
      * exfalso.
        destruct (run_blocks_skipped file_conf nb
                    ((code, bcontent, lineno) :: rest) example_rst
                    time_elapsed st Hflag) as [out' Hskip].
        simpl in Hskip. rewrite Hskip in Hrun.
        injection Hrun as _ <-. congruence.
Qed.

End EngineFacts.

(** ** Scaling an image in place *)

Section ScaleImage.

Import GenRst.

#[local] Open Scope Z_scope.

Lemma float_div_ok (a b : Z) :
  b <> 0 -> float_div a b = Ok (inject_Z a / inject_Z b)%Q.
Proof.
  intros Hb. unfold float_div.
  destruct (b =? 0) eqn:E; [|reflexivity].
  apply Z.eqb_eq in E. contradiction.
Qed.

Lemma inject_Z_pos (z : Z) : 0 < z -> (0 < inject_Z z)%Q.
Proof. intros Hz. rewrite (Zlt_Qlt 0 z) in Hz. exact Hz. Qed.

(** A ratio of a bound to a size within the bound is at least 1. *)
Lemma ratio_ge_1 (bound size : Z) :
  0 < size -> size <= bound ->
  Qle_bool 1 (inject_Z bound / inject_Z size) = true.
Proof.
  intros Hpos Hle. apply Qle_bool_iff.
  apply Qle_shift_div_l; [apply inject_Z_pos; exact Hpos|].
  rewrite Qmult_1_l. rewrite <- Zle_Qle. exact Hle.
Qed.

Lemma round_le (q : Q) (z : Z) : (q <= inject_Z z)%Q -> round q <= z.
Proof.
  intros Hq. unfold round.
  assert (Hfloor : Qfloor q <= z).
  { rewrite <- (Qfloor_Z z). apply Qfloor_resp_le. exact Hq. }
  assert (Hup : (1 # 2 <= q - inject_Z (Qfloor q))%Q -> Qfloor q + 1 <= z).
  { intros Hfrac.
    assert (Hlt : (inject_Z (Qfloor q) < inject_Z z)%Q).
    { apply Qlt_le_trans with q; [|exact Hq].
      apply Qlt_minus_iff.
      apply Qlt_le_trans with (1 # 2)%Q; [reflexivity|].
      exact Hfrac. }
    rewrite <- Zlt_Qlt in Hlt. lia. }
  destruct (q - inject_Z (Qfloor q) ?= 1 # 2)%Q eqn:Hcmp.
  - destruct (Z.even (Qfloor q)); [exact Hfloor|].
    apply Hup. apply Qeq_alt in Hcmp. rewrite Hcmp. apply Qle_refl.
  - exact Hfloor.
  - apply Hup. apply Qgt_alt in Hcmp. apply Qlt_le_weak. exact Hcmp.
Qed.

(** Below the factor 1 a size does not grow. *)
Lemma scaled_le (scale : Q) (size : Z) :
  0 < size -> Qle_bool 1 scale = false ->
  round (scale * inject_Z size) <= size.
Proof.
  intros Hpos Hscale. apply round_le.
  assert (Hlt : (scale < 1)%Q).
  { apply Qnot_le_lt. intros Hle. apply Qle_bool_iff in Hle. congruence. }
  rewrite <- (Qmult_1_l (inject_Z size)) at 2.
  apply Qmult_le_compat_r.
  - apply Qlt_le_weak. exact Hlt.
  - apply Qlt_le_weak. apply inject_Z_pos. exact Hpos.
Qed.

Lemma scale_image_fits (fs : filesystem) (fname : path)
    (max_width max_height : Z) (img : image) :
  fs !! fname = Some (Image img) ->
  0 < fst (size img) <= max_width ->
  0 < snd (size img) <= max_height ->
  scale_image fname fname max_width max_height fs = Ok fs.
Proof.
  intros Hfile [Hw Hwle] [Hh Hhle].
  unfold scale_image, open_image. rewrite Hfile. simpl.
  destruct (size img) as [width_in height_in]. simpl in *.
  rewrite !float_div_ok by lia. simpl.
  rewrite eqs_refl, andb_true_r.
  destruct (Qle_bool (inject_Z height_in * _) _);
    rewrite ratio_ge_1 by assumption; reflexivity.
Qed.

(** C9.  For an image file of positive size and positive bounds, scaling
    in place (source and destination are the same path): leaves the
    file system unchanged when the image fits the bounds, so also when it
    has exactly the size of the bounds; otherwise replaces the image by a
    canvas of the size of the bounds that holds the image resized to a
    width and a height that are not larger than before; and scaling the
    result again with the same bounds changes nothing. *)
Theorem scale_image_in_place (fs : filesystem) (fname : path)
    (max_width max_height : Z) (img : image) :
  fs !! fname = Some (Image img) ->
  0 < fst (size img) -> 0 < snd (size img) ->
  0 < max_width -> 0 < max_height ->
  (fst (size img) <= max_width -> snd (size img) <= max_height ->
   scale_image fname fname max_width max_height fs = Ok fs)
  /\ exists fs1,
       scale_image fname fname max_width max_height fs = Ok fs1
       /\ (fs1 = fs
           \/ exists width_sc height_sc x y,
                fs1 = <[fname := Image (Canvas max_width max_height
                                          (Resized img width_sc height_sc)
                                          x y)]> fs
                /\ width_sc <= fst (size img)
                /\ height_sc <= snd (size img))
       /\ scale_image fname fname max_width max_height fs1 = Ok fs1.
Proof.
  intros Hfile Hw Hh HW HH. split.
  - intros Hwle Hhle. apply scale_image_fits with img; auto.
  - unfold scale_image at 1. unfold open_image. rewrite Hfile. simpl.
    destruct (size img) as [width_in height_in] eqn:Hsize. simpl in *.
    rewrite !float_div_ok by lia. simpl.
    rewrite eqs_refl, andb_true_r.
    set (scale := if Qle_bool (inject_Z height_in * _) _ then _ else _).
    destruct (Qle_bool 1 scale) eqn:Hscale.
    + exists fs. split; [reflexivity|]. split; [left; reflexivity|].
      unfold scale_image, open_image. rewrite Hfile. simpl.
      rewrite Hsize. rewrite !float_div_ok by lia. simpl.
      rewrite eqs_refl, andb_true_r. fold scale. rewrite Hscale.
      reflexivity.
    + eexists. split; [reflexivity|]. split.
      * right. do 4 eexists. split; [reflexivity|].
        split; apply scaled_le; assumption.
      * apply scale_image_fits with
          (Canvas max_width max_height
             (Resized img (round (scale * inject_Z width_in))
                      (round (scale * inject_Z height_in)))
             ((max_width - round (scale * inject_Z width_in)) / 2)
             ((max_height - round (scale * inject_Z height_in)) / 2)).
        -- apply lookup_insert_eq.
        -- simpl. lia.
        -- simpl. lia.
Qed.

End ScaleImage.

(** ** The header pattern *)

Section RegexFacts.

Import Re SourceParser Spec.

Lemma cursor_at_snoc (pre : str) (a : ascii) (s : str) :
  Cursor (S (length pre)) (Some a) s = cursor_at (pre ++ [a]) s.
Proof.
  unfold cursor_at. rewrite length_app, last_snoc. simpl.
  f_equal. lia.
Qed.

Lemma run_cls (p : ascii -> bool) (k : cont) (pre : str) (a : ascii)
    (s : str) (caps : captures) :
  run (Cls p) k (cursor_at pre (a :: s)) caps
    = if p a then k (cursor_at (pre ++ [a]) s) caps else None.
Proof. simpl. rewrite cursor_at_snoc. reflexivity. Qed.

Lemma run_cls_end (p : ascii -> bool) (k : cont) (pre : str)
    (caps : captures) :
  run (Cls p) k (cursor_at pre []) caps = None.
Proof. reflexivity. Qed.

(** A greedy star over a class reads the longest run of characters of
    the class; when the rest of the pattern accepts there, that is the
    match. *)
Lemma star_cls_greedy (p : ascii -> bool) (k : cont) (l : str) :
  forall (pre s : str) (caps : captures) (fuel : nat)
         (r : cursor * captures),
    forallb p l = true ->
    match s with [] => true | a :: _ => negb (p a) end = true ->
    length l < fuel ->
    k (cursor_at (pre ++ l) s) caps = Some r ->
    star_loop fuel (run (Cls p)) k (cursor_at pre (l ++ s)) caps = Some r.
Proof.
  induction l as [|a l IH]; intros pre s caps fuel r Hall Hstop Hfuel Hk.
  - rewrite app_nil_r in Hk. simpl.
    destruct fuel as [|fuel]; [lia|]. simpl.
    destruct s as [|b s]; simpl.
    + exact Hk.
    + simpl in Hstop. apply negb_true_iff in Hstop. rewrite Hstop.
      exact Hk.
  - simpl in Hall. apply andb_true_iff in Hall. destruct Hall as [Ha Hall].
    destruct fuel as [|fuel]; [simpl in Hfuel; lia|].
    cbn [star_loop]. cbn [app]. rewrite run_cls, Ha.
    assert (Hidx : (c_idx (cursor_at (pre ++ [a]) (l ++ s))
                    =? c_idx (cursor_at pre (a :: l ++ s))) = false).
    { apply Nat.eqb_neq. unfold cursor_at. simpl. rewrite length_app. simpl.
      lia. }
    rewrite Hidx.
    rewrite (IH (pre ++ [a]) s caps fuel r); auto.
    + simpl in Hfuel. lia.
    + rewrite <- app_assoc. exact Hk.
Qed.

Lemma run_star_cls (p : ascii -> bool) (k : cont) (l pre s : str)
    (caps : captures) (r : cursor * captures) :
  forallb p l = true ->
  match s with [] => true | a :: _ => negb (p a) end = true ->
  k (cursor_at (pre ++ l) s) caps = Some r ->
  run (Star (Cls p)) k (cursor_at pre (l ++ s)) caps = Some r.
Proof.
  intros Hall Hstop Hk. cbn [run]. apply star_cls_greedy; auto.
  simpl. rewrite length_app. lia.
Qed.


Lemma run_seq (r1 r2 : regex) (k : cont) :
  run (Seq r1 r2) k = run r1 (run r2 k).
Proof. reflexivity. Qed.

Lemma run_group (name : string) (r : regex) (k : cont) (c : cursor)
    (caps : captures) :
  run (Group name r) k c caps
    = run r (fun c' caps' => k c' ((name, (c_idx c, c_idx c')) :: caps'))
          c caps.
Proof. reflexivity. Qed.

Lemma run_bol (k : cont) (c : cursor) (caps : captures) :
  run Bol k c caps = if at_bol c then k c caps else None.
Proof. reflexivity. Qed.

Lemma run_star (r : regex) (k : cont) (c : cursor) (caps : captures) :
  run (Star r) k c caps
    = star_loop (S (length (c_rest c))) (run r) k c caps.
Proof. reflexivity. Qed.

Lemma eqc_sym (a b : ascii) : eqc a b = eqc b a.
Proof.
  destruct (eqc a b) eqn:E.
  - apply Ascii.eqb_eq in E. subst. symmetry. apply Ascii.eqb_refl.
  - destruct (eqc b a) eqn:E'; [|reflexivity].
    apply Ascii.eqb_eq in E'. subst. rewrite Ascii.eqb_refl in E.
    discriminate.
Qed.

(** A fixed number of hash characters. *)
Lemma rep_hash_fails (n : nat) :
  forall (k : cont) (c : cursor) (caps : captures),
    startswith (repeat (chr 35) n) (c_rest c) = false ->
    run (Rep n (Cls hash)) k c caps = None.
Proof.
  induction n as [|n IH]; intros k c caps Hstart;
    cbn [repeat startswith] in Hstart.
  - discriminate.
  - cbn [Rep]. rewrite run_seq. cbn [run].
    destruct (c_rest c) as [|a s]; [reflexivity|].
    unfold hash at 1. rewrite eqc_sym.
    destruct (eqc (chr 35) a); cbn [andb] in Hstart; [|reflexivity].
    apply IH. exact Hstart.
Qed.

Lemma rep_hash_ok (n : nat) :
  forall (k : cont) (pre s : str) (caps : captures),
    run (Rep n (Cls hash)) k (cursor_at pre (repeat (chr 35) n ++ s)) caps
      = k (cursor_at (pre ++ repeat (chr 35) n) s) caps.
Proof.
  induction n as [|n IH]; intros k pre s caps.
  - simpl. rewrite app_nil_r. reflexivity.
  - cbn [Rep repeat app]. rewrite run_seq, run_cls.
    change (hash (chr 35)) with true. cbn iota.
    rewrite IH. rewrite <- app_assoc. reflexivity.
Qed.

(** The rest of a header line: the hashes beyond the twentieth, then
    any text up to the newline. *)
Lemma star_hash_dot (k : cont) (tail : str) :
  forall (pre s : str) (caps : captures) (fuel : nat)
         (r : cursor * captures),
    forallb dot tail = true ->
    length tail < fuel ->
    k (cursor_at (pre ++ tail) (NL :: s)) caps = Some r ->
    star_loop fuel (run (Cls hash)) (run (Star (Cls dot)) k)
              (cursor_at pre (tail ++ NL :: s)) caps = Some r.
Proof.
  induction tail as [|a t IH]; intros pre s caps fuel r Hdot Hfuel Hk;
    (destruct fuel as [|fuel]; [simpl in Hfuel; lia|]).
  - cbn [star_loop app]. rewrite run_cls. change (hash NL) with false.
    cbn iota.
    apply (run_star_cls dot k [] pre (NL :: s)); auto.
  - cbn [star_loop app]. rewrite run_cls.
    destruct (hash a) eqn:Ha.
    + assert (Hidx : (c_idx (cursor_at (pre ++ [a]) (t ++ NL :: s))
                      =? c_idx (cursor_at pre (a :: t ++ NL :: s))) = false).
      { apply Nat.eqb_neq. unfold cursor_at. simpl. rewrite length_app.
        simpl. lia. }
      rewrite Hidx.
      simpl in Hdot. apply andb_true_iff in Hdot. destruct Hdot as [_ Hdot].
      rewrite (IH (pre ++ [a]) s caps fuel r); auto.
      * simpl in Hfuel. lia.
      * rewrite <- app_assoc. exact Hk.
    + apply (run_star_cls dot k (a :: t) pre (NL :: s)); auto.
Qed.

Lemma at_bol_after_newline (pre s : str) :
  at_bol (cursor_at (pre ++ [NL]) s) = true.
Proof. unfold at_bol, cursor_at. simpl. rewrite last_snoc. reflexivity. Qed.

Lemma run_comment_line (k : cont) (c : cursor) (caps : captures) :
  run comment_line_re k c caps
    = if at_bol c
      then run (Cls hash) (run (Star (Cls dot)) (run (Cls space) k)) c caps
      else None.
Proof. reflexivity. Qed.

Lemma comment_lines_cons (body : str) (bodies : list str) :
  comment_lines (body :: bodies)
    = chr 35 :: body ++ NL :: comment_lines bodies.
Proof.
  unfold comment_lines, nl. cbn [map concat app].
  rewrite <- app_assoc. reflexivity.
Qed.

Lemma comment_lines_loop (k : cont) (bodies : list str) :
  forall (pre : str) (caps : captures) (fuel : nat) (r : cursor * captures),
    Forall (fun body => forallb dot body = true) bodies ->
    length bodies <= fuel ->
    at_bol (cursor_at pre []) = true ->
    k (cursor_at (pre ++ comment_lines bodies) []) caps = Some r ->
    star_loop fuel (run comment_line_re) k
              (cursor_at pre (comment_lines bodies)) caps = Some r.
Proof.
  induction bodies as [|body bodies IH];
    intros pre caps fuel r Hbodies Hfuel Hbol Hk.
  - change (comment_lines []) with (@nil ascii) in *.
    rewrite app_nil_r in Hk.
    destruct fuel as [|fuel]; [exact Hk|].
    cbn [star_loop]. rewrite run_comment_line, Hbol, run_cls_end.
    exact Hk.
  - inversion Hbodies as [|? ? Hbody Hrest]; subst.
    destruct fuel as [|fuel]; [simpl in Hfuel; lia|].
    rewrite comment_lines_cons in *.
    cbn [star_loop]. rewrite run_comment_line.
    assert (Hbol' : at_bol (cursor_at pre
                      (chr 35 :: body ++ NL :: comment_lines bodies)) = true)
      by exact Hbol.
    rewrite Hbol', run_cls.
    change (hash (chr 35)) with true. cbn iota.
    rewrite (run_star_cls dot _ body (pre ++ [chr 35])
               (NL :: comment_lines bodies) caps r); auto.
    rewrite run_cls. change (space NL) with true. cbn iota.
    assert (Hidx :
      (c_idx (cursor_at (((pre ++ [chr 35]) ++ body) ++ [NL])
                        (comment_lines bodies))
       =? c_idx (cursor_at pre (chr 35 :: body ++ NL :: comment_lines bodies)))
      = false).
    { apply Nat.eqb_neq. unfold cursor_at. simpl. rewrite !length_app.
      simpl. lia. }
    rewrite Hidx.
    apply IH; auto.
    + simpl in Hfuel. lia.
    + apply at_bol_after_newline.
    + rewrite <- Hk. f_equal. f_equal.
      rewrite <- !app_assoc. reflexivity.
Qed.


Lemma run_pattern (k : cont) (c : cursor) (caps : captures) :
  run pattern k c caps
    = if at_bol c then
        run (Rep 20 (Cls hash))
          (run (Star (Cls hash))
             (run (Star (Cls dot))
                (fun c1 caps1 =>
                   run (Cls space)
                     (fun c2 caps2 =>
                        run (Star comment_line_re)
                          (fun c3 caps3 =>
                             k c3 (("text_content"%string,
                                    (c_idx c2, c_idx c3)) :: caps3))
                          c2 caps2)
                     c1 (("header_line"%string, (c_idx c, c_idx c1)) :: caps1))))
          c caps
      else None.
Proof. reflexivity. Qed.

(** No header starts in the middle of a line, nor at a line that does
    not begin with twenty hashes. *)
Lemma no_header_here (c : cursor) :
  at_bol c = false \/ startswith hashes20 (c_rest c) = false ->
  match_at pattern c = None.
Proof.
  intros Hc. unfold match_at. rewrite run_pattern.
  destruct (at_bol c); [|reflexivity].
  destruct Hc as [Hc|Hc]; [discriminate|].
  rewrite rep_hash_fails; [reflexivity|exact Hc].
Qed.

Lemma comment_lines_length (bodies : list str) :
  length bodies <= length (comment_lines bodies).
Proof.
  induction bodies as [|body bodies IH]; [apply Nat.le_refl|].
  rewrite comment_lines_cons. cbn [length]. rewrite length_app.
  cbn [length]. lia.
Qed.

(** The match at a header line with its comment lines. *)
Lemma header_match (pre tail : str) (bodies : list str) :
  at_bol (cursor_at pre []) = true ->
  forallb dot tail = true ->
  Forall (fun body => forallb dot body = true) bodies ->
  let header := hashes20 ++ tail in
  let comments := comment_lines bodies in
  match_at pattern (cursor_at pre (header ++ NL :: comments))
    = Some (Match (length pre)
                  (length (pre ++ header ++ NL :: comments))
                  [("text_content"%string,
                    (length (pre ++ header ++ [NL]),
                     length (pre ++ header ++ NL :: comments)));
                   ("header_line"%string,
                    (length pre, length (pre ++ header)))]).
Proof.
  intros Hbol Htail Hbodies header comments.
  unfold match_at. rewrite run_pattern.
  assert (Hbol' : at_bol (cursor_at pre (header ++ NL :: comments)) = true)
    by exact Hbol.
  rewrite Hbol'. subst header. rewrite <- app_assoc.
  unfold hashes20 at 1. rewrite rep_hash_ok, run_star.
  set (pre1 := pre ++ repeat (chr 35) 20).
  set (c3 := cursor_at (((pre1 ++ tail) ++ [NL]) ++ comments) []).
  set (R := (c3, [("text_content"%string,
                   (length ((pre1 ++ tail) ++ [NL]), c_idx c3));
                  ("header_line"%string, (length pre, length (pre1 ++ tail)))])).
  rewrite (star_hash_dot _ tail pre1 comments [] _ R).
  - unfold R, c3, pre1, cursor_at, hashes20. cbn [c_idx].
    rewrite <- !app_assoc. reflexivity.
  - exact Htail.
  - cbn [c_rest cursor_at]. rewrite length_app. cbn [length]. lia.
  - cbn beta. rewrite run_cls. change (space NL) with true. cbn iota.
    rewrite run_star.
    apply comment_lines_loop.
    + exact Hbodies.
    + cbn [c_rest cursor_at]. pose proof (comment_lines_length bodies).
      fold comments in H. lia.
    + apply at_bol_after_newline.
    + reflexivity.
Qed.

(** *** The scan of [finditer] *)

Lemma finditer_skip (fuel : nat) (r : regex) (c c' : cursor) :
  match_at r c = None -> step c = Some c' ->
  finditer_from (S fuel) r c = finditer_from fuel r c'.
Proof. intros Hm Hs. cbn [finditer_from]. rewrite Hm, Hs. reflexivity. Qed.

Lemma step_cursor_at (pre : str) (a : ascii) (s : str) :
  step (cursor_at pre (a :: s)) = Some (cursor_at (pre ++ [a]) s).
Proof. unfold step. cbn. rewrite cursor_at_snoc. reflexivity. Qed.

Lemma at_bol_snoc (pre : str) (a : ascii) (s : str) :
  at_bol (cursor_at (pre ++ [a]) s) = eqc a NL.
Proof. unfold at_bol, cursor_at. cbn. rewrite last_snoc. reflexivity. Qed.

Lemma startswith_hashes_line (n : nat) :
  forall l s : str,
    startswith (repeat (chr 35) n) (l ++ NL :: s) = true ->
    startswith (repeat (chr 35) n) l = true.
Proof.
  induction n as [|n IH]; intros l s Hstart.
  - reflexivity.
  - destruct l as [|a l]; cbn [repeat startswith app] in *.
    + change (eqc (chr 35) NL) with false in Hstart. discriminate.
    + apply andb_true_iff in Hstart. destruct Hstart as [Ha Hl].
      rewrite Ha. apply (IH l s). exact Hl.
Qed.

Lemma no_header_in_line (pre l s : str) :
  (at_bol (cursor_at pre []) = true -> startswith hashes20 l = false) ->
  match_at pattern (cursor_at pre (l ++ NL :: s)) = None.
Proof.
  intros Hl. apply no_header_here.
  destruct (at_bol (cursor_at pre (l ++ NL :: s))) eqn:Hbol;
    [right|left; reflexivity].
  cbn [c_rest cursor_at].
  destruct (startswith hashes20 (l ++ NL :: s)) eqn:Hstart; [|reflexivity].
  specialize (Hl Hbol). unfold hashes20 in *.
  apply startswith_hashes_line in Hstart. congruence.
Qed.

Lemma scan_line (l : str) :
  forall (pre s : str) (fuel : nat),
    forallb dot l = true ->
    (at_bol (cursor_at pre []) = true -> startswith hashes20 l = false) ->
    finditer_from (S (length l) + fuel) pattern (cursor_at pre (l ++ NL :: s))
      = finditer_from fuel pattern (cursor_at (pre ++ l ++ [NL]) s).
Proof.
  induction l as [|a l IH]; intros pre s fuel Hdot Hplain.
  - cbn [app length plus].
    apply finditer_skip; [|apply step_cursor_at].
    apply (no_header_in_line pre [] s). exact Hplain.
  - cbn [app length].
    change (S (S (length l)) + fuel) with (S (S (length l) + fuel)).
    rewrite (finditer_skip _ pattern _ (cursor_at (pre ++ [a]) (l ++ NL :: s))).
    + cbn [forallb] in Hdot. apply andb_true_iff in Hdot.
      destruct Hdot as [Ha Hdot].
      rewrite IH.
      * rewrite <- app_assoc. reflexivity.
      * exact Hdot.
      * intros Hbol. change (at_bol (cursor_at (pre ++ [a]) []))
          with (at_bol (cursor_at (pre ++ [a]) s)) in Hbol.
        rewrite at_bol_snoc in Hbol. unfold dot in Ha.
        rewrite Hbol in Ha. discriminate.
    + apply (no_header_in_line pre (a :: l) s). exact Hplain.
    + apply step_cursor_at.
Qed.

Lemma terminated_cons (l : str) (ls : list str) :
  terminated (l :: ls) = l ++ NL :: terminated ls.
Proof.
  unfold terminated, nl. cbn [map concat]. rewrite <- app_assoc.
  reflexivity.
Qed.

Lemma at_bol_terminated (ls : list str) (s : str) :
  at_bol (cursor_at (terminated ls) s) = true.
Proof.
  induction ls as [|l ls IH] using rev_ind; [reflexivity|].
  unfold terminated. rewrite map_app, concat_app. cbn [map concat].
  rewrite app_nil_r, !app_assoc. apply at_bol_after_newline.
Qed.

Lemma scan_lines (ls : list str) :
  forall (pre s : str) (fuel : nat),
    Forall (fun l => plain_line l = true) ls ->
    at_bol (cursor_at pre []) = true ->
    finditer_from (length (terminated ls) + fuel) pattern
                  (cursor_at pre (terminated ls ++ s))
      = finditer_from fuel pattern (cursor_at (pre ++ terminated ls) s).
Proof.
  induction ls as [|l ls IH]; intros pre s fuel Hplain Hbol.
  - cbn. rewrite app_nil_r. reflexivity.
  - inversion Hplain as [|? ? Hl Hls]; subst.
    unfold plain_line in Hl. apply andb_true_iff in Hl.
    destruct Hl as [Hdot Hstart]. apply negb_true_iff in Hstart.
    rewrite terminated_cons. rewrite <- app_assoc. cbn [app].
    rewrite length_app. cbn [length].
    replace (length l + S (length (terminated ls)) + fuel)
      with (S (length l) + (length (terminated ls) + fuel)) by lia.
    rewrite scan_line; auto.
    rewrite IH; auto.
    + f_equal. f_equal. rewrite <- !app_assoc. reflexivity.
    + change (at_bol (cursor_at (pre ++ l ++ [NL]) []) = true).
      rewrite app_assoc. apply at_bol_after_newline.
Qed.

Lemma advance_cursor_at (l : str) :
  forall pre s : str,
    advance (length l) (cursor_at pre (l ++ s)) = cursor_at (pre ++ l) s.
Proof.
  induction l as [|a l IH]; intros pre s.
  - cbn. rewrite app_nil_r. reflexivity.
  - cbn [length advance app]. rewrite step_cursor_at, IH, <- app_assoc.
    reflexivity.
Qed.

Lemma finditer_at_end (fuel : nat) (pre : str) :
  finditer_from fuel pattern (cursor_at pre []) = [].
Proof.
  destruct fuel as [|fuel]; [reflexivity|].
  cbn [finditer_from]. rewrite no_header_here; [reflexivity|].
  right. reflexivity.
Qed.

Lemma finditer_hit (fuel : nat) (r : regex) (c : cursor) (m : match_obj) :
  match_at r c = Some m ->
  (m_end m =? m_start m) = false ->
  finditer_from (S fuel) r c
    = m :: finditer_from fuel r (advance (m_end m - m_start m) c).
Proof. intros Hm Hne. cbn [finditer_from]. rewrite Hm, Hne. reflexivity. Qed.

Lemma finditer_unfold (r : regex) (s : str) :
  finditer r s = finditer_from (S (length s)) r (cursor_at [] s).
Proof. reflexivity. Qed.

(** In lines without header, followed by one header line with its
    comment lines, [finditer] finds the header and nothing else. *)
Lemma finditer_header (code_lines : list str) (tail : str)
    (bodies : list str) :
  Forall (fun l => plain_line l = true) code_lines ->
  forallb dot tail = true ->
  Forall (fun body => forallb dot body = true) bodies ->
  finditer pattern (terminated code_lines ++ (hashes20 ++ tail)
                    ++ NL :: comment_lines bodies)
    = [Match (length (terminated code_lines))
             (length (terminated code_lines ++ (hashes20 ++ tail)
                      ++ NL :: comment_lines bodies))
             [("text_content"%string,
               (length (terminated code_lines ++ (hashes20 ++ tail) ++ [NL]),
                length (terminated code_lines ++ (hashes20 ++ tail)
                        ++ NL :: comment_lines bodies)));
              ("header_line"%string,
               (length (terminated code_lines),
                length (terminated code_lines ++ hashes20 ++ tail)))]].
Proof.
  intros Hcode Htail Hbodies.
  rewrite finditer_unfold.
  replace (S (length (terminated code_lines ++ (hashes20 ++ tail)
                      ++ NL :: comment_lines bodies)))
    with (length (terminated code_lines)
          + S (length ((hashes20 ++ tail) ++ NL :: comment_lines bodies)))
    by (rewrite (length_app (terminated code_lines)); lia).
  rewrite scan_lines; [|exact Hcode|reflexivity].
  rewrite app_nil_l.
  pose proof (header_match (terminated code_lines) tail bodies
                (at_bol_terminated code_lines []) Htail Hbodies) as Hmatch.
  cbv zeta in Hmatch.
  rewrite (finditer_hit _ _ _ _ Hmatch).
  - f_equal. cbn [m_start m_end].
    replace (length (terminated code_lines ++ (hashes20 ++ tail)
                     ++ NL :: comment_lines bodies)
             - length (terminated code_lines))
      with (length ((hashes20 ++ tail) ++ NL :: comment_lines bodies))
      by (rewrite (length_app (terminated code_lines)); lia).
    pose proof (advance_cursor_at ((hashes20 ++ tail) ++ NL :: comment_lines bodies)
                  (terminated code_lines) []) as Hadv.
    rewrite app_nil_r in Hadv. rewrite Hadv. apply finditer_at_end.
  - cbn [m_start m_end]. apply Nat.eqb_neq.
    rewrite !length_app. cbn [length]. lia.
Qed.

(** *** The blocks of a source with one trailing section *)

Lemma slice_prefix (a b : str) : slice 0 (length a) (a ++ b) = a.
Proof.
  unfold slice. rewrite Nat.sub_0_r. cbn [skipn]. apply take_app_length.
Qed.

Lemma slice_suffix (a b : str) :
  slice (length a) (length (a ++ b)) (a ++ b) = b.
Proof.
  unfold slice. rewrite drop_app_length, length_app.
  replace (length a + length b - length a) with (length b) by lia.
  apply firstn_all.
Qed.

Lemma count_terminated (ls : list str) :
  Forall (fun l => plain_line l = true) ls ->
  count NL (terminated ls) = length ls.
Proof.
  induction 1 as [|l ls Hl _ IH]; [reflexivity|].
  rewrite terminated_cons. cbn [length]. rewrite <- IH. clear IH.
  unfold plain_line in Hl. apply andb_true_iff in Hl. destruct Hl as [Hdot _].
  induction l as [|a l IHl].
  - cbn [app count]. rewrite eqc_refl. reflexivity.
  - cbn [forallb] in Hdot. apply andb_true_iff in Hdot.
    destruct Hdot as [Ha Hdot]. cbn [app count].
    unfold dot in Ha. apply negb_true_iff in Ha. rewrite Ha.
    apply IHl. exact Hdot.
Qed.

Section TrailingSection.

Variable ast_parse : str -> parsing.
Variable decode_utf8 : str -> option str.
Variable literal_eval : str -> evaluation.
Variable fs : filesystem.

(** A source whose rest, after the docstring, is lines of code without
    header, one header line and its comment lines, every line with its
    newline: the blocks are the docstring, the code and, when the comment
    text is not blank, the text, with the start lines of the source. *)
Lemma header_section_blocks (source_file : path) (docstring : str)
    (lineno : nat) (code_lines : list str) (tail : str) (bodies : list str)
    (file_conf : gmap (list ascii) literal) :
  let source_code := terminated code_lines in
  let comments := comment_lines bodies in
  let text_block := lstrip (Textwrap.dedent (sub sub_pat [] comments)) in
  get_docstring_and_rest ast_parse decode_utf8 fs source_file
    = Ok (docstring, source_code ++ (hashes20 ++ tail) ++ NL :: comments, lineno) ->
  extract_file_config literal_eval
    (source_code ++ (hashes20 ++ tail) ++ NL :: comments) = Ok file_conf ->
  Forall (fun l => plain_line l = true) code_lines ->
  forallb dot tail = true ->
  Forall (fun body => forallb dot body = true) bodies ->
  nonblank source_code = true ->
  split_code_and_text_blocks ast_parse decode_utf8 literal_eval fs source_file
    = Ok (file_conf,
          (text, docstring, 1) :: (code, source_code, lineno)
          :: (if nonblank text_block
              then [(text, text_block, lineno + length code_lines + 1)]
              else [])).
Proof.
  intros source_code comments text_block Hdoc Hconf Hcode Htail Hbodies Hnonblank.
  unfold split_code_and_text_blocks. rewrite Hdoc.
  unfold mbind at 1. unfold result_bind at 1. cbn iota beta.
  rewrite Hconf.
  unfold mbind at 1. unfold result_bind at 1. cbn iota beta.
  subst source_code comments. rewrite finditer_header by assumption.
  cbn [fold_left]. unfold split_step.
  cbn [st_blocks st_lineno st_pos_so_far m_start m_end].
  unfold group. cbn [m_groups lookup_group].
  rewrite String.eqb_refl.
  rewrite slice_prefix.
  replace (terminated code_lines ++ (hashes20 ++ tail)
           ++ NL :: comment_lines bodies)
    with ((terminated code_lines ++ (hashes20 ++ tail) ++ [NL])
          ++ comment_lines bodies)
    by (rewrite <- !app_assoc; reflexivity).
  rewrite slice_suffix, drop_all.
  rewrite !truthy_strip, Hnonblank.
  rewrite count_terminated by assumption.
  fold text_block.
  change (nonblank []) with false. cbn iota.
  destruct (nonblank text_block); reflexivity.
Qed.

End TrailingSection.

End RegexFacts.

(** ** The block parser *)

Section ParserFacts.

Import Re SourceParser Spec.

Variable ast_parse : str -> parsing.
Variable decode_utf8 : str -> option str.
Variable literal_eval : str -> evaluation.
Variable fs : filesystem.

Lemma parse_source_file_read (filename : path) (raw : str) :
  fs !! filename = Some (Bytes raw) ->
  parse_source_file ast_parse decode_utf8 fs filename
    = match ast_parse (normalized raw) with
      | Parsed node =>
        chars ← decoded decode_utf8 (normalized raw); mret (Some node, chars)
      | ParseSyntaxError =>
        chars ← decoded decode_utf8 (normalized raw); mret (None, chars)
      | ParseRaises e => Raise e
      end.
Proof.
  intros Hfile. unfold parse_source_file, read. rewrite Hfile. reflexivity.
Qed.

(** The same on bytes that are UTF-8 text. *)
Lemma parse_source_file_text (filename : path) (raw chars : str) :
  fs !! filename = Some (Bytes raw) ->
  decode_utf8 (normalized raw) = Some chars ->
  parse_source_file ast_parse decode_utf8 fs filename
    = match ast_parse (normalized raw) with
      | Parsed node => Ok (Some node, chars)
      | ParseSyntaxError => Ok (None, chars)
      | ParseRaises e => Raise e
      end.
Proof.
  intros Hfile Htext. rewrite (parse_source_file_read _ _ Hfile).
  unfold decoded. rewrite Htext.
  destruct (ast_parse (normalized raw)); reflexivity.
Qed.

(** On bytes that are no UTF-8 text the decoding raises, whether they
    parse or not. *)
Lemma parse_source_file_undecodable (filename : path) (raw : str) :
  fs !! filename = Some (Bytes raw) ->
  decode_utf8 (normalized raw) = None ->
  parse_source_file ast_parse decode_utf8 fs filename
    = match ast_parse (normalized raw) with
      | ParseRaises e => Raise e
      | _ => Raise UnicodeDecodeError
      end.
Proof.
  intros Hfile Htext. rewrite (parse_source_file_read _ _ Hfile).
  unfold decoded. rewrite Htext.
  destruct (ast_parse (normalized raw)); reflexivity.
Qed.

Lemma get_docstring_parsed (filename : path) (raw chars : str)
    (node : ast_Module) :
  fs !! filename = Some (Bytes raw) ->
  ast_parse (normalized raw) = Parsed node ->
  decode_utf8 (normalized raw) = Some chars ->
  get_docstring_and_rest ast_parse decode_utf8 fs filename
    = if has_docstring node
      then Ok match body node with
              | Expr (Str s) lineno :: _ =>
                (s, last_part (split nl (Some lineno) chars), lineno + 1)
              | _ => ([], [], 0)
              end
      else Raise (missing_docstring filename).
Proof.
  intros Hfile Hparse Htext. unfold get_docstring_and_rest.
  rewrite (parse_source_file_text _ _ _ Hfile Htext), Hparse.
  unfold mbind, result_bind, mret, result_ret, has_docstring.
  destruct (body node) as [|[[s|] lineno|] stmts]; simpl; try reflexivity.
  destruct (truthy s); reflexivity.
Qed.

(** C5, amended.  For a file that can be read,
    [get_docstring_and_rest] raises in three cases and no other:
    [ast.parse] raises an exception that is no [SyntaxError], which is
    passed on; or the bytes of the file are no UTF-8 text, and the
    exception is [UnicodeDecodeError], whether the content parses or
    not; or the content parses, is UTF-8 text and the module has no
    docstring (no leading string literal, or an empty one), and the
    exception is the [ValueError] that asks for a docstring.  When
    [ast.parse] raises [SyntaxError] on bytes that are UTF-8 text, the
    function returns the synthetic docstring, the whole text of the file
    (with line endings normalized) as the rest, and line 1. *)
Theorem docstring_required (filename : path) (raw : str) :
  fs !! filename = Some (Bytes raw) ->
  let content := normalized raw in
  (forall e,
     get_docstring_and_rest ast_parse decode_utf8 fs filename = Raise e
     <-> ast_parse content = ParseRaises e
         \/ ((forall e', ast_parse content <> ParseRaises e')
             /\ decode_utf8 content = None
             /\ e = UnicodeDecodeError)
         \/ (exists node chars,
               ast_parse content = Parsed node
               /\ decode_utf8 content = Some chars
               /\ has_docstring node = false
               /\ e = missing_docstring filename))
  /\ (forall chars,
        ast_parse content = ParseSyntaxError ->
        decode_utf8 content = Some chars ->
        get_docstring_and_rest ast_parse decode_utf8 fs filename
          = Ok (SYNTAX_ERROR_DOCSTRING, chars, 1)).
Proof.
  intros Hfile content. split.
  - intros e.
    destruct (decode_utf8 content) as [chars|] eqn:Htext.
    + destruct (ast_parse content) as [node| |e0] eqn:Hparse.
      * rewrite (get_docstring_parsed _ _ _ _ Hfile Hparse Htext).
        destruct (has_docstring node) eqn:Hdoc.
        -- split; [discriminate|].
           intros [Hcase|[[_ [Hcase _]]|[node' [chars' [Hnode [_ [Hdoc' _]]]]]]];
             try discriminate.
           injection Hnode as <-. congruence.
        -- split.
           ++ intros Heq. injection Heq as <-. right. right.
              exists node, chars. auto.
           ++ intros [Hcase|[[_ [Hcase _]]|[node' [chars' [_ [_ [_ ->]]]]]]];
                try discriminate. reflexivity.
      * unfold get_docstring_and_rest.
        rewrite (parse_source_file_text _ _ _ Hfile Htext). fold content.
        rewrite Hparse. simpl. split; [discriminate|].
        intros [Hcase|[[_ [Hcase _]]|[node' [chars' [Hnode _]]]]];
          discriminate.
      * unfold get_docstring_and_rest.
        rewrite (parse_source_file_text _ _ _ Hfile Htext). fold content.
        rewrite Hparse. simpl. split.
        -- intros Heq. injection Heq as <-. left. reflexivity.
        -- intros [Hcase|[[Hno _]|[node' [chars' [Hnode _]]]]].
           ++ injection Hcase as <-. reflexivity.
           ++ exfalso. exact (Hno e0 eq_refl).
           ++ discriminate.
    + unfold get_docstring_and_rest.
      rewrite (parse_source_file_undecodable _ _ Hfile Htext). fold content.
      destruct (ast_parse content) as [node| |e0] eqn:Hparse; simpl.
      * split.
        -- intros Heq. injection Heq as <-. right. left.
           split; [discriminate|]. auto.
        -- intros [Hcase|[[_ [_ ->]]|[node' [chars' [_ [Hcase _]]]]]];
             try discriminate. reflexivity.
      * split.
        -- intros Heq. injection Heq as <-. right. left.
           split; [discriminate|]. auto.
        -- intros [Hcase|[[_ [_ ->]]|[node' [chars' [_ [Hcase _]]]]]];
             try discriminate. reflexivity.
      * split.
        -- intros Heq. injection Heq as <-. left. reflexivity.
        -- intros [Hcase|[[Hno _]|[node' [chars' [Hnode _]]]]].
           ++ injection Hcase as <-. reflexivity.
           ++ exfalso. exact (Hno e0 eq_refl).
           ++ discriminate.
  - intros chars Hparse Htext. unfold get_docstring_and_rest.
    rewrite (parse_source_file_text _ _ _ Hfile Htext). fold content.
    rewrite Hparse. reflexivity.
Qed.

Lemma docstring_not_empty (filename : path) (docstring rest : str)
    (lineno : nat) :
  get_docstring_and_rest ast_parse decode_utf8 fs filename = Ok (docstring, rest, lineno) ->
  docstring <> [].
Proof.
  unfold get_docstring_and_rest.
  destruct (parse_source_file ast_parse decode_utf8 fs filename)
    as [[node content]|e]; simpl; [|discriminate].
  destruct node as [node|].
  - destruct (body node) as [|[[s|] ln|] stmts]; simpl; try discriminate.
    destruct s as [|c s]; simpl; [discriminate|].
    intros Heq. injection Heq as <- _ _. discriminate.
  - intros Heq. injection Heq as <- _ _. discriminate.
Qed.

Lemma split_step_adds (rest_of_content : str) (st : split_state)
    (m : match_obj) :
  exists added,
    st_blocks (split_step rest_of_content st m) = st_blocks st ++ added
    /\ Forall (fun b => nonblank (content_of b) = true) added.
Proof.
  unfold split_step. simpl.
  set (code_block_content := slice _ _ _).
  set (text_block_content := lstrip _).
  destruct (truthy (strip code_block_content)) eqn:Hcode;
    destruct (truthy (strip text_block_content)) eqn:Htext;
    rewrite truthy_strip in Hcode, Htext.
  - exists [(code, code_block_content, st_lineno st);
            (text, text_block_content,
             st_lineno st + count NL code_block_content + 1)].
    rewrite <- app_assoc. split; [reflexivity|].
    repeat constructor; assumption.
  - exists [(code, code_block_content, st_lineno st)].
    split; [reflexivity|]. repeat constructor; assumption.
  - exists [(text, text_block_content,
             st_lineno st + count NL code_block_content + 1)].
    split; [reflexivity|]. repeat constructor; assumption.
  - exists []. rewrite app_nil_r. split; [reflexivity|constructor].
Qed.

Lemma split_loop_adds (rest_of_content : str) (ms : list match_obj)
    (st : split_state) :
  exists added,
    st_blocks (fold_left (split_step rest_of_content) ms st)
      = st_blocks st ++ added
    /\ Forall (fun b => nonblank (content_of b) = true) added.
Proof.
  revert st. induction ms as [|m ms IH]; intros st; simpl.
  - exists []. rewrite app_nil_r. split; [reflexivity|constructor].
  - destruct (IH (split_step rest_of_content st m)) as [added2 [Heq2 Hall2]].
    destruct (split_step_adds rest_of_content st m) as [added1 [Heq1 Hall1]].
    exists (added1 ++ added2). rewrite Heq2, Heq1, <- app_assoc.
    split; [reflexivity|]. apply Forall_app. auto.
Qed.

(** C10, amended.  The first block that [split_code_and_text_blocks]
    returns is a text block with start line 1 whose content, the
    docstring, is not empty; every block after it has a content with at
    least one character that is no whitespace. *)
Theorem blocks_shape (source_file : path)
    (file_conf : gmap (list ascii) literal) (blocks : list block) :
  split_code_and_text_blocks ast_parse decode_utf8 literal_eval fs source_file
    = Ok (file_conf, blocks) ->
  exists docstring others,
    blocks = (text, docstring, 1) :: others
    /\ docstring <> []
    /\ Forall (fun b => nonblank (content_of b) = true) others.
Proof.
  unfold split_code_and_text_blocks.
  destruct (get_docstring_and_rest ast_parse decode_utf8 fs source_file)
    as [[[docstring rest_of_content] lineno]|e] eqn:Hdoc; simpl;
    [|discriminate].
  destruct (extract_file_config literal_eval rest_of_content)
    as [conf'|e]; simpl; [|discriminate].
  destruct (split_loop_adds rest_of_content
              (finditer pattern rest_of_content)
              (SplitState [(text, docstring, 1)] lineno 0))
    as [added [Heq Hall]].
  rewrite Heq. simpl.
  intros Hret. exists docstring.
  destruct (truthy (strip (skipn _ rest_of_content))) eqn:Hrem;
    injection Hret as _ <-.
  - eexists. split; [reflexivity|].
    split; [eapply docstring_not_empty; eassumption|].
    apply Forall_app. split; [exact Hall|].
    repeat constructor. simpl. rewrite <- truthy_strip. exact Hrem.
  - exists added. split; [reflexivity|].
    split; [eapply docstring_not_empty; eassumption|exact Hall].
Qed.

(** Once the loop of [extract_file_config] holds an exception it keeps
    it. *)
Lemma config_loop_raise (content : str) (ms : list match_obj) (e : exn) :
  fold_left (config_step literal_eval content) ms (Raise e) = Raise e.
Proof. induction ms as [|m ms IH]; simpl; [reflexivity|exact IH]. Qed.

(** X6.  A directive whose value [ast.literal_eval] rejects with
    [SyntaxError] or [ValueError] ends [extract_file_config] with the
    [NameError] of the name [logger], unless the evaluation of an earlier
    directive raised another exception. *)
Lemma invalid_directive_raises (content : str) :
  Exists (fun m => literal_eval (group content m "2") = EvalSyntaxError
                   \/ literal_eval (group content m "2") = EvalValueError)
         (finditer prop_pat content) ->
  Forall (fun m => forall e, literal_eval (group content m "2") <> EvalRaises e)
         (finditer prop_pat content) ->
  extract_file_config literal_eval content = Raise (NameError "logger").
Proof.
  unfold extract_file_config.
  change (mret ∅) with (Ok (∅ : gmap (list ascii) literal)).
  generalize (∅ : gmap (list ascii) literal).
  induction (finditer prop_pat content) as [|m ms IH];
    intros file_conf Hex Hall.
  - inversion Hex.
  - inversion Hall as [|? ? Hm Hms]; subst.
    cbn [fold_left].
    assert (Hstep :
      config_step literal_eval content (Ok file_conf) m
      = match literal_eval (group content m "2") with
        | Evaluated v => Ok (<[group content m "1" := v]> file_conf)
        | EvalSyntaxError | EvalValueError => Raise (NameError "logger")
        | EvalRaises e => Raise e
        end).
    { unfold config_step. simpl.
      destruct (literal_eval (group content m "2")); reflexivity. }
    rewrite Hstep.
    destruct (literal_eval (group content m "2")) as [v| | |e] eqn:Hval.
    + apply IH; [|exact Hms].
      inversion Hex as [? ? [Hbad|Hbad]|]; subst; congruence || assumption.
    + apply config_loop_raise.
    + apply config_loop_raise.
    + exfalso. exact (Hm e eq_refl).
Qed.

End ParserFacts.

(** ** The properties on concrete files *)

Section Concrete.

Import Re SourceParser GenRst Spec Examples.



(** C2.  On a file with the directive
    [# sphinx_galleria_thumbnail_number = 'abc], whose value is an
    unterminated string, the warning is never emitted: the name [logger]
    is not bound in the module, [extract_file_config] raises [NameError]
    and so does [split_code_and_text_blocks]. *)
Theorem invalid_directive_name_error :
  let content :=
    lines [ "# sphinx_galleria_thumbnail_number = 'abc"; "x = 1"; "" ] in
  map (fun m => (group content m "1", group content m "2"))
      (finditer prop_pat content)
    = [(py "thumbnail_number", py "'abc")]
  /\ literal_eval (py "'abc") = EvalSyntaxError
  /\ extract_file_config literal_eval content = Raise (NameError "logger")
  /\ split_code_and_text_blocks ast_parse decode_utf8 literal_eval
       (files (process_ (py "bad.py") bad_config_py))
       (py "/doc/examples/bad.py")
     = Raise (NameError "logger").
Proof. repeat split; vm_compute; reflexivity. Qed.

(** C4.  A source with a docstring of two paragraphs, code and a
    trailing section header with one comment line, whose last line has
    no newline, gives four blocks: the comment line is cut after its last
    blank, and what follows becomes a code block. *)
Theorem unterminated_comment_line_split :
  exists file_conf,
    split_code_and_text_blocks ast_parse decode_utf8 literal_eval
      (files (process_ (py "narrative.py") narrative_py))
      (py "/doc/examples/narrative.py")
    = Ok (file_conf,
          [ (text, lines ["Title"; "====="; ""; "Intro text"], 1);
            (code, py "x = 1" ++ nl, 5);
            (text, py "Some ", 7);
            (code, py "text", 7) ]).
Proof. eexists. vm_compute. reflexivity. Qed.

(** With the final newline the same source gives the three blocks. *)
Lemma terminated_comment_line :
  exists file_conf,
    split_code_and_text_blocks ast_parse decode_utf8 literal_eval
      (files (process_ (py "narrative.py") narrative_nl_py))
      (py "/doc/examples/narrative.py")
    = Ok (file_conf,
          [ (text, lines ["Title"; "====="; ""; "Intro text"], 1);
            (code, py "x = 1" ++ nl, 5);
            (text, py "Some text" ++ nl, 7) ]).
Proof. eexists. vm_compute. reflexivity. Qed.

(** C6.  Two blocks of one file: the first leaves figure 2 open and no
    other, the second opens one figure.  Both figures are saved to the
    path numbered 002: the document of each block refers to it, the file
    holds the figure of the second block, and no file is numbered 001. *)
Theorem figure_path_reused :
  let image_path := py "/doc/auto/images/sphx_glr_plot_{0:03}.png" in
  let numbered_002 := py "/doc/auto/images/sphx_glr_plot_002.png" in
  let numbered_001 := py "/doc/auto/images/sphx_glr_plot_001.png" in
  let run :=
    call_all host_ (conf_ false)
      [(py "plt.figure(2)" ++ nl, 2); (py "plt.figure()" ++ nl, 5)]
      (state_ (py "plot.py") plot_py) in
  fst (save_matplotlib image_path 0 [(2, Picture 640 480 2)] [] ∅)
    = [numbered_002]
  /\ fst (save_matplotlib image_path (0 + 1) [(1, Picture 640 480 5)] [] ∅)
     = [numbered_002]
  /\ map (fun r => match r with
                   | Ok (code_output, _) =>
                     contains (py "/auto/images/sphx_glr_plot_002.png")
                              code_output
                   | Raise _ => false
                   end) (fst run) = [true; true]
  /\ fig_count (vars (snd run)) = 2
  /\ files (proc (snd run)) !! numbered_002 = Some (Image (Picture 640 480 5))
  /\ files (proc (snd run)) !! numbered_001 = None.
Proof. repeat split; vm_compute; reflexivity. Qed.

(** C5, as stated, fails on files that are no UTF-8 text.  A file with
    the byte 0xFF in a string literal does not parse, and
    [get_docstring_and_rest] raises [UnicodeDecodeError] where the
    synthetic docstring is expected; a file in Latin-1 that declares its
    encoding parses and has a docstring, and the same exception is
    raised. *)
Lemma undecodable_source_raises :
  ast_parse (normalized invalid_utf8_py) = ParseSyntaxError
  /\ get_docstring_and_rest ast_parse decode_utf8 sources_
       (py "/doc/examples/invalid.py") = Raise UnicodeDecodeError
  /\ (exists node,
        ast_parse (normalized latin1_py) = Parsed node
        /\ has_docstring node = true)
  /\ get_docstring_and_rest ast_parse decode_utf8 sources_
       (py "/doc/examples/latin1.py") = Raise UnicodeDecodeError.
Proof.
  split; [vm_compute; reflexivity|].
  split; [vm_compute; reflexivity|].
  split; [|vm_compute; reflexivity].
  eexists. split; vm_compute; reflexivity.
Qed.

Lemma docstring_required_witness :
  sources_ !! py "/doc/examples/nodoc.py" = Some (Bytes no_doc_py)
  /\ sources_ !! py "/doc/examples/broken.py" = Some (Bytes broken_py)
  /\ get_docstring_and_rest ast_parse decode_utf8 sources_
       (py "/doc/examples/nodoc.py")
     = Raise (missing_docstring (py "/doc/examples/nodoc.py"))
  /\ get_docstring_and_rest ast_parse decode_utf8 sources_
       (py "/doc/examples/broken.py")
     = Ok (SYNTAX_ERROR_DOCSTRING, broken_py, 1).
Proof.
  assert (H1 : sources_ !! py "/doc/examples/nodoc.py" = Some (Bytes no_doc_py))
    by (vm_compute; reflexivity).
  assert (H2 : sources_ !! py "/doc/examples/broken.py"
               = Some (Bytes broken_py)) by (vm_compute; reflexivity).
  split; [exact H1|]. split; [exact H2|]. split.
  - apply (proj1 (docstring_required ast_parse decode_utf8 sources_ _ _ H1)).
    right. right. exists (Module_ [OtherStmt]), no_doc_py.
    repeat split; vm_compute; reflexivity.
  - apply (proj2 (docstring_required ast_parse decode_utf8 sources_ _ _ H2));
      vm_compute; reflexivity.
Defined.

Lemma scale_image_in_place_witness :
  pictures_ !! thumb_png = Some (Image picture_)
  /\ exists fs1,
       scale_image thumb_png thumb_png 400 280 pictures_ = Ok fs1
       /\ (fs1 = pictures_
           \/ exists width_sc height_sc x y,
                fs1 = <[thumb_png := Image (Canvas 400 280
                                              (Resized picture_ width_sc height_sc)
                                              x y)]> pictures_
                /\ (width_sc <= 800)%Z /\ (height_sc <= 600)%Z)
       /\ scale_image thumb_png thumb_png 400 280 fs1 = Ok fs1.
Proof.
  assert (Hfile : pictures_ !! thumb_png = Some (Image picture_))
    by (vm_compute; reflexivity).
  split; [exact Hfile|].
  apply (proj2 (scale_image_in_place pictures_ thumb_png 400 280 picture_
                  Hfile ltac:(simpl; lia) ltac:(simpl; lia)
                  ltac:(lia) ltac:(lia))).
Defined.

(** C10, as stated, fails on a file whose docstring is one space: the
    first block that is returned holds no character other than
    whitespace. *)
Lemma blank_docstring_block :
  exists file_conf blocks,
    split_code_and_text_blocks ast_parse decode_utf8 literal_eval
      (files (process_ (py "blank.py") blank_doc_py))
      (py "/doc/examples/blank.py")
    = Ok (file_conf, blocks)
    /\ ~ Forall (fun b => nonblank (content_of b) = true) blocks.
Proof.
  eexists. eexists. split; [vm_compute; reflexivity|].
  intros Hall. inversion Hall as [|? ? Hfirst _]. vm_compute in Hfirst.
  discriminate.
Qed.

Lemma blocks_shape_witness :
  exists file_conf blocks,
    split_code_and_text_blocks ast_parse decode_utf8 literal_eval
      (files (process_ (py "blank.py") blank_doc_py))
      (py "/doc/examples/blank.py")
    = Ok (file_conf, blocks)
    /\ exists docstring others,
         blocks = (text, docstring, 1) :: others
         /\ docstring <> []
         /\ Forall (fun b => nonblank (content_of b) = true) others.
Proof.
  eexists. eexists.
  assert (Hsplit :
    split_code_and_text_blocks ast_parse decode_utf8 literal_eval
      (files (process_ (py "blank.py") blank_doc_py))
      (py "/doc/examples/blank.py")
    = Ok (∅, [(text, [SPACE], 1); (code, py "x = 1" ++ nl, 2)]))
    by (vm_compute; reflexivity).
  split; [exact Hsplit|].
  exact (blocks_shape ast_parse decode_utf8 literal_eval _ _ _ _ Hsplit).
Defined.

End Concrete.

(** * Further properties of the parser and of the engine *)

(** ** The blocks of a source of several sections *)

Section LayoutFacts.

Import Re SourceParser Spec Layout.

Lemma at_bol_rest (pre s s' : str) :
  at_bol (cursor_at pre s) = at_bol (cursor_at pre s').
Proof. reflexivity. Qed.

Lemma comment_lines_then (k : cont) (bodies : list str) :
  forall (pre s : str) (caps : captures) (fuel : nat) (r : cursor * captures),
    Forall (fun body => forallb dot body = true) bodies ->
    length bodies <= fuel ->
    at_bol (cursor_at pre []) = true ->
    startswith [chr 35] s = false ->
    k (cursor_at (pre ++ comment_lines bodies) s) caps = Some r ->
    star_loop fuel (run comment_line_re) k
              (cursor_at pre (comment_lines bodies ++ s)) caps = Some r.
Proof.
  induction bodies as [|body bodies IH];
    intros pre s caps fuel r Hbodies Hfuel Hbol Hs Hk.
  - change (comment_lines []) with (@nil ascii) in *.
    rewrite app_nil_r in Hk. cbn [app].
    destruct fuel as [|fuel]; [exact Hk|].
    cbn [star_loop]. rewrite run_comment_line.
    rewrite (at_bol_rest pre s []), Hbol.
    destruct s as [|a s].
    + rewrite run_cls_end. exact Hk.
    + rewrite run_cls. cbn [startswith] in Hs.
      rewrite andb_true_r in Hs. unfold hash. rewrite eqc_sym, Hs.
      exact Hk.
  - inversion Hbodies as [|? ? Hbody Hrest]; subst.
    destruct fuel as [|fuel]; [simpl in Hfuel; lia|].
    rewrite comment_lines_cons in *. cbn [app]. rewrite <- app_assoc.
    cbn [app].
    cbn [star_loop]. rewrite run_comment_line.
    rewrite (at_bol_rest pre _ []), Hbol, run_cls.
    change (hash (chr 35)) with true. cbn iota.
    rewrite (run_star_cls dot _ body (pre ++ [chr 35])
               (NL :: comment_lines bodies ++ s) caps r); auto.
    rewrite run_cls. change (space NL) with true. cbn iota.
    assert (Hidx :
      (c_idx (cursor_at (((pre ++ [chr 35]) ++ body) ++ [NL])
                        (comment_lines bodies ++ s))
       =? c_idx (cursor_at pre
                   (chr 35 :: body ++ NL :: comment_lines bodies ++ s)))
      = false).
    { apply Nat.eqb_neq. unfold cursor_at. simpl. rewrite !length_app.
      simpl. lia. }
    rewrite Hidx.
    apply IH; auto.
    + simpl in Hfuel. lia.
    + apply at_bol_after_newline.
    + rewrite <- Hk. f_equal. f_equal.
      rewrite <- !app_assoc. reflexivity.
Qed.

(** The match at a header line with its comment lines, before a text
    that does not continue the comment lines. *)
Lemma header_match_then (pre tail : str) (bodies : list str) (s : str) :
  at_bol (cursor_at pre []) = true ->
  forallb dot tail = true ->
  Forall (fun body => forallb dot body = true) bodies ->
  startswith [chr 35] s = false ->
  let header := hashes20 ++ tail in
  let comments := comment_lines bodies in
  match_at pattern (cursor_at pre ((header ++ NL :: comments) ++ s))
    = Some (Match (length pre)
                  (length (pre ++ header ++ NL :: comments))
                  [("text_content"%string,
                    (length (pre ++ header ++ [NL]),
                     length (pre ++ header ++ NL :: comments)));
                   ("header_line"%string,
                    (length pre, length (pre ++ header)))]).
Proof.
  intros Hbol Htail Hbodies Hs header comments.
  unfold match_at. rewrite run_pattern.
  rewrite (at_bol_rest pre _ []), Hbol.
  subst header. rewrite <- !app_assoc. cbn [app].
  unfold hashes20 at 1. rewrite rep_hash_ok, run_star.
  set (pre1 := pre ++ repeat (chr 35) 20).
  set (c3 := cursor_at (((pre1 ++ tail) ++ [NL]) ++ comments) s).
  set (R := (c3, [("text_content"%string,
                   (length ((pre1 ++ tail) ++ [NL]), c_idx c3));
                  ("header_line"%string, (length pre, length (pre1 ++ tail)))])).
  rewrite (star_hash_dot _ tail pre1 (comments ++ s) [] _ R).
  - unfold R, c3, pre1, cursor_at, hashes20. cbn [c_idx].
    rewrite <- !app_assoc. reflexivity.
  - exact Htail.
  - cbn [c_rest cursor_at]. rewrite length_app. cbn [length]. lia.
  - cbn beta. rewrite run_cls. change (space NL) with true. cbn iota.
    rewrite run_star.
    apply comment_lines_then.
    + exact Hbodies.
    + cbn [c_rest cursor_at]. pose proof (comment_lines_length bodies) as Hlen.
      fold comments in Hlen. rewrite length_app. lia.
    + apply at_bol_after_newline.
    + exact Hs.
    + reflexivity.
Qed.


Lemma forallb_Forall {A} (f : A -> bool) (l : list A) :
  forallb f l = true -> Forall (fun x => f x = true) l.
Proof.
  induction l as [|x l IH]; cbn [forallb]; intros Hl; constructor.
  - apply andb_true_iff in Hl. apply Hl.
  - apply IH. apply andb_true_iff in Hl. apply Hl.
Qed.

Lemma slice_middle (a b c : str) :
  slice (length a) (length (a ++ b)) (a ++ b ++ c) = b.
Proof.
  unfold slice. rewrite drop_app_length, length_app.
  replace (length a + length b - length a) with (length b) by lia.
  apply take_app_length.
Qed.

Lemma count_comment_lines (bodies : list str) :
  Forall (fun body => forallb dot body = true) bodies ->
  count NL (comment_lines bodies) = length bodies.
Proof.
  induction 1 as [|body bodies Hbody _ IH]; [reflexivity|].
  rewrite comment_lines_cons. cbn [length count].
  change (eqc (chr 35) NL) with false. cbn [Nat.add]. rewrite <- IH. clear IH.
  induction body as [|a body IHb].
  - cbn [app count]. rewrite eqc_refl. reflexivity.
  - cbn [forallb] in Hbody. apply andb_true_iff in Hbody.
    destruct Hbody as [Ha Hbody]. cbn [app count].
    unfold dot in Ha. apply negb_true_iff in Ha. rewrite Ha.
    apply IHb. exact Hbody.
Qed.

Lemma comment_lines_app (bodies1 bodies2 : list str) :
  comment_lines (bodies1 ++ bodies2)
  = comment_lines bodies1 ++ comment_lines bodies2.
Proof. unfold comment_lines. rewrite map_app, concat_app. reflexivity. Qed.

(** A header with its comment lines ends with a newline. *)
Lemma at_bol_head_of (pre : str) (s : headed) (rest : str) :
  at_bol (cursor_at (pre ++ head_of s) rest) = true.
Proof.
  unfold head_of.
  destruct (h_bodies s) as [|body bodies] using rev_ind.
  - change (comment_lines []) with (@nil ascii).
    replace (pre ++ (hashes20 ++ h_tail s) ++ [NL])
      with ((pre ++ hashes20 ++ h_tail s) ++ [NL])
      by (rewrite <- !app_assoc; reflexivity).
    apply at_bol_after_newline.
  - rewrite comment_lines_app, comment_lines_cons.
    change (comment_lines []) with (@nil ascii).
    replace (pre ++ (hashes20 ++ h_tail s)
             ++ NL :: comment_lines bodies ++ chr 35 :: body ++ [NL])
      with ((pre ++ (hashes20 ++ h_tail s)
             ++ NL :: comment_lines bodies ++ chr 35 :: body) ++ [NL]).
    + apply at_bol_after_newline.
    + rewrite <- !app_assoc. cbn [app]. rewrite <- !app_assoc.
      cbn [app]. reflexivity.
Qed.

Lemma split_step_header (whole : str) (st : split_state)
    (code_end text_start text_end : nat) (span : nat * nat) :
  split_step whole st
    (Match code_end text_end
       [("text_content"%string, (text_start, text_end));
        ("header_line"%string, span)])
  = SplitState
      ((st_blocks st
        ++ (if truthy (strip (slice (st_pos_so_far st) code_end whole))
            then [(code, slice (st_pos_so_far st) code_end whole,
                   st_lineno st)]
            else []))
       ++ (if truthy (strip (lstrip (Textwrap.dedent
                (sub sub_pat [] (slice text_start text_end whole)))))
           then [(text,
                  lstrip (Textwrap.dedent
                    (sub sub_pat [] (slice text_start text_end whole))),
                  st_lineno st
                  + count NL (slice (st_pos_so_far st) code_end whole) + 1)]
           else []))
      (st_lineno st + count NL (slice (st_pos_so_far st) code_end whole) + 1
       + count NL (slice text_start text_end whole))
      text_end.
Proof.
  unfold split_step, group.
  cbn [m_start m_end m_groups lookup_group]. rewrite String.eqb_refl.
  destruct (truthy (strip (slice (st_pos_so_far st) code_end whole)));
    destruct (truthy (strip (lstrip _))); rewrite ?app_nil_r; reflexivity.
Qed.

Lemma terminated_length (ls : list str) :
  length ls <= length (terminated ls).
Proof.
  induction ls as [|l ls IH]; [apply Nat.le_refl|].
  rewrite terminated_cons, length_app. cbn [length]. lia.
Qed.

Lemma startswith_app_hash (a b : str) :
  startswith [chr 35] a = false ->
  0 < length a \/ b = [] ->
  startswith [chr 35] (a ++ b) = false.
Proof.
  intros Ha [Hlen | ->]; [|rewrite app_nil_r; exact Ha].
  destruct a as [|x a]; [cbn in Hlen; lia|exact Ha].
Qed.

Lemma render_cons (code_lines : list str) (s : headed)
    (rest : list headed) :
  render code_lines (s :: rest)
  = terminated code_lines ++ head_of s ++ render (h_code s) rest.
Proof.
  unfold render, render_section. cbn [map concat].
  rewrite <- !app_assoc. reflexivity.
Qed.

Lemma at_bol_terminated_app (pre : str) (ls : list str) (s : str) :
  at_bol (cursor_at pre []) = true ->
  at_bol (cursor_at (pre ++ terminated ls) s) = true.
Proof.
  intros Hbol. induction ls as [|l ls _] using rev_ind.
  - change (terminated []) with (@nil ascii). rewrite app_nil_r. exact Hbol.
  - unfold terminated. rewrite map_app, concat_app. cbn [map concat].
    rewrite app_nil_r, !app_assoc. apply at_bol_after_newline.
Qed.

(** The scan of [finditer] over lines of code and the section after
    them. *)
Lemma finditer_section (code_lines : list str) (s : headed)
    (after pre : str) (fuel : nat) :
  Forall (fun l => plain_line l = true) code_lines ->
  at_bol (cursor_at pre []) = true ->
  forallb dot (h_tail s) = true ->
  Forall (fun body => forallb dot body = true) (h_bodies s) ->
  startswith [chr 35] after = false ->
  length (terminated code_lines ++ head_of s ++ after) < fuel ->
  finditer_from fuel pattern
    (cursor_at pre (terminated code_lines ++ head_of s ++ after))
  = Match (length (pre ++ terminated code_lines))
          (length ((pre ++ terminated code_lines) ++ head_of s))
          [("text_content"%string,
            (length ((pre ++ terminated code_lines)
                     ++ (hashes20 ++ h_tail s) ++ [NL]),
             length ((pre ++ terminated code_lines) ++ head_of s)));
           ("header_line"%string,
            (length (pre ++ terminated code_lines),
             length ((pre ++ terminated code_lines)
                     ++ hashes20 ++ h_tail s)))]
    :: finditer_from (fuel - length (terminated code_lines) - 1) pattern
         (cursor_at ((pre ++ terminated code_lines) ++ head_of s) after).
Proof.
  intros Hcode Hbol Htail Hbodies Hafter Hfuel.
  rewrite !length_app in Hfuel.
  assert (Hhead : 0 < length (head_of s)).
  { unfold head_of. rewrite length_app. cbn [length]. lia. }
  replace fuel
    with (length (terminated code_lines)
          + S (fuel - length (terminated code_lines) - 1)) at 1 by lia.
  rewrite (scan_lines code_lines pre (head_of s ++ after) _ Hcode Hbol).
  pose proof (header_match_then (pre ++ terminated code_lines) (h_tail s)
                (h_bodies s) after
                (at_bol_terminated_app pre code_lines [] Hbol)
                Htail Hbodies Hafter) as Hmatch.
  cbv zeta in Hmatch. fold (head_of s) in Hmatch.
  rewrite (finditer_hit _ _ _ _ Hmatch).
  - cbn [m_start m_end].
    replace (length ((pre ++ terminated code_lines) ++ head_of s)
             - length (pre ++ terminated code_lines))
      with (length (head_of s))
      by (rewrite (length_app (pre ++ terminated code_lines)); lia).
    rewrite (advance_cursor_at (head_of s) (pre ++ terminated code_lines)
               after).
    reflexivity.
  - cbn [m_start m_end]. apply Nat.eqb_neq.
    rewrite (length_app (pre ++ terminated code_lines)). lia.
Qed.

Lemma split_sections (sections : list headed) :
  forall (code_lines : list str) (pre : str) (fuel : nat) (st : split_state),
    Forall (fun l => plain_line l = true) code_lines ->
    sections_ok sections = true ->
    at_bol (cursor_at pre []) = true ->
    st_pos_so_far st = length pre ->
    length (render code_lines sections) < fuel ->
    exists st',
      fold_left (split_step (pre ++ render code_lines sections))
        (finditer_from fuel pattern
           (cursor_at pre (render code_lines sections))) st = st'
      /\ (if truthy (strip (skipn (st_pos_so_far st')
                              (pre ++ render code_lines sections)))
          then st_blocks st'
               ++ [(code, skipn (st_pos_so_far st')
                            (pre ++ render code_lines sections),
                    st_lineno st')]
          else st_blocks st')
         = st_blocks st ++ blocks_from code_lines sections (st_lineno st).
Proof.
  induction sections as [|s rest IH];
    intros code_lines pre fuel st Hcode Hok Hbol Hpos Hfuel.
  - unfold render in *. cbn [map concat] in *. rewrite app_nil_r in *.
    exists st. split.
    + replace fuel
        with (length (terminated code_lines)
              + (fuel - length (terminated code_lines))) by lia.
      pose proof (scan_lines code_lines pre []
                    (fuel - length (terminated code_lines)) Hcode Hbol)
        as Hscan.
      rewrite app_nil_r in Hscan. rewrite Hscan, finditer_at_end.
      reflexivity.
    + rewrite Hpos, drop_app_length. cbn [blocks_from]. unfold code_block.
      rewrite truthy_strip.
      destruct (nonblank (terminated code_lines));
        rewrite ?app_nil_r; reflexivity.
  - cbn [sections_ok] in Hok.
    apply andb_true_iff in Hok. destruct Hok as [Hok Hrest].
    apply andb_true_iff in Hok. destruct Hok as [Hs Hnext].
    unfold section_ok in Hs.
    apply andb_true_iff in Hs. destruct Hs as [Hs Hhash].
    apply andb_true_iff in Hs. destruct Hs as [Hs Hplain].
    apply andb_true_iff in Hs. destruct Hs as [Htail Hbodies].
    apply negb_true_iff in Hhash.
    apply forallb_Forall in Hbodies. apply forallb_Forall in Hplain.
    assert (Hafter : startswith [chr 35] (render (h_code s) rest) = false).
    { unfold render. apply startswith_app_hash; [exact Hhash|].
      destruct rest as [|s' rest']; [right; reflexivity|left].
      apply Nat.ltb_lt in Hnext.
      pose proof (terminated_length (h_code s)). lia. }
    rewrite render_cons in *.
    rewrite (finditer_section code_lines s (render (h_code s) rest) pre fuel
               Hcode Hbol Htail Hbodies Hafter Hfuel).
    cbn [fold_left]. rewrite split_step_header.
    (* the step of the loop *)
    assert (Hcodes :
      slice (st_pos_so_far st) (length (pre ++ terminated code_lines))
            (pre ++ terminated code_lines ++ head_of s
             ++ render (h_code s) rest)
      = terminated code_lines).
    { rewrite Hpos. apply slice_middle. }
    assert (Hcomments :
      slice (length ((pre ++ terminated code_lines)
                     ++ (hashes20 ++ h_tail s) ++ [NL]))
            (length ((pre ++ terminated code_lines) ++ head_of s))
            (pre ++ terminated code_lines ++ head_of s
             ++ render (h_code s) rest)
      = comment_lines (h_bodies s)).
    { replace ((pre ++ terminated code_lines) ++ head_of s)
        with (((pre ++ terminated code_lines) ++ (hashes20 ++ h_tail s) ++ [NL])
              ++ comment_lines (h_bodies s))
        by (unfold head_of; rewrite <- !app_assoc; reflexivity).
      replace (pre ++ terminated code_lines ++ head_of s
               ++ render (h_code s) rest)
        with (((pre ++ terminated code_lines) ++ (hashes20 ++ h_tail s) ++ [NL])
              ++ comment_lines (h_bodies s) ++ render (h_code s) rest)
        by (unfold head_of; rewrite <- !app_assoc; reflexivity).
      apply slice_middle. }
    rewrite Hcodes, Hcomments.
    rewrite (count_terminated code_lines Hcode).
    rewrite (count_comment_lines _ Hbodies).
    (* the rest of the sections *)
    match goal with
    | |- context [fold_left _ _ ?st1] =>
      destruct (IH (h_code s) ((pre ++ terminated code_lines) ++ head_of s)
                   (fuel - length (terminated code_lines) - 1) st1)
        as [st' [Hfold Hblocks]]
    end.
    + exact Hplain.
    + exact Hrest.
    + apply at_bol_head_of.
    + reflexivity.
    + rewrite !length_app in Hfuel.
      assert (Hhead : 0 < length (head_of s)).
      { unfold head_of. rewrite length_app. cbn [length]. lia. }
      lia.
    + replace (((pre ++ terminated code_lines) ++ head_of s)
               ++ render (h_code s) rest)
        with (pre ++ terminated code_lines ++ head_of s
              ++ render (h_code s) rest) in Hfold, Hblocks
        by (rewrite <- !app_assoc; reflexivity).
      exists st'. split; [exact Hfold|].
      rewrite Hblocks. cbn [st_blocks st_lineno blocks_from].
      unfold code_block, text_block.
      rewrite !truthy_strip, <- !app_assoc. reflexivity.
Qed.


Section Sections.

Variable ast_parse : str -> parsing.
Variable decode_utf8 : str -> option str.
Variable literal_eval : str -> evaluation.
Variable fs : filesystem.

(** X1.  A source whose rest, after the docstring, is lines of code
    followed by sections, every line with its newline, where a section
    is a header line of at least twenty hashes, comment lines and lines
    of code: [split_code_and_text_blocks] returns the docstring, then for
    the first lines of code and for each section in turn the text of the
    comment lines and the code up to the next header, leaving out the
    blank ones, each with the number of its first line in the file. *)
Theorem sections_blocks (source_file : path) (docstring : str)
    (lineno : nat) (code_lines : list str) (sections : list headed)
    (file_conf : gmap (list ascii) literal) :
  get_docstring_and_rest ast_parse decode_utf8 fs source_file
    = Ok (docstring, render code_lines sections, lineno) ->
  extract_file_config literal_eval (render code_lines sections)
    = Ok file_conf ->
  Forall (fun l => plain_line l = true) code_lines ->
  sections_ok sections = true ->
  split_code_and_text_blocks ast_parse decode_utf8 literal_eval fs source_file
    = Ok (file_conf,
          (text, docstring, 1) :: blocks_from code_lines sections lineno).
Proof.
  intros Hdoc Hconf Hcode Hok.
  unfold split_code_and_text_blocks. rewrite Hdoc.
  unfold mbind at 1. unfold result_bind at 1. cbn iota beta.
  rewrite Hconf.
  unfold mbind at 1. unfold result_bind at 1. cbn iota beta.
  rewrite finditer_unfold.
  destruct (split_sections sections code_lines []
              (S (length (render code_lines sections)))
              (SplitState [(text, docstring, 1)] lineno 0)
              Hcode Hok eq_refl eq_refl (Nat.lt_succ_diag_r _))
    as [st' [Hfold Hblocks]].
  cbn [app] in Hfold, Hblocks. rewrite Hfold.
  cbn [st_blocks st_lineno] in Hblocks. rewrite Hblocks. reflexivity.
Qed.

End Sections.

End LayoutFacts.

(** ** Line numbers and the rest after the docstring *)

Section LineNumbers.

Import Re SourceParser Spec Notions.

Variable ast_parse : str -> parsing.
Variable decode_utf8 : str -> option str.
Variable literal_eval : str -> evaluation.
Variable fs : filesystem.

Lemma chain_weaken (lo lo' : nat) (l : list nat) (hi : nat) :
  lo' <= lo -> chain lo l hi -> chain lo' l hi.
Proof.
  destruct l as [|a l]; simpl; intros Hle Hc.
  - lia.
  - destruct Hc. split; [lia|assumption].
Qed.

Lemma chain_bounds (lo : nat) (l : list nat) (hi : nat) :
  chain lo l hi -> lo <= hi.
Proof.
  revert lo. induction l as [|a l IH]; simpl; intros lo Hc; [exact Hc|].
  destruct Hc as [Hlo Hc]. apply IH in Hc. lia.
Qed.

Lemma chain_app (a b c : nat) (l1 l2 : list nat) :
  chain a l1 b -> chain b l2 c -> chain a (l1 ++ l2) c.
Proof.
  revert a. induction l1 as [|x l1 IH]; simpl; intros a H1 H2.
  - apply chain_weaken with b; assumption.
  - destruct H1 as [Hax H1]. split; [exact Hax|]. apply IH; assumption.
Qed.

Lemma chain_sorted (lo : nat) (l : list nat) (hi : nat) :
  chain lo l hi -> StronglySorted le (lo :: l).
Proof.
  revert lo. induction l as [|a l IH]; intros lo Hc.
  - repeat constructor.
  - destruct Hc as [Hlo Hc]. specialize (IH a Hc).
    constructor.
    + exact IH.
    + inversion IH as [|? ? Hs Hall]; subst.
      constructor; [exact Hlo|].
      eapply Forall_impl; [exact Hall|]. intros x Hx. simpl in Hx. lia.
Qed.

Lemma split_step_chain (rest_of_content : str) (st : split_state)
    (m : match_obj) :
  exists added,
    st_blocks (split_step rest_of_content st m) = st_blocks st ++ added
    /\ chain (st_lineno st) (map lineno_of added)
             (st_lineno (split_step rest_of_content st m)).
Proof.
  unfold split_step. cbn [st_blocks st_lineno].
  set (code_block_content := slice _ _ _).
  set (text_content := group _ _ _).
  set (text_block_content := lstrip _).
  destruct (truthy (strip code_block_content));
    destruct (truthy (strip text_block_content)).
  - eexists [_; _]. rewrite <- app_assoc. split; [reflexivity|].
    cbn. lia.
  - eexists [_]. split; [reflexivity|]. cbn. lia.
  - eexists [_]. split; [reflexivity|]. cbn. lia.
  - exists []. rewrite app_nil_r. split; [reflexivity|]. cbn. lia.
Qed.

Lemma split_loop_chain (rest_of_content : str) (ms : list match_obj)
    (st : split_state) :
  exists added,
    st_blocks (fold_left (split_step rest_of_content) ms st)
      = st_blocks st ++ added
    /\ chain (st_lineno st) (map lineno_of added)
             (st_lineno (fold_left (split_step rest_of_content) ms st)).
Proof.
  revert st. induction ms as [|m ms IH]; intros st; cbn [fold_left].
  - exists []. rewrite app_nil_r. split; [reflexivity|]. cbn. lia.
  - destruct (IH (split_step rest_of_content st m)) as [added2 [Heq2 Hc2]].
    destruct (split_step_chain rest_of_content st m) as [added1 [Heq1 Hc1]].
    exists (added1 ++ added2). rewrite Heq2, Heq1, <- app_assoc.
    split; [reflexivity|]. rewrite map_app.
    eapply chain_app; eassumption.
Qed.

Lemma docstring_lineno (filename : path) (docstring rest : str)
    (lineno : nat) :
  get_docstring_and_rest ast_parse decode_utf8 fs filename = Ok (docstring, rest, lineno) ->
  1 <= lineno.
Proof.
  unfold get_docstring_and_rest. intros Heq.
  destruct (parse_source_file ast_parse decode_utf8 fs filename)
    as [[node content]|e]; simpl in Heq; [|discriminate Heq].
  destruct node as [node|].
  - destruct (body node) as [|[[s|] ln|] stmts]; simpl in Heq;
      try discriminate Heq.
    destruct (truthy s); simpl in Heq; [|discriminate Heq].
    injection Heq as _ _ <-. lia.
  - injection Heq as _ _ <-. lia.
Qed.

(** X2.  The start lines of the blocks that [split_code_and_text_blocks]
    returns never decrease along the list, and none is below 1. *)
Theorem start_lines_sorted (source_file : path)
    (file_conf : gmap (list ascii) literal) (blocks : list block) :
  split_code_and_text_blocks ast_parse decode_utf8 literal_eval fs source_file
    = Ok (file_conf, blocks) ->
  StronglySorted le (map lineno_of blocks)
  /\ Forall (fun b => 1 <= lineno_of b) blocks.
Proof.
  unfold split_code_and_text_blocks.
  destruct (get_docstring_and_rest ast_parse decode_utf8 fs source_file)
    as [[[docstring rest_of_content] lineno]|e] eqn:Hdoc; simpl;
    [|discriminate].
  destruct (extract_file_config literal_eval rest_of_content)
    as [conf'|e]; simpl; [|discriminate].
  destruct (split_loop_chain rest_of_content
              (finditer pattern rest_of_content)
              (SplitState [(text, docstring, 1)] lineno 0))
    as [added [Heq Hc]].
  rewrite Heq. cbn [st_blocks st_lineno] in *.
  set (st := fold_left _ _ _) in *.
  apply docstring_lineno in Hdoc.
  assert (Hall :
    chain 1 (map lineno_of
               (added ++ if truthy (strip (skipn (st_pos_so_far st)
                                             rest_of_content))
                         then [(code, skipn (st_pos_so_far st) rest_of_content,
                                st_lineno st)]
                         else []))
          (st_lineno st)).
  { rewrite map_app. apply chain_app with (st_lineno st).
    - apply chain_weaken with lineno; assumption.
    - destruct (truthy _); cbn; lia. }
  intros Hret.
  assert (Hblocks : blocks = (text, docstring, 1)
            :: (added ++ if truthy (strip (skipn (st_pos_so_far st)
                                             rest_of_content))
                         then [(code, skipn (st_pos_so_far st) rest_of_content,
                                st_lineno st)]
                         else [])).
  { destruct (truthy _); injection Hret as _ <-; cbn [app];
      rewrite ?app_nil_r; reflexivity. }
  rewrite Hblocks. clear Hret Hblocks. cbn [map].
  apply chain_sorted in Hall. split; [exact Hall|].
  inversion Hall as [|? ? _ Hfirst]; subst.
  constructor; [cbn; lia|].
  rewrite Forall_map in Hfirst. exact Hfirst.
Qed.



Lemma find_newline (l r : str) :
  forallb dot l = true -> find nl (l ++ NL :: r) = Some (length l).
Proof.
  induction l as [|c l IH]; intros Hl.
  - cbn [app find nl startswith length]. rewrite eqc_refl. reflexivity.
  - cbn [forallb] in Hl. apply andb_prop in Hl. destruct Hl as [Hc Hl].
    cbn [app find nl startswith length].
    unfold dot in Hc. rewrite (eqc_sym NL c).
    destruct (eqc c NL); [discriminate Hc|].
    cbn [andb]. rewrite (IH Hl). reflexivity.
Qed.

Lemma find_no_newline (l : str) :
  forallb dot l = true -> find nl l = None.
Proof.
  induction l as [|c l IH]; intros Hl.
  - reflexivity.
  - cbn [forallb] in Hl. apply andb_prop in Hl. destruct Hl as [Hc Hl].
    cbn [find nl startswith].
    unfold dot in Hc. rewrite (eqc_sym NL c).
    destruct (eqc c NL); [discriminate Hc|].
    cbn [andb]. rewrite (IH Hl). reflexivity.
Qed.

Lemma first_line (s : str) (k : nat) :
  count NL s = S k ->
  exists l s', s = l ++ NL :: s' /\ forallb dot l = true /\ count NL s' = k.
Proof.
  induction s as [|c s IH]; cbn [count]; intros Hk; [discriminate Hk|].
  destruct (eqc c NL) eqn:Hc.
  - apply eqc_true in Hc. subst c. exists [], s.
    split; [reflexivity|]. split; [reflexivity|]. lia.
  - destruct (IH Hk) as [l [s' [-> [Hl Hs']]]].
    exists (c :: l), s'. split; [reflexivity|]. split; [|exact Hs'].
    cbn [forallb]. unfold dot at 1. rewrite Hc. exact Hl.
Qed.

Lemma no_newline (s : str) : count NL s = 0 -> forallb dot s = true.
Proof.
  induction s as [|c s IH]; cbn [count forallb]; intros Hk; [reflexivity|].
  unfold dot at 1. destruct (eqc c NL); [discriminate Hk|].
  apply IH. exact Hk.
Qed.

Lemma split_fuel_nonempty (fuel : nat) (sep : str) (maxsplit : option nat)
    (s : str) :
  split_fuel fuel sep maxsplit s <> [].
Proof.
  destruct fuel as [|fuel]; cbn [split_fuel]; [discriminate|].
  destruct maxsplit as [[|n]|]; try discriminate;
    destruct (find sep s); discriminate.
Qed.

Lemma last_part_cons (x : str) (parts : list str) :
  parts <> [] -> last_part (x :: parts) = last_part parts.
Proof.
  unfold last_part. destruct parts as [|y parts]; [congruence|reflexivity].
Qed.

Lemma skipn_line (l r : str) : skipn (length l + length nl) (l ++ NL :: r) = r.
Proof.
  replace (l ++ NL :: r) with ((l ++ nl) ++ r)
    by (rewrite <- app_assoc; reflexivity).
  replace (length l + length nl) with (length (l ++ nl))
    by (rewrite length_app; reflexivity).
  rewrite drop_app_length. reflexivity.
Qed.

(** After [n] newlines in [before], the split at no more than [n + 1]
    newlines ends with what follows the newline after [before]. *)
Lemma split_after_newlines (n : nat) :
  forall (fuel : nat) (before after : str),
    count NL before = n ->
    last_part (split_fuel fuel nl (Some (S n)) (before ++ NL :: after))
    = after \/ fuel <= n.
Proof.
  induction n as [|n IH]; intros fuel before after Hn.
  - destruct fuel as [|fuel]; [right; lia|]. left.
    cbn [split_fuel]. rewrite (find_newline _ _ (no_newline _ Hn)).
    rewrite skipn_line. cbn [option_map Nat.pred].
    destruct fuel; reflexivity.
  - destruct fuel as [|fuel]; [right; lia|].
    destruct (first_line _ _ Hn) as [l [before' [-> [Hl Hn']]]].
    cbn [split_fuel]. rewrite <- app_assoc. cbn [app].
    rewrite (find_newline _ _ Hl), skipn_line. cbn [option_map Nat.pred].
    rewrite last_part_cons by apply split_fuel_nonempty.
    destruct (IH fuel before' after Hn') as [Heq|Hfuel];
      [left; exact Heq|right; lia].
Qed.

Lemma count_le_length (c : ascii) (s : str) : count c s <= length s.
Proof.
  induction s as [|x s IH]; cbn [count length]; [lia|].
  destruct (eqc x c); lia.
Qed.

Lemma count_app (c : ascii) (a b : str) :
  count c (a ++ b) = count c a + count c b.
Proof.
  induction a as [|x a IH]; cbn [app count]; [reflexivity|].
  rewrite IH. lia.
Qed.

Lemma rest_after_newlines (lineno : nat) (before after : str) :
  count NL before + 1 = lineno ->
  last_part (split nl (Some lineno) (before ++ NL :: after)) = after.
Proof.
  intros Hn. unfold split.
  replace lineno with (S (count NL before)) by lia.
  destruct (split_after_newlines (count NL before)
              (S (length (before ++ NL :: after))) before after eq_refl)
    as [Heq|Hfuel]; [exact Heq|].
  exfalso. pose proof (count_le_length NL before) as Hle.
  rewrite length_app in Hfuel. cbn [length] in Hfuel. lia.
Qed.

(** X3.  For a file whose bytes parse and are UTF-8 text, with a
    docstring to which the syntax tree gives the line [lineno]
    ([docstring_node.lineno]): when the text has a newline that ends its
    line [lineno], the rest that [get_docstring_and_rest] returns is the
    text after that newline, and the line number returned is
    [lineno + 1]. *)
Theorem docstring_rest (filename : path) (raw chars : str)
    (node : ast_Module) (docstring : str) (lineno : nat)
    (stmts : list ast_stmt) (before after : str) :
  fs !! filename = Some (Bytes raw) ->
  ast_parse (normalized raw) = Parsed node ->
  decode_utf8 (normalized raw) = Some chars ->
  body node = Expr (Str docstring) lineno :: stmts ->
  docstring <> [] ->
  chars = before ++ NL :: after ->
  count NL before + 1 = lineno ->
  get_docstring_and_rest ast_parse decode_utf8 fs filename
    = Ok (docstring, after, lineno + 1).
Proof.
  intros Hfile Hparse Htext Hbody Hdoc Hcontent Hline.
  rewrite (get_docstring_parsed ast_parse decode_utf8 fs filename raw chars
             node Hfile Hparse Htext).
  unfold has_docstring. rewrite Hbody.
  destruct docstring as [|c docstring]; [congruence|]. cbn [truthy].
  rewrite Hcontent, (rest_after_newlines _ _ _ Hline). reflexivity.
Qed.

Lemma split_all_lines (n : nat) :
  forall (fuel : nat) (s : str),
    count NL s < n -> count NL s < fuel ->
    exists before,
      s = before ++ last_part (split_fuel fuel nl (Some n) s)
      /\ forallb dot (last_part (split_fuel fuel nl (Some n) s)) = true
      /\ (before = [] \/ exists b, before = b ++ nl).
Proof.
  induction n as [|n IH]; intros fuel s Hn Hfuel; [lia|].
  destruct fuel as [|fuel]; [lia|].
  cbn [split_fuel].
  destruct (count NL s) as [|k] eqn:Hk.
  - rewrite (find_no_newline _ (no_newline _ Hk)).
    exists []. split; [reflexivity|]. split; [|left; reflexivity].
    apply no_newline. exact Hk.
  - destruct (first_line _ _ Hk) as [l [s' [-> [Hl Hs']]]].
    rewrite (find_newline _ _ Hl), skipn_line. cbn [option_map Nat.pred].
    rewrite last_part_cons by apply split_fuel_nonempty.
    destruct (IH fuel s') as [before [Heq [Hdot Hend]]]; [lia|lia|].
    exists (l ++ NL :: before). split; [|split; [exact Hdot|right]].
    + rewrite <- app_assoc. cbn [app]. rewrite <- Heq. reflexivity.
    + destruct Hend as [->|[b ->]].
      * exists l. reflexivity.
      * exists (l ++ NL :: b). rewrite <- app_assoc. reflexivity.
Qed.

(** A text without newline is not one that ends with a newline. *)
Lemma no_final_newline (before rest b : str) :
  count NL rest = 0 -> before ++ rest = b ++ nl -> rest = [].
Proof.
  intros Hcount Heq.
  destruct rest as [|x rest] using rev_ind; [reflexivity|]. exfalso.
  rewrite app_assoc in Heq. apply app_inj_tail in Heq. destruct Heq as [_ ->].
  rewrite count_app in Hcount. cbn [count] in Hcount.
  rewrite eqc_refl in Hcount. lia.
Qed.

(** X4.  For a file whose bytes parse and are UTF-8 text, with a
    docstring to which the syntax tree gives a line [lineno] that no
    newline of the text ends (the text has fewer than [lineno]
    newlines): the rest that [get_docstring_and_rest] returns is what
    follows the last newline of the text, the whole text when it has no
    newline.  It is empty only when the text is empty or ends with a
    newline; otherwise it is the last line of the file, and the line
    number returned is [lineno + 1]. *)
Theorem docstring_rest_last_line (filename : path) (raw chars : str)
    (node : ast_Module) (docstring : str) (lineno : nat)
    (stmts : list ast_stmt) :
  fs !! filename = Some (Bytes raw) ->
  ast_parse (normalized raw) = Parsed node ->
  decode_utf8 (normalized raw) = Some chars ->
  body node = Expr (Str docstring) lineno :: stmts ->
  docstring <> [] ->
  count NL chars < lineno ->
  exists before rest,
    get_docstring_and_rest ast_parse decode_utf8 fs filename
      = Ok (docstring, rest, lineno + 1)
    /\ chars = before ++ rest
    /\ count NL rest = 0
    /\ (before = [] \/ exists b, before = b ++ nl)
    /\ (rest = [] <-> chars = [] \/ exists b, chars = b ++ nl).
Proof.
  intros Hfile Hparse Htext Hbody Hdoc Hline.
  rewrite (get_docstring_parsed ast_parse decode_utf8 fs filename raw chars
             node Hfile Hparse Htext).
  unfold has_docstring. rewrite Hbody.
  destruct docstring as [|c docstring]; [congruence|]. cbn [truthy].
  unfold split.
  destruct (split_all_lines lineno (S (length chars)) chars Hline)
    as [before [Heq [Hdot Hend]]].
  { pose proof (count_le_length NL chars). lia. }
  set (rest := last_part _) in *.
  assert (Hcount : count NL rest = 0).
  { clear Heq. induction rest as [|x r IHr]; [reflexivity|].
    cbn [forallb] in Hdot. apply andb_prop in Hdot. destruct Hdot as [Hx Hr].
    cbn [count]. unfold dot in Hx. destruct (eqc x NL); [discriminate Hx|].
    apply IHr. exact Hr. }
  exists before, rest. split; [reflexivity|].
  split; [exact Heq|]. split; [exact Hcount|]. split; [exact Hend|].
  split.
  - intros Hrest. rewrite Hrest, app_nil_r in Heq. rewrite Heq.
    destruct Hend as [->|[b ->]]; [left; reflexivity|right; exists b; reflexivity].
  - intros [Hnil|[b Hb]].
    + rewrite Hnil in Heq. symmetry in Heq. apply app_eq_nil in Heq.
      exact (proj2 Heq).
    + rewrite Hb in Heq. symmetry in Heq.
      exact (no_final_newline _ _ _ Hcount Heq).
Qed.

End LineNumbers.

Section FileConfig.

Import Re SourceParser Spec Notions.

Variable literal_eval : str -> evaluation.

Lemma config_loop_evaluated (content : str) (ms : list match_obj) :
  forall (vs : list (str * literal)) (file_conf : gmap (list ascii) literal),
    evaluated literal_eval
      (map (fun m => (group content m "1", group content m "2")) ms)
      = Some vs ->
    fold_left (config_step literal_eval content) ms (Ok file_conf)
    = Ok (fold_left bind_directive vs file_conf).
Proof.
  induction ms as [|m ms IH]; intros vs file_conf Hvs.
  - injection Hvs as <-. reflexivity.
  - cbn [map evaluated] in Hvs. cbn [fold_left].
    assert (Hstep :
      config_step literal_eval content (Ok file_conf) m
      = match literal_eval (group content m "2") with
        | Evaluated v => Ok (<[group content m "1" := v]> file_conf)
        | EvalSyntaxError | EvalValueError => Raise (NameError "logger")
        | EvalRaises e => Raise e
        end).
    { unfold config_step. simpl.
      destruct (literal_eval (group content m "2")); reflexivity. }
    rewrite Hstep. clear Hstep.
    destruct (literal_eval (group content m "2")) as [v| | |e];
      try discriminate Hvs.
    destruct (evaluated literal_eval _) as [vs'|] eqn:Hvs';
      [|discriminate Hvs].
    injection Hvs as <-. rewrite (IH vs' _ eq_refl). reflexivity.
Qed.

Lemma bind_other (name : str) (vs : list (str * literal)) :
  forall file_conf : gmap (list ascii) literal,
    name ∉ map fst vs ->
    fold_left bind_directive vs file_conf !! name = file_conf !! name.
Proof.
  induction vs as [|[k v] vs IH]; intros file_conf Hnot; [reflexivity|].
  cbn [map fst] in Hnot. apply not_elem_of_cons in Hnot.
  destruct Hnot as [Hne Hnot].
  cbn [fold_left]. rewrite (IH _ Hnot). unfold bind_directive. cbn [fst snd].
  apply lookup_insert_ne. congruence.
Qed.

(** X5.  When every directive of a content has a value that
    [ast.literal_eval] accepts, [extract_file_config] returns a
    dictionary whose keys are the names of the directives, and a name
    that occurs more than once is bound to the value of its last
    directive. *)
Theorem file_config_last_wins (content : str) (vs : list (str * literal)) :
  evaluated literal_eval (directives content) = Some vs ->
  exists file_conf,
    extract_file_config literal_eval content = Ok file_conf
    /\ (forall name, name ∉ map fst vs -> file_conf !! name = None)
    /\ (forall vs1 name v vs2,
          vs = vs1 ++ (name, v) :: vs2 -> name ∉ map fst vs2 ->
          file_conf !! name = Some v).
Proof.
  intros Hvs. unfold directives in Hvs.
  exists (fold_left bind_directive vs ∅). split; [|split].
  - unfold extract_file_config.
    change (mret ∅) with (Ok (∅ : gmap (list ascii) literal)).
    apply config_loop_evaluated. exact Hvs.
  - intros name Hnot. rewrite (bind_other _ _ _ Hnot). apply lookup_empty.
  - intros vs1 name v vs2 -> Hnot.
    rewrite fold_left_app. cbn [fold_left].
    rewrite (bind_other _ _ _ Hnot). unfold bind_directive at 1.
    cbn [fst snd]. apply lookup_insert_eq.
Qed.

End FileConfig.

(** ** Thumbnails *)

Section Thumbnails.

Import GenRst.

#[local] Open Scope Z_scope.

Lemma round_inject (q : Q) (z : Z) : (q == inject_Z z)%Q -> round q = z.
Proof.
  intros Hq. unfold round.
  assert (Hfloor : Qfloor q = z) by (rewrite Hq; apply Qfloor_Z).
  rewrite Hfloor.
  assert (Hcmp : (q - inject_Z z ?= 1 # 2)%Q = Lt).
  { apply Qlt_alt. rewrite Hq. unfold Qminus. rewrite Qplus_opp_r.
    reflexivity. }
  rewrite Hcmp. reflexivity.
Qed.

Lemma round_nonneg (q : Q) : (0 <= q)%Q -> 0 <= round q.
Proof.
  intros Hq. unfold round.
  assert (Hfloor : 0 <= Qfloor q).
  { change 0 with (Qfloor 0). apply Qfloor_resp_le. exact Hq. }
  destruct (q - inject_Z (Qfloor q) ?= 1 # 2)%Q;
    [destruct (Z.even (Qfloor q))| |]; lia.
Qed.

Lemma scale_back (bound size : Z) :
  0 < size ->
  (inject_Z bound / inject_Z size * inject_Z size == inject_Z bound)%Q.
Proof.
  intros Hpos. rewrite Qmult_comm. apply Qmult_div_r.
  intros Hz. apply inject_Z_pos in Hpos. rewrite Hz in Hpos.
  exact (Qlt_irrefl 0 Hpos).
Qed.

(** The image scaled to the bounds of a thumbnail. *)
Lemma scaled_within (w h W Hb : Z) :
  0 < w -> 0 < h -> 0 < W -> 0 < Hb ->
  let scale_w := (inject_Z W / inject_Z w)%Q in
  let scale_h := (inject_Z Hb / inject_Z h)%Q in
  let scale :=
    if Qle_bool (inject_Z h * scale_w) (inject_Z Hb)
    then scale_w else scale_h in
  0 <= round (scale * inject_Z w) <= W
  /\ 0 <= round (scale * inject_Z h) <= Hb
  /\ (round (scale * inject_Z w) = W \/ round (scale * inject_Z h) = Hb).
Proof.
  intros Hw Hh HW HHb scale_w scale_h scale.
  pose proof (inject_Z_pos _ Hw) as Hw'.
  pose proof (inject_Z_pos _ Hh) as Hh'.
  pose proof (inject_Z_pos _ HW) as HW'.
  pose proof (inject_Z_pos _ HHb) as HHb'.
  assert (Hsw : (0 <= scale_w)%Q).
  { unfold scale_w. apply Qle_shift_div_l; [exact Hw'|].
    rewrite Qmult_0_l. apply Qlt_le_weak. exact HW'. }
  assert (Hsh : (0 <= scale_h)%Q).
  { unfold scale_h. apply Qle_shift_div_l; [exact Hh'|].
    rewrite Qmult_0_l. apply Qlt_le_weak. exact HHb'. }
  subst scale.
  destruct (Qle_bool (inject_Z h * scale_w) (inject_Z Hb)) eqn:Hfit.
  - apply Qle_bool_iff in Hfit.
    rewrite (round_inject (scale_w * inject_Z w) W)
      by (apply scale_back; exact Hw).
    split; [lia|]. split; [|left; reflexivity]. split.
    + apply round_nonneg. apply Qmult_le_0_compat; [exact Hsw|].
      apply Qlt_le_weak. exact Hh'.
    + apply round_le. rewrite Qmult_comm. exact Hfit.
  - rewrite (round_inject (scale_h * inject_Z h) Hb)
      by (apply scale_back; exact Hh).
    split; [|split; [lia|right; reflexivity]]. split.
    + apply round_nonneg. apply Qmult_le_0_compat; [exact Hsh|].
      apply Qlt_le_weak. exact Hw'.
    + apply round_le.
      assert (Hlt : (inject_Z Hb < inject_Z h * scale_w)%Q).
      { apply Qnot_le_lt. intros Hle. apply Qle_bool_iff in Hle. congruence. }
      (* Hb * w < h * W *)
      assert (Hcross : (inject_Z Hb * inject_Z w < inject_Z h * inject_Z W)%Q).
      { apply (Qmult_lt_r _ _ _ Hw') in Hlt.
        rewrite <- Qmult_assoc in Hlt.
        unfold scale_w in Hlt. rewrite (scale_back W w Hw) in Hlt.
        exact Hlt. }
      unfold scale_h.
      assert (Hswap :
        (inject_Z Hb / inject_Z h * inject_Z w
         == inject_Z Hb * inject_Z w / inject_Z h)%Q).
      { unfold Qdiv. rewrite <- !Qmult_assoc.
        rewrite (Qmult_comm (/ inject_Z h)). reflexivity. }
      rewrite Hswap.
      apply Qle_shift_div_r; [exact Hh'|].
      apply Qlt_le_weak. rewrite (Qmult_comm (inject_Z W)). exact Hcross.
Qed.

(** X12.  Scaling an image of positive size to another path, with
    positive bounds: the source file is left as it is, and the
    destination becomes a canvas of exactly the bounds that holds the
    image resized to a width and a height within the bounds, one of them
    equal to its bound, pasted at offsets that are not negative. *)
Theorem scale_image_thumbnail (fs : filesystem) (in_fname out_fname : path)
    (max_width max_height : Z) (img : image) :
  fs !! in_fname = Some (Image img) ->
  0 < fst (size img) -> 0 < snd (size img) ->
  0 < max_width -> 0 < max_height ->
  in_fname <> out_fname ->
  exists width_sc height_sc,
    scale_image in_fname out_fname max_width max_height fs
      = Ok (<[out_fname :=
               Image (Canvas max_width max_height
                        (Resized img width_sc height_sc)
                        ((max_width - width_sc) / 2)
                        ((max_height - height_sc) / 2))]> fs)
    /\ 0 <= width_sc <= max_width
    /\ 0 <= height_sc <= max_height
    /\ (width_sc = max_width \/ height_sc = max_height)
    /\ 0 <= (max_width - width_sc) / 2
    /\ 0 <= (max_height - height_sc) / 2.
Proof.
  intros Hfile Hw Hh HW HH Hne.
  unfold scale_image, open_image. rewrite Hfile. simpl.
  destruct (size img) as [width_in height_in]. simpl in *.
  rewrite !float_div_ok by lia. simpl.
  assert (Heqs : eqs in_fname out_fname = false).
  { destruct (eqs in_fname out_fname) eqn:E; [|reflexivity].
    apply eqs_true in E. contradiction. }
  rewrite Heqs, andb_false_r.
  destruct (scaled_within width_in height_in max_width max_height Hw Hh HW HH)
    as [Hwsc [Hhsc Htouch]].
  cbv zeta in Hwsc, Hhsc, Htouch.
  eexists. eexists. split; [reflexivity|].
  split; [exact Hwsc|]. split; [exact Hhsc|]. split; [exact Htouch|].
  split; apply Z.div_pos; lia.
Qed.

End Thumbnails.

Section ThumbnailFile.

Import SourceParser GenRst Spec Notions.

Variable H : host.
Variable conf : gallery_conf.

Lemma set_files_same (p : process) : set_files (files p) p = p.
Proof. destruct p. reflexivity. Qed.

(** [scale_image] writes no other file than its destination. *)
Lemma scale_image_frame (in_fname out_fname : path) (max_width max_height : Z)
    (fs fs' : filesystem) (q : path) :
  scale_image in_fname out_fname max_width max_height fs = Ok fs' ->
  q <> out_fname -> fs' !! q = fs !! q.
Proof.
  unfold scale_image. intros Hscale Hq.
  destruct (open_image fs in_fname) as [img|e]; simpl in Hscale;
    [|discriminate Hscale].
  destruct (size img) as [width_in height_in].
  destruct (float_div max_width width_in) as [scale_w|e]; simpl in Hscale;
    [|discriminate Hscale].
  destruct (float_div max_height height_in) as [scale_h|e]; simpl in Hscale;
    [|discriminate Hscale].
  destruct (Qle_bool 1 _ && eqs in_fname out_fname); simpl in Hscale;
    injection Hscale as <-; [reflexivity|].
  apply lookup_insert_ne. congruence.
Qed.

(** X13.  [save_thumbnail] raises [TypeError] and changes nothing when
    the [thumbnail_number] of the file is no integer; otherwise, however
    it ends, it changes nothing of the process but its files, and no
    file but the thumbnail of the source file. *)
Theorem save_thumbnail_frame (image_path_template : str) (src_file : path)
    (file_conf : gmap (list ascii) literal) (p : process) :
  let out := save_thumbnail H conf image_path_template src_file file_conf p in
  match as_int (default (LInt 1) (file_conf !! py "thumbnail_number")) with
  | None =>
    out
    = (Raise (TypeError
                (py "sphinx_galleria_thumbnail_number setting is not a number.")),
       p)
  | Some thumbnail_number =>
    only_files p (snd out)
    /\ forall q : path,
         q <> thumbnail_path H image_path_template src_file thumbnail_number ->
         files (snd out) !! q = files p !! q
  end.
Proof.
  cbv zeta. unfold save_thumbnail, thumbnail_path, only_files.
  destruct (as_int _) as [thumbnail_number|]; [|reflexivity].
  match goal with
  | |- context [match ?chosen with Some _ => _ | None => _ end] =>
    destruct chosen as [img|]
  end.
  - destruct (scale_image img _ _ _ (files p)) as [fs|e] eqn:Hscale;
      cbn [snd].
    + split; [reflexivity|]. intros q Hq. cbn [files set_files].
      eapply scale_image_frame; eassumption.
    + split; [symmetry; apply set_files_same|]. reflexivity.
  - cbn [snd]. split; [symmetry; apply set_files_same|]. reflexivity.
Qed.


(** ** The fingerprint *)

Lemma md5_path_differs (example_file : path) :
  example_file <> example_file ++ md5_suffix.
Proof.
  intros Heq. apply (f_equal (@length ascii)) in Heq.
  rewrite length_app in Heq. cbn in Heq. lia.
Qed.

(** X11.  After the fingerprint of a file marked for execution has
    been written, [md5sum_is_current] holds of the file; and the write
    changes no file but the sidecar. *)
Theorem md5sum_round_trip (v : block_vars) (example_file : path)
    (p p' : process) :
  execute_script v = true ->
  write_md5sum H v example_file p = Ok p' ->
  md5sum_is_current (md5_hexdigest H) (files p') example_file = Ok true
  /\ forall q : path,
       q <> example_file ++ md5_suffix -> files p' !! q = files p !! q.
Proof.
  unfold write_md5sum, get_md5sum, read, write. intros -> Hwrite.
  destruct (files p !! example_file) as [[content|i]|] eqn:Hfile;
    simpl in Hwrite; try discriminate Hwrite.
  injection Hwrite as <-. cbn [files set_files]. split.
  - apply md5sum_is_current_true. exists content, (md5_hexdigest H content).
    split; [|split; [apply lookup_insert_eq|reflexivity]].
    rewrite lookup_insert_ne; [exact Hfile|].
    intros Heq. symmetry in Heq. exact (md5_path_differs _ Heq).
  - intros q Hq. apply lookup_insert_ne. congruence.
Qed.

End ThumbnailFile.

(** ** The figures of a block *)

Section SavedFigures.

Import SourceParser GenRst Spec.

Variable os : os_path.

Lemma save_matplotlib_length (image_path : str) (fig_count : nat)
    (figs : list (nat * image)) :
  forall (figure_list : list path) (fs : filesystem),
    length (fst (save_matplotlib image_path fig_count figs figure_list fs))
    = length figure_list + length figs.
Proof.
  induction figs as [|[fig_num fig] figs IH]; intros figure_list fs;
    cbn [save_matplotlib length fst].
  - lia.
  - rewrite IH, length_app. cbn [length]. lia.
Qed.

Lemma save_mayavi_length (image_path : str)
    (scenes_nums : list (image * nat)) :
  forall (figure_list saved : list path) (fs fs' : filesystem),
    save_mayavi image_path scenes_nums figure_list fs = (Ok saved, fs') ->
    length saved = length figure_list + length scenes_nums.
Proof.
  induction scenes_nums as [|[scene n] rest IH];
    intros figure_list saved fs fs' Hsave; cbn [save_mayavi] in Hsave.
  - injection Hsave as <- _. cbn [length]. lia.
  - unfold mbind, ST_bind, modify, get, lift in Hsave.
    destruct (scale_image _ _ 850%Z 999%Z _) as [fs1|e];
      [|discriminate Hsave].
    apply IH in Hsave. rewrite Hsave, length_app. cbn [length]. lia.
Qed.

(** X15.  When [save_figures] returns, the count that it returns is the
    number of open matplotlib figures, plus the number of mayavi scenes
    when [find_mayavi_figures] is set; the matplotlib figures stay open,
    and the mayavi scenes are closed. *)
Theorem save_figures_count (image_path : str) (fig_count : nat)
    (conf : gallery_conf) (p : process) (images_rst : str) (fig_num : nat)
    (p' : process) :
  save_figures os image_path fig_count conf p = (Ok (images_rst, fig_num), p') ->
  fig_num = length (figures p)
            + (if find_mayavi_figures conf then length (scenes p) else 0)
  /\ figures p' = figures p
  /\ scenes p' = (if find_mayavi_figures conf then [] else scenes p).
Proof.
  unfold save_figures. intros Hsave.
  pose proof (save_matplotlib_length image_path fig_count (figures p) []
                (files p)) as Hlen.
  destruct (save_matplotlib image_path fig_count (figures p) [] (files p))
    as [figure_list fs].
  cbn [fst length] in Hlen.
  destruct (find_mayavi_figures conf).
  - cbn [scenes set_files] in Hsave.
    destruct (save_mayavi image_path _ figure_list _) as [[saved|e] fs1]
      eqn:Hmayavi; [|discriminate Hsave].
    apply save_mayavi_length in Hmayavi.
    rewrite length_combine, length_seq in Hmayavi.
    injection Hsave as _ <- <-. unfold figure_rst. cbn [snd].
    split; [lia|]. split; reflexivity.
  - injection Hsave as _ <- <-. unfold figure_rst. cbn [snd].
    split; [lia|]. split; reflexivity.
Qed.

End SavedFigures.

(** ** Introduction and title *)

Section IntroTitle.

Import Re SourceParser GenRst Spec Notions.

Lemma count_replace_newline (s : str) :
  count NL (replace_char NL SPACE s) = 0.
Proof.
  induction s as [|x s IH]; [reflexivity|].
  unfold replace_char in *. cbn [map count].
  destruct (eqc x NL) eqn:Hx.
  - change (eqc SPACE NL) with false. exact IH.
  - rewrite Hx. exact IH.
Qed.

Lemma count_firstn (c : ascii) (n : nat) (s : str) :
  count c (firstn n s) <= count c s.
Proof.
  revert n. induction s as [|x s IH]; intros [|n]; cbn [firstn count];
    try lia.
  specialize (IH n). lia.
Qed.

(** X7.  The introduction that [extract_intro_and_title] returns is one
    line of at most 98 characters: it holds no newline, and a text of
    more than 95 characters is cut there and ends with three dots. *)
Theorem intro_single_line (filename docstring intro title : str) :
  extract_intro_and_title filename docstring = Ok (intro, title) ->
  count NL intro = 0 /\ length intro <= 98.
Proof.
  unfold extract_intro_and_title. intros Hret.
  destruct (List.filter _ _) as [|title_paragraph others];
    [discriminate Hret|].
  destruct (search title_pat title_paragraph) as [m|]; [|discriminate Hret].
  injection Hret as <- _.
  set (line := replace_char NL SPACE _).
  assert (Hline : count NL line = 0) by apply count_replace_newline.
  clearbody line.
  destruct (95 <? length line) eqn:Hlong.
  - split.
    + rewrite count_app. pose proof (count_firstn NL 95 line).
      match goal with |- _ + ?n = 0 => change n with 0 end. lia.
    + rewrite length_app, length_firstn.
      match goal with |- _ + ?n <= 98 => change n with 3 end. lia.
  - apply Nat.ltb_ge in Hlong. split; [exact Hline|lia].
Qed.

(** X9.  A docstring of whitespace only has no title:
    [extract_intro_and_title] raises the [ValueError] that asks for a
    header and names the file. *)
Theorem blank_docstring_no_title (filename docstring : str) :
  forallb isspace docstring = true ->
  extract_intro_and_title filename docstring
    = Raise (ValueError
               (py "Example docstring should have a header for the example title. Please check the example file:"
                ++ nl ++ py " " ++ filename ++ nl)).
Proof.
  intros Hblank. apply lstrip_empty in Hblank.
  unfold extract_intro_and_title. rewrite Hblank. reflexivity.
Qed.

Lemma word_plain (c : ascii) :
  word c = true ->
  isspace c = false /\ eqc (chr 46) c = false.
Proof.
  destruct c as [[] [] [] [] [] [] [] []]; vm_compute; intros Hc;
    try discriminate Hc; split; reflexivity.
Qed.

Lemma title_char_no_newline (c : ascii) :
  title_char c = true -> eqc NL c = false.
Proof.
  destruct c as [[] [] [] [] [] [] [] []]; vm_compute; intros Hc;
    try discriminate Hc; reflexivity.
Qed.

Lemma find_after_title (sep T rest : str) :
  forallb title_char T = true ->
  find (NL :: sep) (T ++ rest)
    = option_map (fun i => length T + i) (find (NL :: sep) rest).
Proof.
  intros HT. induction T as [|c T IH].
  - cbn [app length]. destruct (find (NL :: sep) rest); reflexivity.
  - cbn [forallb] in HT. apply andb_prop in HT. destruct HT as [Hc HT].
    cbn [app]. cbn [find startswith].
    rewrite (title_char_no_newline c Hc). cbn [andb].
    fold (find (NL :: sep) (T ++ rest)). rewrite (IH HT).
    destruct (find (NL :: sep) rest); reflexivity.
Qed.

(** The first paragraph of a text that starts with a title. *)
Lemma first_paragraph (T rest : str) :
  forallb title_char T = true ->
  match rest with [] => true | a :: _ => negb (title_char a) end = true ->
  exists tail others,
    split (nl ++ nl) None (T ++ rest) = (T ++ tail) :: others
    /\ match tail with [] => true | a :: _ => negb (title_char a) end = true.
Proof.
  intros HT Hrest. unfold split. cbn [split_fuel].
  change (nl ++ nl) with (NL :: nl).
  rewrite (find_after_title nl T rest HT).
  destruct (find (NL :: nl) rest) as [i|]; cbn [option_map].
  - exists (firstn i rest). eexists. split.
    + rewrite firstn_app.
      replace (length T + i - length T) with i by lia.
      rewrite firstn_all2 by lia. reflexivity.
    + destruct rest as [|a rest]; [destruct i; reflexivity|].
      destruct i; [reflexivity|exact Hrest].
  - exists rest, []. split; [reflexivity|exact Hrest].
Qed.

Lemma match_title (c : ascii) (T tail : str) :
  title_char c = true ->
  forallb title_char T = true ->
  match tail with [] => true | a :: _ => negb (title_char a) end = true ->
  match_at title_pat (start_of (c :: T ++ tail))
    = Some (Match 0 (S (length T)) [("1"%string, (0, S (length T)))]).
Proof.
  intros Hc HT Htail. unfold match_at, title_pat, Plus.
  rewrite run_group, run_seq.
  change (start_of (c :: T ++ tail)) with (cursor_at [] (c :: T ++ tail)).
  rewrite run_cls. fold (title_char c). rewrite Hc.
  rewrite (run_star_cls _ _ T ([] ++ [c]) tail []
             (cursor_at (([] ++ [c]) ++ T) tail,
              [("1"%string, (0, S (length T)))])).
  - reflexivity.
  - exact HT.
  - exact Htail.
  - unfold cursor_at. cbn [c_idx app length]. reflexivity.
Qed.

(** X8.  When the docstring starts with a word character and its
    first characters, up to a character that is neither a word character
    nor a space (the end of the line, say), are word characters and
    spaces, the title is that first run of characters without the spaces
    at its end. *)
Theorem title_first_line (filename : str) (c : ascii) (T rest : str) :
  word c = true ->
  forallb title_char T = true ->
  match rest with [] => true | a :: _ => negb (title_char a) end = true ->
  exists intro,
    extract_intro_and_title filename (c :: T ++ rest)
      = Ok (intro, strip (c :: T)).
Proof.
  intros Hc HT Hrest.
  destruct (word_plain c Hc) as [Hspace Hdot].
  assert (Hc' : title_char c = true) by (unfold title_char; rewrite Hc; reflexivity).
  unfold extract_intro_and_title.
  cbn [lstrip]. rewrite Hspace.
  destruct (first_paragraph (c :: T) rest) as [tail [others [Hsplit Htail]]].
  { cbn [forallb]. rewrite Hc', HT. reflexivity. }
  { exact Hrest. }
  change (c :: T ++ rest) with ((c :: T) ++ rest). rewrite Hsplit.
  cbn [List.filter app startswith py list_ascii_of_string].
  change (chr 46) with "."%char in Hdot.
  rewrite Hdot. cbn [andb negb length Nat.ltb Nat.leb].
  unfold search, finditer. cbn [finditer_from].
  rewrite (match_title c T tail Hc' HT Htail). cbn [head].
  unfold group. cbn [m_groups lookup_group]. rewrite String.eqb_refl.
  change (S (length T)) with (length (c :: T)).
  change (c :: T ++ tail) with ((c :: T) ++ tail).
  rewrite slice_prefix. eexists. reflexivity.
Qed.

End IntroTitle.

(** ** Code markup *)

Section CodeMarkup.

Import SourceParser GenRst Spec.

Lemma lstrip_leading (ws : str) (c : ascii) (rest : str) :
  forallb isspace ws = true -> isspace c = false ->
  lstrip (ws ++ c :: rest) = c :: rest.
Proof.
  intros Hws Hc. induction ws as [|w ws IH]; cbn [app lstrip].
  - rewrite Hc. reflexivity.
  - cbn [forallb] in Hws. apply andb_prop in Hws. destruct Hws as [Hw Hws].
    rewrite Hw. exact (IH Hws).
Qed.

(** X10.  For a block of code that starts with whitespace, followed by
    a character that is no whitespace, and a Sphinx of version 1.3 or
    later: the line number that [codestr2rst] announces with
    [:lineno-start:] is the start line of the block plus the number of
    newlines in that whitespace, the line of the first code. *)
Theorem lineno_start_first_code_line (conf : gallery_conf)
    (ws : str) (c : ascii) (rest lang : str) (lineno : nat) :
  sphinx_ge_1_3 conf = true ->
  forallb isspace ws = true -> isspace c = false ->
  leading_blank_lines (ws ++ c :: rest) = count NL ws
  /\ codestr2rst conf (ws ++ c :: rest) lang (Some lineno)
     = (nl ++ py ".. code-block:: " ++ lang ++ nl
        ++ (py "   :lineno-start: " ++ str_of_nat (lineno + count NL ws) ++ nl)
        ++ nl)
       ++ indent (ws ++ c :: rest) (repeat SPACE 4).
Proof.
  intros Hge Hws Hc.
  assert (Hblank : leading_blank_lines (ws ++ c :: rest) = count NL ws).
  { unfold leading_blank_lines. rewrite (lstrip_leading ws c rest Hws Hc).
    cbn [length Nat.eqb]. rewrite length_app. cbn [length].
    replace (length ws + S (length rest) - S (length rest)) with (length ws)
      by lia.
    rewrite take_app_length. reflexivity. }
  split; [exact Hblank|].
  unfold codestr2rst. rewrite Hge, Hblank. reflexivity.
Qed.

End CodeMarkup.

(** ** One file *)

Section OneFile.

Import SourceParser GenRst Spec Notions.

Variable H : host.
Variable conf : gallery_conf.

Lemma only_files_refl (p : process) : only_files p p.
Proof. unfold only_files. destruct p. reflexivity. Qed.

Lemma only_files_set (fs : filesystem) (p p' : process) :
  only_files p p' -> only_files p (set_files fs p').
Proof. unfold only_files. intros ->. destruct p. reflexivity. Qed.

Lemma save_thumbnail_only_files (image_path_template : str) (src_file : path)
    (file_conf : gmap (list ascii) literal) (p : process)
    (r : result unit) (p' : process) :
  save_thumbnail H conf image_path_template src_file file_conf p = (r, p') ->
  only_files p p'.
Proof.
  unfold save_thumbnail. intros Hsave.
  destruct (as_int _) as [thumbnail_number|].
  - match type of Hsave with
    | match ?chosen with _ => _ end = _ => destruct chosen as [img|]
    end.
    + destruct (scale_image img _ _ _ (files p)) as [fs|e];
        injection Hsave as <- <-.
      * apply only_files_set, only_files_refl.
      * apply only_files_refl.
    + injection Hsave as <- <-. apply only_files_refl.
  - injection Hsave as <- <-. apply only_files_refl.
Qed.

Lemma write_md5sum_only_files (v : block_vars) (example_file : path)
    (p p' : process) :
  write_md5sum H v example_file p = Ok p' -> only_files p p'.
Proof.
  unfold write_md5sum. destruct (execute_script v).
  - destruct (get_md5sum _ _ _) as [sum|e]; intros Hw; [|discriminate Hw].
    injection Hw as <-. apply only_files_set, only_files_refl.
  - intros Hw. injection Hw as <-. apply only_files_refl.
Qed.

(** What a call of [execute_code_block] leaves as it found it. *)
Lemma execute_code_block_context (code_block : str) (lineno : nat)
    (st : state H) (r : result (str * Q)) (st' : state H) :
  execute_code_block H conf code_block lineno st = (r, st') ->
  cwd (proc st') = cwd (proc st)
  /\ sys_stdout (proc st') = sys_stdout (proc st).
Proof.
  unfold execute_code_block.
  destruct (execute_script (vars st)); simpl.
  - unfold try_finally.
    match goal with
    | |- context [let '(r, s') := ?m in _] => destruct m as [r0 s0]
    end.
    intros Hcall. injection Hcall as _ <-. split; reflexivity.
  - intros Hcall. injection Hcall as _ <-. split; reflexivity.
Qed.

Lemma run_blocks_context (file_conf : gmap (list ascii) literal) (nb : bool)
    (script_blocks : list block) :
  forall (example_rst : str) (time_elapsed : Q) (st : state H)
         (r : result (str * Q)) (st' : state H),
    run_blocks H conf file_conf nb script_blocks example_rst time_elapsed st
      = (r, st') ->
    cwd (proc st') = cwd (proc st)
    /\ sys_stdout (proc st') = sys_stdout (proc st).
Proof.
  induction script_blocks as [|[[blabel bcontent] lineno] rest IH];
    intros example_rst time_elapsed st r st' Hrun; cbn [run_blocks] in Hrun.
  - injection Hrun as _ <-. split; reflexivity.
  - destruct blabel.
    + eapply IH. exact Hrun.
    + unfold mbind, ST_bind in Hrun.
      destruct (execute_code_block H conf bcontent lineno st)
        as [[[code_output rtime]|e] st1] eqn:Hcall.
      * apply execute_code_block_context in Hcall.
        apply IH in Hrun. destruct Hcall, Hrun. split; congruence.
      * apply execute_code_block_context in Hcall.
        injection Hrun as _ <-. exact Hcall.
Qed.

Lemma finish_context (fname target_dir src_file example_file : path)
    (file_conf : gmap (list ascii) literal) (script_blocks : list block)
    (intro : str) (argv_orig : list str) (example_rst : str)
    (time_elapsed : Q) (st : state H) (r : result (str * Q)) (p' : process) :
  finish H conf fname target_dir src_file example_file file_conf script_blocks
         intro argv_orig example_rst time_elapsed st = (r, p') ->
  cwd p' = cwd (proc st) /\ sys_stdout p' = sys_stdout (proc st)
  /\ sys_argv p' = argv_orig.
Proof.
  unfold finish. intros Hfin.
  destruct (write_md5sum H (vars st) example_file _) as [p1|e] eqn:Hmd5.
  - apply write_md5sum_only_files in Hmd5.
    destruct (save_thumbnail H conf _ src_file file_conf p1)
      as [[[]|e] p2] eqn:Hthumb;
      apply save_thumbnail_only_files in Hthumb;
      injection Hfin as _ <-;
      unfold only_files in *; rewrite Hthumb, Hmd5;
      destruct (execute_script (vars st)); repeat split; reflexivity.
  - injection Hfin as _ <-. repeat split; reflexivity.
Qed.

(** X19.  However [generate_file_rst] ends, with a result or with an
    exception, it leaves the working directory and the standard output
    stream that it found; when it returns a result, the argument vector
    is the one that it found as well. *)
Theorem generate_file_rst_restores (fname target_dir src_dir : path)
    (p : process) :
  let out := generate_file_rst H conf fname target_dir src_dir p in
  cwd (snd out) = cwd p
  /\ sys_stdout (snd out) = sys_stdout p
  /\ (is_ok (fst out) = true -> sys_argv (snd out) = sys_argv p).
Proof.
  cbv zeta. unfold generate_file_rst, mbind, ST_bind, copyfile, lift.
  destruct (files p !! _) as [f|]; [|repeat split; reflexivity].
  set (copied := set_files _ p).
  destruct (split_code_and_text_blocks _ _ _ _)
    as [[file_conf script_blocks]|e]; [|repeat split; reflexivity].
  destruct (extract_intro_and_title _ _) as [[intro title]|e];
    [|repeat split; reflexivity].
  destruct (md5sum_is_current _ _ _) as [[|]|e];
    try (repeat split; reflexivity).
  unfold regenerate.
  destruct (run_blocks H conf _ _ _ _ _ _) as [[[example_rst t]|e] st]
    eqn:Hrun; apply run_blocks_context in Hrun; destruct Hrun as [Hcwd Hout].
  - destruct (finish H conf _ _ _ _ _ _ _ _ _ _ st) as [r p'] eqn:Hfin.
    apply finish_context in Hfin. destruct Hfin as [Hcwd' [Hout' Hargv]].
    cbn [fst snd]. rewrite Hcwd', Hout', Hcwd, Hout, Hargv.
    unfold initial_state.
    destruct (filename_pattern conf _ && plot_gallery conf);
      repeat split; reflexivity.
  - cbn [fst snd is_ok]. rewrite Hcwd, Hout.
    unfold initial_state.
    destruct (filename_pattern conf _ && plot_gallery conf);
      split; [reflexivity| |reflexivity|]; (split; [reflexivity|]);
      intros Hok; discriminate Hok.
Qed.

(** X20.  For a source file whose bytes are UTF-8 text and parse to a
    module without docstring, [generate_file_rst] raises the
    [ValueError] of the parser, which names the source file; the copy of
    the source into the target directory has been made by then and
    nothing else has changed. *)
Theorem generate_file_rst_no_docstring (fname target_dir src_dir : path)
    (p : process) (raw chars : str) (node : ast_Module) :
  let src_file := path_normpath (os H) (path_join (os H) src_dir fname) in
  let example_file := path_join (os H) target_dir fname in
  files p !! src_file = Some (Bytes raw) ->
  ast_parse H (normalized raw) = Parsed node ->
  decode_utf8 H (normalized raw) = Some chars ->
  has_docstring node = false ->
  generate_file_rst H conf fname target_dir src_dir p
    = (Raise (missing_docstring src_file),
       set_files (<[example_file := Bytes raw]> (files p)) p).
Proof.
  intros src_file example_file Hsrc Hparse Htext Hdoc.
  unfold generate_file_rst, mbind, ST_bind, copyfile, lift.
  fold src_file. fold example_file. rewrite Hsrc.
  cbn [files set_files].
  assert (Hcopy :
    (<[example_file := Bytes raw]> (files p) : filesystem) !! src_file
    = Some (Bytes raw)).
  { destruct (decide (example_file = src_file)) as [->|Hne].
    - apply lookup_insert_eq.
    - rewrite lookup_insert_ne by exact Hne. exact Hsrc. }
  unfold split_code_and_text_blocks.
  rewrite (get_docstring_parsed (ast_parse H) (decode_utf8 H) _ src_file raw
             chars node Hcopy Hparse Htext).
  rewrite Hdoc. reflexivity.
Qed.

(** A file that is not to be executed: its blocks leave the state as it
    is and add no time. *)
Lemma run_blocks_disabled (file_conf : gmap (list ascii) literal) (nb : bool)
    (script_blocks : list block) (st : state H) :
  execute_script (vars st) = false ->
  forall (example_rst : str) (time_elapsed : Q),
  exists example_rst' time_elapsed',
    run_blocks H conf file_conf nb script_blocks example_rst time_elapsed st
      = (Ok (example_rst', time_elapsed'), st)
    /\ (time_elapsed' == time_elapsed)%Q.
Proof.
  intros Hflag.
  induction script_blocks as [|[[blabel bcontent] lineno] rest IH];
    intros example_rst time_elapsed; cbn [run_blocks].
  - exists example_rst, time_elapsed. split; [reflexivity|apply Qeq_refl].
  - destruct blabel.
    + apply IH.
    + unfold mbind, ST_bind.
      rewrite (execute_code_block_skipped H conf _ _ _ Hflag).
      match goal with
      | |- context [run_blocks H conf file_conf nb rest ?rst ?t st] =>
        destruct (IH rst t) as [rst' [t' [Heq Ht]]]
      end.
      exists rst', t'. split; [exact Heq|].
      rewrite Ht. apply Qplus_0_r.
Qed.

(** X21.  A file that is not to be executed (its name does not match
    [filename_pattern], or [plot_gallery] is off): [generate_file_rst]
    changes the files and, by [clean_modules], the loaded modules and the
    defaults of matplotlib at most, so that no figure is opened, nothing
    is logged and no example is registered as failing; and the time that
    it returns is zero. *)
Theorem generate_file_rst_not_executed (fname target_dir src_dir : path)
    (p : process) :
  let src_file := path_normpath (os H) (path_join (os H) src_dir fname) in
  let out := generate_file_rst H conf fname target_dir src_dir p in
  filename_pattern conf src_file && plot_gallery conf = false ->
  (only_files p (snd out) \/ only_files (clean_modules p) (snd out))
  /\ forall intro time_elapsed,
       fst out = Ok (intro, time_elapsed) -> (time_elapsed == 0)%Q.
Proof.
  intros src_file out Hflag. subst out.
  unfold generate_file_rst, mbind, ST_bind, copyfile, lift.
  fold src_file.
  destruct (files p !! src_file) as [f|];
    [|split; [left; apply only_files_refl|intros ? ? Hr; discriminate Hr]].
  set (copied := set_files _ p).
  assert (Hcopied : only_files p copied)
    by (apply only_files_set, only_files_refl).
  destruct (split_code_and_text_blocks _ _ _ _)
    as [[file_conf script_blocks]|e];
    [|split; [left; exact Hcopied|intros ? ? Hr; discriminate Hr]].
  destruct (extract_intro_and_title _ _) as [[intro title]|e];
    [|split; [left; exact Hcopied|intros ? ? Hr; discriminate Hr]].
  destruct (md5sum_is_current _ _ _) as [[|]|e].
  - split; [left; exact Hcopied|].
    intros ? ? Hr. injection Hr as _ <-. apply Qeq_refl.
  - unfold regenerate, initial_state. rewrite Hflag.
    cbn [GenRst.execute_script].
    match goal with
    | |- context [run_blocks H conf ?fc ?nb ?bs ?rst ?t ?st] =>
      destruct (run_blocks_disabled fc nb bs st eq_refl rst t)
        as [rst' [t' [Hrun Ht]]]
    end.
    rewrite Hrun. unfold finish. cbn [vars proc GenRst.execute_script].
    unfold write_md5sum. cbn [GenRst.execute_script].
    assert (Hargv : set_argv (sys_argv copied) copied = copied)
      by (destruct copied; reflexivity).
    rewrite Hargv.
    assert (Hclean : only_files (clean_modules p) (clean_modules copied)).
    { unfold only_files in Hcopied. rewrite Hcopied. destruct p. reflexivity. }
    destruct (save_thumbnail H conf _ src_file file_conf (clean_modules copied))
      as [[[]|e] p2] eqn:Hthumb; apply save_thumbnail_only_files in Hthumb.
    + cbn [fst snd]. split.
      * right. apply only_files_set, only_files_set.
        unfold only_files in *. rewrite Hthumb, Hclean. destruct p.
        reflexivity.
      * intros ? ? Hr. injection Hr as _ <-. exact Ht.
    + cbn [fst snd]. split.
      * right. unfold only_files in *. rewrite Hthumb, Hclean. destruct p.
        reflexivity.
      * intros ? ? Hr. discriminate Hr.
  - split; [left; exact Hcopied|intros ? ? Hr; discriminate Hr].
Qed.


(** What [execute_code_block] keeps of the variables of the file. *)
Lemma execute_code_block_vars (code_block : str) (lineno : nat)
    (st : state H) (r : result (str * Q)) (st' : state H) :
  execute_code_block H conf code_block lineno st = (r, st') ->
  image_path (vars st') = image_path (vars st)
  /\ src_file (vars st') = src_file (vars st)
  /\ fig_count (vars st) <= fig_count (vars st')
  /\ (execute_script (vars st') = true -> execute_script (vars st) = true).
Proof.
  unfold execute_code_block.
  destruct (execute_script (vars st)) eqn:Hflag; simpl.
  - unfold try_finally.
    destruct (ending (py_exec H code_block lineno _ _ _)) as [elapsed|e|].
    + destruct (save_figures _ _ _ _ _) as [[[images_rst fig_num]|e] p];
        intros Hcall; injection Hcall as _ <-; simpl;
        repeat split; auto; lia.
    + unfold handle_exception.
      destruct (abort_on_example_error conf);
        intros Hcall; injection Hcall as _ <-; simpl;
        repeat split; auto.
    + intros Hcall. injection Hcall as _ <-. simpl. repeat split; auto.
  - intros Hcall. injection Hcall as _ <-.
    repeat split; auto. intros Htrue. congruence.
Qed.

(** X18.  Over the blocks of a file, however the loop ends: the path
    template of the images and the source file of [block_vars] stay the
    same, [fig_count] does not decrease, and [execute_script] is set at
    the end only if it was set at the start. *)
Theorem run_blocks_invariants (file_conf : gmap (list ascii) literal)
    (nb : bool) (script_blocks : list block) (example_rst : str)
    (time_elapsed : Q) (st : state H) :
  let after :=
    snd (run_blocks H conf file_conf nb script_blocks example_rst
                    time_elapsed st) in
  image_path (vars after) = image_path (vars st)
  /\ src_file (vars after) = src_file (vars st)
  /\ fig_count (vars st) <= fig_count (vars after)
  /\ (execute_script (vars after) = true -> execute_script (vars st) = true).
Proof.
  cbv zeta. revert example_rst time_elapsed st.
  induction script_blocks as [|[[blabel bcontent] lineno] rest IH];
    intros example_rst time_elapsed st; cbn [run_blocks].
  - cbn [snd]. repeat split; auto.
  - destruct blabel.
    + apply IH.
    + unfold mbind, ST_bind.
      destruct (execute_code_block H conf bcontent lineno st)
        as [[[code_output rtime]|e] st1] eqn:Hcall;
        apply execute_code_block_vars in Hcall;
        destruct Hcall as [Himg [Hsrc [Hfig Hflag]]].
      * match goal with
        | |- context [run_blocks H conf file_conf nb rest ?rst ?t st1] =>
          destruct (IH rst t st1) as [Himg' [Hsrc' [Hfig' Hflag']]]
        end.
        repeat split; try congruence; [lia|auto].
      * cbn [snd]. repeat split; auto.
Qed.

End OneFile.

(** ** The fingerprint and the run of a file *)

Section Cache.

Import SourceParser GenRst Spec Notions.

Variable H : host.
Variable conf : gallery_conf.

(** A block that runs to its end leaves the flag as it is. *)
Lemma completed_keeps_flag (code_block : str) (lineno : nat) (st : state H)
    (elapsed : Q) :
  execute_script (vars st) = true ->
  ending (executed H code_block lineno st) = Completed elapsed ->
  execute_script
    (vars (snd (execute_code_block H conf code_block lineno st))) = true.
Proof.
  intros Hflag Hend. unfold executed, prepare in Hend. simpl in Hend.
  unfold execute_code_block. rewrite Hflag. simpl.
  unfold try_finally. simpl. rewrite Hend.
  destruct (save_figures _ _ _ _ _) as [[[images_rst fig_num]|e] p];
    simpl; exact Hflag.
Qed.

Lemma all_completed_flag (file_conf : gmap (list ascii) literal) (nb : bool)
    (script_blocks : list block) :
  forall (example_rst : str) (time_elapsed : Q) (st : state H)
         (out : str * Q) (st1 : state H),
    run_blocks H conf file_conf nb script_blocks example_rst time_elapsed st
      = (Ok out, st1) ->
    execute_script (vars st) = true ->
    all_completed H conf script_blocks st = true ->
    execute_script (vars st1) = true.
Proof.
  induction script_blocks as [|[[blabel bcontent] lineno] rest IH];
    intros example_rst time_elapsed st out st1 Hrun Hflag Hall;
    cbn [run_blocks all_completed] in Hrun, Hall.
  - injection Hrun as _ <-. exact Hflag.
  - destruct blabel.
    + eapply IH; eassumption.
    + destruct (ending (executed H bcontent lineno st)) as [elapsed|e|]
        eqn:Hend; try discriminate Hall.
      pose proof (completed_keeps_flag _ _ _ _ Hflag Hend) as Hflag'.
      unfold mbind, ST_bind in Hrun.
      destruct (execute_code_block H conf bcontent lineno st)
        as [[[code_output rtime]|e] st'] eqn:Hcall; [|discriminate Hrun].
      cbn [snd] in Hflag', Hall.
      eapply IH; eassumption.
Qed.

(** The flag after the blocks: set exactly when it was set before them
    and every code block ran to its end. *)
Lemma flag_after_blocks (file_conf : gmap (list ascii) literal) (nb : bool)
    (script_blocks : list block) (example_rst : str) (time_elapsed : Q)
    (st : state H) (out : str * Q) (st1 : state H) :
  run_blocks H conf file_conf nb script_blocks example_rst time_elapsed st
    = (Ok out, st1) ->
  execute_script (vars st1)
  = execute_script (vars st) && all_completed H conf script_blocks st.
Proof.
  intros Hrun.
  destruct (execute_script (vars st1)) eqn:Hflag1.
  - destruct (flag_at_end H conf _ _ _ _ _ _ _ _ Hrun Hflag1) as [-> ->].
    reflexivity.
  - destruct (execute_script (vars st)) eqn:Hflag; [|reflexivity].
    destruct (all_completed H conf script_blocks st) eqn:Hall; [|reflexivity].
    rewrite (all_completed_flag _ _ _ _ _ _ _ _ Hrun Hflag Hall) in Hflag1.
    discriminate Hflag1.
Qed.

(** [save_thumbnail] writes no other file than the thumbnail. *)
Lemma save_thumbnail_other (image_path_template : str) (src_file : path)
    (file_conf : gmap (list ascii) literal) (p : process)
    (r : result unit) (p' : process) (q : path) :
  save_thumbnail H conf image_path_template src_file file_conf p = (r, p') ->
  (forall z,
     as_int (default (LInt 1) (file_conf !! py "thumbnail_number")) = Some z ->
     q <> thumbnail_path H image_path_template src_file z) ->
  files p' !! q = files p !! q.
Proof.
  unfold save_thumbnail, thumbnail_path. intros Hsave Hq.
  destruct (as_int _) as [thumbnail_number|].
  - specialize (Hq thumbnail_number eq_refl).
    match type of Hsave with
    | match ?chosen with _ => _ end = _ => destruct chosen as [img|]
    end.
    + destruct (scale_image img _ _ _ (files p)) as [fs|e] eqn:Hscale;
        injection Hsave as <- <-; [|reflexivity].
      cbn [files set_files].
      eapply scale_image_frame; eassumption.
    + injection Hsave as <- <-. reflexivity.
  - injection Hsave as <- <-. reflexivity.
Qed.

(** The sidecar after the part of [generate_file_rst] that follows the
    blocks: the fingerprint of the example file when the flag is set and
    the file can be read, and what it was otherwise. *)
Lemma finish_sidecar (fname target_dir src_file example_file : path)
    (file_conf : gmap (list ascii) literal) (script_blocks : list block)
    (intro : str) (argv_orig : list str) (example_rst : str)
    (time_elapsed : Q) (st : state H) :
  let sidecar := example_file ++ md5_suffix in
  (forall z,
     as_int (default (LInt 1) (file_conf !! py "thumbnail_number")) = Some z ->
     sidecar <> thumbnail_path H (image_path_template H fname target_dir)
                               src_file z) ->
  sidecar <> replace_py_ipynb H example_file ->
  sidecar <> path_join (os H) target_dir
                       (fst (path_splitext (os H) fname) ++ py ".rst") ->
  files (snd (finish H conf fname target_dir src_file example_file file_conf
                     script_blocks intro argv_orig example_rst time_elapsed
                     st)) !! sidecar
  = if execute_script (vars st)
    then match files (proc st) !! example_file with
         | Some (Bytes content) => Some (Bytes (md5_hexdigest H content))
         | _ => files (proc st) !! sidecar
         end
    else files (proc st) !! sidecar.
Proof.
  intros sidecar Hthumb Hnb Hrst. unfold finish.
  set (p0 := clean_modules (set_argv argv_orig (proc st))).
  assert (Hfiles0 : files p0 = files (proc st)) by reflexivity.
  assert (Hrest : forall p1,
    files (snd
      match save_thumbnail H conf (image_path_template H fname target_dir)
                           src_file file_conf p1 with
      | (Raise e, p) => (Raise e, p)
      | (Ok _, p) =>
        let p :=
          set_files (write (replace_py_ipynb H example_file)
                           (notebook_file H script_blocks) (files p)) p in
        let example_rst :=
          if Qle_bool (min_reported_time conf) time_elapsed
          then example_rst ++ py "**Total running time of the script:**"
               ++ format_minutes_seconds H time_elapsed ++ nl ++ nl
          else example_rst in
        let binder_badge_rst := binder_badge_rst H fname in
        let example_rst :=
          example_rst
          ++ CODE_DOWNLOAD H fname (replace_py_ipynb H fname) binder_badge_rst in
        let example_rst := example_rst ++ SPHX_GLR_SIG in
        let base_image_name := fst (path_splitext (os H) fname) in
        let p :=
          set_files (write (path_join (os H) target_dir
                                      (base_image_name ++ py ".rst"))
                           example_rst (files p)) p in
        let p :=
          if GenRst.execute_script (vars st)
          then log (Debug src_file time_elapsed) p
          else p in
        (Ok (intro, time_elapsed), p)
      end) !! sidecar = files p1 !! sidecar).
  { intros p1.
    destruct (save_thumbnail H conf _ src_file file_conf p1)
      as [[[]|e] p2] eqn:Hsave;
      apply save_thumbnail_other with (q := sidecar) in Hsave;
      try exact Hthumb; rewrite <- Hsave; [|reflexivity].
    cbv zeta. cbn [snd].
    destruct (execute_script (vars st)); cbn [files log set_files];
      unfold write; rewrite !lookup_insert_ne by congruence; reflexivity. }
  unfold write_md5sum, get_md5sum, read. rewrite Hfiles0.
  destruct (execute_script (vars st)) eqn:Hflag.
  - destruct (files (proc st) !! example_file) as [[content|i]|] eqn:Hfile;
      simpl.
    + rewrite Hrest. cbn [files set_files].
      unfold write. apply lookup_insert_eq.
    + rewrite ?Hfiles0. reflexivity.
    + rewrite ?Hfiles0. reflexivity.
  - rewrite Hrest, ?Hfiles0. reflexivity.
Qed.


End Cache.

(** ** The tee of the standard output *)

Section TeeFacts.

Import GenRst Tee Notions.

Lemma newline_is_linebreak : is_linebreak NL = true.
Proof. reflexivity. Qed.

Lemma newline_only_cases (c : ascii) :
  newline_only c = true ->
  (c = NL /\ is_linebreak c = true)
  \/ (eqc c NL = false /\ is_linebreak c = false /\ eqc c CR = false).
Proof.
  destruct c as [[] [] [] [] [] [] [] []]; vm_compute; intros Hc;
    try discriminate Hc; auto.
Qed.

Lemma splitlines_from_end (cur : str) :
  splitlines_from [] cur = if truthy cur then [rev cur] else [].
Proof. destruct cur; reflexivity. Qed.

Lemma splitlines_from_newline (s cur : str) :
  splitlines_from (NL :: s) cur = rev cur :: splitlines_from s [].
Proof.
  cbn [splitlines_from]. rewrite newline_is_linebreak.
  change (eqc NL CR) with false. cbn [andb].
  destruct s; reflexivity.
Qed.

Lemma splitlines_from_plain (c : ascii) (s cur : str) :
  is_linebreak c = false ->
  splitlines_from (c :: s) cur = splitlines_from s (c :: cur).
Proof. intros Hc. cbn [splitlines_from]. rewrite Hc. reflexivity. Qed.

(** An unfinished line before a text is read as the start of its first
    line. *)
Lemma splitlines_from_buffer (buffer : str) :
  forall data cur : str,
    forallb (fun c => negb (is_linebreak c)) buffer = true ->
    splitlines_from (buffer ++ data) cur
    = splitlines_from data (rev buffer ++ cur).
Proof.
  induction buffer as [|c buffer IH]; intros data cur Hb; [reflexivity|].
  cbn [forallb] in Hb. apply andb_prop in Hb. destruct Hb as [Hc Hb].
  apply negb_true_iff in Hc.
  cbn [app rev]. rewrite (splitlines_from_plain _ _ _ Hc), (IH _ _ Hb).
  rewrite <- app_assoc. reflexivity.
Qed.

Lemma splitlines_from_app (a : str) :
  forall b cur : str,
    forallb newline_only a = true ->
    splitlines_from (a ++ b) cur
    = complete a cur ++ splitlines_from b (pending a cur).
Proof.
  induction a as [|c a IH]; intros b cur Ha; [reflexivity|].
  cbn [forallb] in Ha. apply andb_prop in Ha. destruct Ha as [Hc Ha].
  cbn [app complete pending].
  destruct (newline_only_cases c Hc) as [[-> _]|[Hnl [Hbreak _]]].
  - rewrite splitlines_from_newline, eqc_refl, (IH _ _ Ha). reflexivity.
  - rewrite (splitlines_from_plain _ _ _ Hbreak), Hnl. apply IH. exact Ha.
Qed.

Lemma complete_app (a : str) :
  forall b cur : str,
    complete (a ++ b) cur = complete a cur ++ complete b (pending a cur).
Proof.
  induction a as [|c a IH]; intros b cur; [reflexivity|].
  cbn [app complete pending]. destruct (eqc c NL); rewrite IH; reflexivity.
Qed.

Lemma pending_app (a : str) :
  forall b cur : str, pending (a ++ b) cur = pending b (pending a cur).
Proof.
  induction a as [|c a IH]; intros b cur; [reflexivity|].
  cbn [app pending]. destruct (eqc c NL); apply IH.
Qed.

Lemma pending_plain (a : str) :
  forall cur : str,
    forallb newline_only a = true ->
    forallb (fun c => negb (is_linebreak c)) cur = true ->
    forallb (fun c => negb (is_linebreak c)) (pending a cur) = true.
Proof.
  induction a as [|c a IH]; intros cur Ha Hcur; [exact Hcur|].
  cbn [forallb] in Ha. apply andb_prop in Ha. destruct Ha as [Hc Ha].
  cbn [pending].
  destruct (newline_only_cases c Hc) as [[-> _]|[Hnl [Hbreak _]]].
  - rewrite eqc_refl. apply IH; [exact Ha|reflexivity].
  - rewrite Hnl. apply IH; [exact Ha|].
    cbn [forallb]. rewrite Hbreak, Hcur. reflexivity.
Qed.

(** The last character of a text tells whether its last line is
    unfinished. *)
Lemma last_pending (a : str) :
  forall cur : str,
    forallb newline_only a = true ->
    forallb (fun c => negb (is_linebreak c)) cur = true ->
    match last (rev cur ++ a) with
    | Some c => negb (eqc c CR || eqc c NL)
    | None => false
    end = truthy (pending a cur).
Proof.
  induction a as [|c a IH]; intros cur Ha Hcur.
  - rewrite app_nil_r. cbn [pending].
    destruct cur as [|x cur]; [reflexivity|].
    cbn [rev]. rewrite last_snoc. cbn [truthy forallb] in *.
    apply andb_prop in Hcur. destruct Hcur as [Hx _].
    destruct x as [[] [] [] [] [] [] [] []]; vm_compute in Hx |- *;
      try discriminate Hx; reflexivity.
  - cbn [forallb] in Ha. apply andb_prop in Ha. destruct Ha as [Hc Ha].
    cbn [pending].
    destruct (newline_only_cases c Hc) as [[-> _]|[Hnl [Hbreak Hcr]]].
    + rewrite eqc_refl. rewrite <- (IH [] Ha eq_refl). cbn [rev app].
      destruct a as [|x a].
      * rewrite last_snoc. reflexivity.
      * replace (rev cur ++ NL :: x :: a) with ((rev cur ++ [NL]) ++ x :: a)
          by (rewrite <- app_assoc; reflexivity).
        rewrite !last_app_cons. reflexivity.
    + rewrite Hnl. rewrite <- (IH (c :: cur) Ha).
      * cbn [rev]. rewrite <- app_assoc. reflexivity.
      * cbn [forallb]. rewrite Hbreak, Hcur. reflexivity.
Qed.


Lemma forallb_concat {A} (f : A -> bool) (ls : list (list A)) :
  Forall (fun l => forallb f l = true) ls -> forallb f (concat ls) = true.
Proof.
  induction 1 as [|l ls Hl _ IH]; [reflexivity|].
  cbn [concat]. rewrite forallb_app, Hl, IH. reflexivity.
Qed.

Lemma truthy_rev (s : str) : truthy (rev s) = truthy s.
Proof.
  destruct s as [|c s]; [reflexivity|]. cbn [rev truthy].
  destruct (rev s); reflexivity.
Qed.

(** One write after the text [total], of which the tee holds the
    unfinished line. *)
Lemma write_step (t : logging_tee) (total data : str) :
  forallb newline_only total = true ->
  forallb newline_only data = true ->
  logger_buffer t = rev (pending total []) ->
  write data t
  = LoggingTee_ (output_file t ++ data)
      ((if first_write t
        then verbose t ++ [py "Output from " ++ src_filename t]
        else verbose t)
       ++ complete data (pending total []))
      (src_filename t) false
      (rev (pending (total ++ data) [])).
Proof.
  intros Htotal Hdata Hbuffer.
  assert (Hplain :
    forallb (fun c => negb (is_linebreak c)) (pending total []) = true)
    by (apply pending_plain; [exact Htotal|reflexivity]).
  unfold write. rewrite Hbuffer.
  rewrite (last_pending data (pending total []) Hdata Hplain).
  unfold splitlines.
  rewrite splitlines_from_buffer by (rewrite forallb_rev; exact Hplain).
  rewrite rev_involutive, app_nil_r.
  pose proof (splitlines_from_app data [] (pending total []) Hdata) as Hsplit.
  rewrite app_nil_r in Hsplit. rewrite Hsplit, splitlines_from_end.
  rewrite pending_app.
  destruct (truthy (pending data (pending total []))) eqn:Hpend.
  - rewrite removelast_last, last_last. reflexivity.
  - rewrite app_nil_r.
    destruct (pending data (pending total [])); [reflexivity|discriminate Hpend].
Qed.

Lemma writes_state (src : path) (writes : list str) :
  Forall (fun data => forallb newline_only data = true) writes ->
  fold_left (fun t data => write data t) writes (init src)
  = LoggingTee_ (concat writes)
      (match writes with [] => [] | _ => [py "Output from " ++ src] end
       ++ complete (concat writes) [])
      src
      (match writes with [] => true | _ => false end)
      (rev (pending (concat writes) [])).
Proof.
  induction writes as [|data writes IH] using rev_ind; intros Hall;
    [reflexivity|].
  apply Forall_app in Hall. destruct Hall as [Hwrites Hdata].
  inversion Hdata as [|? ? Hd _]; subst.
  rewrite fold_left_app. cbn [fold_left]. rewrite (IH Hwrites).
  erewrite (write_step _ (concat writes) data
              (forallb_concat _ _ Hwrites) Hd); [|reflexivity].
  cbn [output_file verbose src_filename first_write].
  rewrite concat_app. cbn [concat]. rewrite app_nil_r.
  rewrite complete_app.
  destruct writes as [|w ws].
  - cbn [app concat complete pending]. reflexivity.
  - cbn [app]. reflexivity.
Qed.

(** X17.  The writes of a block to a [LoggingTee], followed by the
    flush: the output file holds what was written, in order; and when the
    only line boundary in what was written is the newline, the logger has
    received one message that names the source file (if anything was
    written) and then the lines of what was written, whatever the way the
    text was cut into writes; no text is left in the buffer. *)
Theorem tee_lines (src : path) (writes : list str) :
  Forall (fun data => forallb newline_only data = true) writes ->
  let t := tee_all src writes in
  output_file t = concat writes
  /\ verbose t
     = match writes with [] => [] | _ => [py "Output from " ++ src] end
       ++ splitlines (concat writes)
  /\ logger_buffer t = [].
Proof.
  intros Hall t. subst t. unfold tee_all. rewrite (writes_state src writes Hall).
  unfold flush. cbn [logger_buffer output_file verbose].
  rewrite truthy_rev. unfold splitlines.
  pose proof (splitlines_from_app (concat writes) [] []
                (forallb_concat _ _ Hall)) as Hsplit.
  rewrite app_nil_r in Hsplit. rewrite Hsplit, splitlines_from_end.
  destruct (truthy (pending (concat writes) [])) eqn:Hpend.
  - cbn [output_file verbose logger_buffer]. rewrite <- app_assoc.
    split; [reflexivity|]. split; reflexivity.
  - cbn [output_file verbose logger_buffer]. rewrite app_nil_r.
    split; [reflexivity|]. split; [reflexivity|].
    destruct (pending (concat writes) []); [reflexivity|discriminate Hpend].
Qed.

End TeeFacts.

(** ** Line boundaries in the tee, and the count of figures *)

Section TeeBoundaries.

Import GenRst Tee Notions.

Lemma plain_not_crlf (c : ascii) :
  is_linebreak c = false -> eqc c CR || eqc c NL = false.
Proof.
  destruct c as [[] [] [] [] [] [] [] []]; vm_compute; intros Hc;
    try discriminate Hc; reflexivity.
Qed.

Lemma splitlines_plain (s : str) :
  forallb (fun c => negb (is_linebreak c)) s = true ->
  splitlines s = if truthy s then [s] else [].
Proof.
  intros Hs. unfold splitlines.
  rewrite <- (app_nil_r s) at 1.
  rewrite (splitlines_from_buffer s [] [] Hs), app_nil_r.
  rewrite splitlines_from_end, truthy_rev, rev_involutive. reflexivity.
Qed.

Lemma last_plain (s : str) (x : ascii) :
  forallb (fun c => negb (is_linebreak c)) s = true ->
  last s = Some x -> eqc x CR || eqc x NL = false.
Proof.
  intros Hs Hlast. apply plain_not_crlf.
  destruct s as [|c s] using rev_ind; [discriminate Hlast|].
  rewrite last_snoc in Hlast. injection Hlast as <-.
  rewrite forallb_app in Hs. apply andb_prop in Hs. destruct Hs as [_ Hc].
  cbn [forallb] in Hc. rewrite andb_true_r in Hc.
  apply negb_true_iff in Hc. exact Hc.
Qed.

(** A write that ends no line is kept in the buffer. *)
Lemma write_plain (data : str) (t : logging_tee) :
  forallb (fun c => negb (is_linebreak c)) (logger_buffer t ++ data) = true ->
  logger_buffer t ++ data <> [] ->
  write data t
  = LoggingTee_ (output_file t ++ data)
      (if first_write t
       then verbose t ++ [py "Output from " ++ src_filename t]
       else verbose t)
      (src_filename t) false (logger_buffer t ++ data).
Proof.
  intros Hplain Hne. unfold write.
  rewrite (splitlines_plain _ Hplain).
  destruct (last (logger_buffer t ++ data)) as [x|] eqn:Hlast.
  - rewrite (last_plain _ _ Hplain Hlast).
    destruct (logger_buffer t ++ data) as [|c s]; [congruence|].
    cbn [negb truthy removelast List.last]. rewrite app_nil_r. reflexivity.
  - apply last_None in Hlast. congruence.
Qed.

(** X22.  A write that ends with a line boundary other than the
    carriage return and the newline (a form feed, say) is taken for an
    unfinished line: the text before the boundary waits in the buffer
    without the boundary, and the logger receives it joined with the next
    write as one line, where the text written has two lines. *)
Theorem tee_boundary_lost (src a b : str) (c : ascii) :
  is_linebreak c = true -> eqc c CR = false -> eqc c NL = false ->
  forallb (fun x => negb (is_linebreak x)) a = true ->
  forallb (fun x => negb (is_linebreak x)) b = true ->
  a <> [] ->
  verbose (tee_all src [a ++ [c]; b]) = [py "Output from " ++ src; a ++ b]
  /\ splitlines (concat [a ++ [c]; b]) = a :: splitlines b.
Proof.
  intros Hc Hcr Hnl Ha Hb Hne. split.
  - unfold tee_all. cbn [fold_left].
    assert (Hfirst :
      write (a ++ [c]) (init src)
      = LoggingTee_ (a ++ [c]) [py "Output from " ++ src] src false a).
    { unfold write, init.
      cbn [output_file verbose src_filename first_write logger_buffer app].
      unfold splitlines.
      rewrite (splitlines_from_buffer a [c] [] Ha), app_nil_r.
      cbn [splitlines_from]. rewrite Hc, rev_involutive.
      rewrite last_snoc, Hcr, Hnl.
      cbn [orb negb removelast List.last app]. reflexivity. }
    rewrite Hfirst.
    rewrite write_plain;
      cbn [output_file verbose src_filename first_write logger_buffer].
    + unfold flush. cbn [logger_buffer].
      destruct (a ++ b) as [|x s] eqn:Hab.
      * destruct a; [congruence|discriminate Hab].
      * reflexivity.
    + rewrite forallb_app, Ha, Hb. reflexivity.
    + destruct a; [congruence|discriminate].
  - cbn [concat]. rewrite app_nil_r. unfold splitlines.
    rewrite <- app_assoc.
    rewrite (splitlines_from_buffer a ([c] ++ b) [] Ha), app_nil_r.
    cbn [app splitlines_from]. rewrite Hc, rev_involutive, Hcr.
    cbn [andb]. destruct b; reflexivity.
Qed.

End TeeBoundaries.

Section FigCount.

Import SourceParser GenRst Spec Notions.

Variable H : host.
Variable conf : gallery_conf.

(** X23.  When a block that is run ends without exception and its
    figures are saved, [fig_count] has grown by the number of matplotlib
    figures that the block left open, plus the number of mayavi scenes
    when [find_mayavi_figures] is set; and the time returned is the time
    that the block ran. *)
Theorem fig_count_advances (code_block : str) (lineno : nat)
    (st : state H) (elapsed : Q) (r : str * Q) (st' : state H) :
  execute_script (vars st) = true ->
  ending (executed H code_block lineno st) = Completed elapsed ->
  execute_code_block H conf code_block lineno st = (Ok r, st') ->
  let ran := process_after (executed H code_block lineno st) in
  fig_count (vars st')
  = fig_count (vars st) + length (figures ran)
    + (if find_mayavi_figures conf then length (scenes ran) else 0)
  /\ snd r = elapsed.
Proof.
  intros Hflag Hend Hcall ran. subst ran.
  unfold executed, prepare in *. simpl in Hend |- *.
  unfold execute_code_block in Hcall. rewrite Hflag in Hcall.
  simpl in Hcall. unfold try_finally in Hcall. simpl in Hcall.
  rewrite Hend in Hcall.
  set (x := py_exec H code_block lineno _ _ _) in *.
  unfold save_figures in Hcall. simpl in Hcall.
  pose proof (save_matplotlib_length (image_path (vars st))
                (fig_count (vars st)) (figures (process_after x)) []
                (files (process_after x))) as Hlen.
  destruct (save_matplotlib _ _ (figures (process_after x)) [] _)
    as [figure_list fs].
  cbn [fst length] in Hlen.
  destruct (find_mayavi_figures conf).
  - simpl in Hcall.
    destruct (save_mayavi _ _ figure_list _) as [[saved|e] fs1] eqn:Hmayavi;
      [|discriminate Hcall].
    apply save_mayavi_length in Hmayavi.
    rewrite length_combine, length_seq in Hmayavi.
    injection Hcall as <- <-. unfold figure_rst. simpl.
    split; [lia|reflexivity].
  - injection Hcall as <- <-. unfold figure_rst. simpl.
    split; [lia|reflexivity].
Qed.

End FigCount.

(** ** A file that does not parse, and the document of a file *)

Section SyntaxError.

Import Re SourceParser GenRst Spec Notions.

Variable ast_parse : str -> parsing.
Variable decode_utf8 : str -> option str.
Variable literal_eval : str -> evaluation.
Variable fs : filesystem.

(** X24.  A source file that does not parse is split all the same: its
    first block is the synthetic docstring at line 1, so that the entry
    of the file in the gallery has the title [SyntaxError] and the
    introduction of that docstring. *)
Theorem syntax_error_entry (source_file fname : path) (raw : str)
    (file_conf : gmap (list ascii) literal) (blocks : list block) :
  fs !! source_file = Some (Bytes raw) ->
  ast_parse (normalized raw) = ParseSyntaxError ->
  split_code_and_text_blocks ast_parse decode_utf8 literal_eval fs source_file
    = Ok (file_conf, blocks) ->
  head blocks = Some (text, SYNTAX_ERROR_DOCSTRING, 1)
  /\ extract_intro_and_title fname (content_of (hd (text, [], 1) blocks))
     = Ok (py "Example script with invalid Python syntax ", py "SyntaxError").
Proof.
  intros Hfile Hparse Hsplit.
  destruct (decode_utf8 (normalized raw)) as [chars|] eqn:Htext.
  2:{ unfold split_code_and_text_blocks, get_docstring_and_rest in Hsplit.
      rewrite (parse_source_file_undecodable ast_parse decode_utf8 fs _ _
                 Hfile Htext), Hparse in Hsplit.
      discriminate Hsplit. }
  assert (Hdoc : get_docstring_and_rest ast_parse decode_utf8 fs source_file
                 = Ok (SYNTAX_ERROR_DOCSTRING, chars, 1)).
  { unfold get_docstring_and_rest.
    rewrite (parse_source_file_text ast_parse decode_utf8 fs _ _ _
               Hfile Htext), Hparse.
    reflexivity. }
  unfold split_code_and_text_blocks in Hsplit. rewrite Hdoc in Hsplit.
  simpl in Hsplit.
  destruct (extract_file_config literal_eval chars) as [conf'|e];
    simpl in Hsplit; [|discriminate Hsplit].
  destruct (split_loop_adds chars
              (finditer pattern chars)
              (SplitState [(text, SYNTAX_ERROR_DOCSTRING, 1)] 1 0))
    as [added [Heq _]].
  rewrite Heq in Hsplit. cbn [st_blocks app] in Hsplit.
  assert (Hblocks : exists others,
            blocks = (text, SYNTAX_ERROR_DOCSTRING, 1) :: others).
  { destruct (truthy _); injection Hsplit as _ <-; eexists; reflexivity. }
  destruct Hblocks as [others ->]. split; [reflexivity|].
  cbn [hd]. unfold content_of. cbn [fst snd].
  vm_compute. reflexivity.
Qed.

End SyntaxError.

Section Document.

Import SourceParser GenRst Spec Notions.

Variable H : host.
Variable conf : gallery_conf.

(** The loop over the blocks only adds to the document. *)
Lemma run_blocks_appends (file_conf : gmap (list ascii) literal) (nb : bool)
    (script_blocks : list block) :
  forall (example_rst : str) (time_elapsed : Q) (st : state H)
         (example_rst' : str) (time_elapsed' : Q) (st' : state H),
    run_blocks H conf file_conf nb script_blocks example_rst time_elapsed st
      = (Ok (example_rst', time_elapsed'), st') ->
    exists added, example_rst' = example_rst ++ added.
Proof.
  induction script_blocks as [|[[blabel bcontent] lineno] rest IH];
    intros example_rst time_elapsed st example_rst' time_elapsed' st' Hrun;
    cbn [run_blocks] in Hrun.
  - injection Hrun as <- _ _. exists []. rewrite app_nil_r. reflexivity.
  - destruct blabel.
    + apply IH in Hrun. destruct Hrun as [added ->].
      eexists. rewrite <- !app_assoc. reflexivity.
    + unfold mbind, ST_bind in Hrun.
      destruct (execute_code_block H conf bcontent lineno st)
        as [[[code_output rtime]|e] st1]; [|discriminate Hrun].
      apply IH in Hrun. destruct Hrun as [added ->].
      destruct nb.
      * eexists. rewrite <- !app_assoc. reflexivity.
      * destruct (contains _ code_output);
          eexists; rewrite <- !app_assoc; reflexivity.
Qed.

(** X25.  When the part of [generate_file_rst] that follows the test
    of the fingerprint returns, it returns the introduction that it was
    given, and the file [<base>.rst] of the target directory holds a
    document that starts with the reference target of the example and
    ends with the download links and the signature. *)
Theorem document_written (fname target_dir src_file example_file : path)
    (file_conf : gmap (list ascii) literal) (script_blocks : list block)
    (intro : str) (p : process) (out : str * Q) (p' : process) :
  regenerate H conf fname target_dir src_file example_file file_conf
             script_blocks intro p = (Ok out, p') ->
  fst out = intro
  /\ exists body,
       files p' !! path_join (os H) target_dir
                     (fst (path_splitext (os H) fname) ++ py ".rst")
       = Some (Bytes (reference_target H conf example_file ++ body
                      ++ CODE_DOWNLOAD H fname (replace_py_ipynb H fname)
                           (binder_badge_rst H fname)
                      ++ SPHX_GLR_SIG)).
Proof.
  unfold regenerate, finish.
  generalize (reference_target H conf example_file) as label.
  generalize SPHX_GLR_SIG as signature.
  generalize (py "**Total running time of the script:**") as banner.
  intros banner signature label Hgen.
  destruct (run_blocks H conf _ _ _ _ _ _) as [[[example_rst t]|e] st]
    eqn:Hrun; [|discriminate Hgen].
  apply run_blocks_appends in Hrun. destruct Hrun as [added ->].
  destruct (write_md5sum H (vars st) example_file _) as [p1|e];
    [|discriminate Hgen].
  destruct (save_thumbnail H conf _ src_file file_conf p1) as [[[]|e] p2];
    [|discriminate Hgen].
  injection Hgen as <- <-. split; [reflexivity|].
  exists (added ++ if Qle_bool (min_reported_time conf) t
                   then banner ++ format_minutes_seconds H t ++ nl ++ nl
                   else []).
  assert (Hfiles : forall (b : bool) (e : event) (q : process),
            files (if b then log e q else q) = files q)
    by (intros [] ? ?; reflexivity).
  rewrite Hfiles. cbn [files set_files]. unfold write.
  rewrite lookup_insert_eq. f_equal. f_equal.
  destruct (Qle_bool (min_reported_time conf) t).
  - rewrite <- !app_assoc. reflexivity.
  - rewrite app_nil_r, <- !app_assoc. reflexivity.
Qed.

End Document.

(** ** Indentation *)

Section Indent.

Import GenRst Spec Notions.

Lemma splitlines_keep_concat (s : str) :
  forall cur : str, concat (splitlines_keep s cur) = rev cur ++ s.
Proof.
  induction s as [|c s IH]; intros cur; cbn [splitlines_keep].
  - destruct cur as [|x cur]; [reflexivity|].
    cbn [concat]. rewrite !app_nil_r. reflexivity.
  - destruct (eqc c (chr 13) && startswith nl s).
    + rewrite IH. cbn [rev]. rewrite <- app_assoc. reflexivity.
    + destruct (is_linebreak c).
      * cbn [concat]. rewrite IH. cbn [rev app]. rewrite <- app_assoc.
        reflexivity.
      * rewrite IH. cbn [rev]. rewrite <- app_assoc. reflexivity.
Qed.

Lemma splitlines_keep_plain (l : str) :
  forall (s cur : str),
    plain l = true ->
    splitlines_keep (l ++ s) cur = splitlines_keep s (rev l ++ cur).
Proof.
  induction l as [|c l IH]; intros s cur Hl; [reflexivity|].
  unfold plain in Hl. cbn [forallb] in Hl. apply andb_prop in Hl.
  destruct Hl as [Hc Hl]. apply negb_true_iff in Hc.
  cbn [app splitlines_keep].
  assert (Hcr : eqc c (chr 13) = false).
  { destruct (eqc c (chr 13)) eqn:E; [|reflexivity].
    apply eqc_true in E. subst c. discriminate Hc. }
  rewrite Hcr, Hc. cbn [andb]. rewrite (IH s (c :: cur) Hl).
  cbn [rev]. rewrite <- app_assoc. reflexivity.
Qed.

Lemma splitlines_keep_newline (s cur : str) :
  splitlines_keep (NL :: s) cur = rev (NL :: cur) :: splitlines_keep s [].
Proof. reflexivity. Qed.

(** The lines of a text whose only line boundary is the newline, each
    with a text without line boundary put before it, are the lines of
    their concatenation. *)
Lemma resplit (f : str -> str) (text : str) :
  (forall line, exists pre, f line = pre ++ line /\ plain pre = true) ->
  forall cur : str,
    forallb newline_only text = true -> plain cur = true ->
    splitlines_keep (concat (map f (splitlines_keep text cur))) []
    = map f (splitlines_keep text cur).
Proof.
  intros Hf. induction text as [|c text IH]; intros cur Htext Hcur.
  - cbn [splitlines_keep]. destruct cur as [|x cur]; [reflexivity|].
    cbn [map concat]. rewrite app_nil_r.
    destruct (Hf (rev (x :: cur))) as [pre [-> Hpre]].
    rewrite <- (app_nil_r (pre ++ rev (x :: cur))) at 1.
    rewrite splitlines_keep_plain.
    + cbn [splitlines_keep]. rewrite app_nil_r.
      destruct (rev (pre ++ rev (x :: cur))) as [|y l] eqn:Hrev.
      * apply (f_equal (@length ascii)) in Hrev.
        rewrite length_rev, length_app, length_rev in Hrev.
        cbn [length] in Hrev. lia.
      * rewrite <- Hrev, rev_involutive. reflexivity.
    + unfold plain in *. rewrite forallb_app, Hpre, forallb_rev, Hcur.
      reflexivity.
  - cbn [forallb] in Htext. apply andb_prop in Htext.
    destruct Htext as [Hc Htext].
    destruct (newline_only_cases c Hc) as [[-> _]|[Hnl [Hbreak Hcr]]].
    + rewrite splitlines_keep_newline. cbn [map concat].
      destruct (Hf (rev (NL :: cur))) as [pre [-> Hpre]].
      cbn [rev]. rewrite <- !app_assoc. cbn [app].
      rewrite (app_assoc pre).
      rewrite splitlines_keep_plain
        by (unfold plain in *; rewrite forallb_app, Hpre, forallb_rev, Hcur;
            reflexivity).
      rewrite splitlines_keep_newline, (IH [] Htext eq_refl).
      cbn [rev]. rewrite app_nil_r, rev_app_distr, rev_involutive.
      cbn [rev app]. rewrite rev_app_distr, rev_involutive.
      rewrite <- !app_assoc. reflexivity.
    + cbn [splitlines_keep]. change (chr 13) with Tee.CR.
      rewrite Hcr, Hbreak. cbn [andb].
      apply IH; [exact Htext|].
      unfold plain in *. cbn [forallb]. rewrite Hbreak, Hcur. reflexivity.
Qed.

Lemma nonblank_app (a b : str) : nonblank (a ++ b) = nonblank a || nonblank b.
Proof. unfold nonblank. apply existsb_app. Qed.

Lemma startswith_app (p l : str) : startswith p (p ++ l) = true.
Proof.
  induction p as [|c p IH]; [reflexivity|].
  cbn [app startswith]. rewrite eqc_refl. exact IH.
Qed.

(** X26.  [indent] on a text whose only line boundary is the newline,
    with a prefix that holds no line boundary: every line of the result
    that is not blank starts with the prefix, and the text is recovered
    by removing the prefix from these lines; no character is lost. *)
Theorem indent_round_trip (text prefix : str) :
  forallb newline_only text = true ->
  forallb (fun c => negb (is_linebreak c)) prefix = true ->
  let lines := splitlines_keep (indent text prefix) [] in
  Forall (fun line => nonblank line = true -> startswith prefix line = true)
         lines
  /\ concat (map (unindent prefix) lines) = text.
Proof.
  intros Htext Hprefix lines. subst lines. unfold indent.
  set (f := fun line : str =>
              if truthy (strip line) then prefix ++ line else line).
  assert (Hf : forall line, exists pre,
            f line = pre ++ line /\ plain pre = true).
  { intros line. unfold f. destruct (truthy (strip line)).
    - exists prefix. split; [reflexivity|exact Hprefix].
    - exists []. split; reflexivity. }
  rewrite (resplit f text Hf [] Htext eq_refl).
  split.
  - apply Forall_map. apply Forall_forall. intros line _.
    unfold f. rewrite truthy_strip.
    destruct (nonblank line) eqn:Hline; [intros _; apply startswith_app|].
    intros Hnb. congruence.
  - assert (Hback : forall line, unindent prefix (f line) = line).
    { intros line. unfold f, unindent. rewrite truthy_strip.
      destruct (nonblank line) eqn:Hline.
      - rewrite nonblank_app, Hline, orb_true_r. apply drop_app_length.
      - rewrite Hline. reflexivity. }
    rewrite map_map.
    assert (Hid : forall l : list str,
              map (fun line => unindent prefix (f line)) l = l).
    { induction l as [|line l IHl]; [reflexivity|].
      cbn [map]. rewrite Hback, IHl. reflexivity. }
    rewrite Hid. apply (splitlines_keep_concat text []).
Qed.

End Indent.

(** ** The further properties on concrete files *)

Section Instances.

Import Re SourceParser GenRst Spec Examples Layout Notions Samples.


Lemma sections_blocks_witness :
  split_code_and_text_blocks parse decode_utf8 literal_eval sources
    (py "/doc/examples/sections.py")
  = Ok (∅, (text, py "Two sections", 1)
           :: blocks_from [py "x = 1"] sections_layout 2).
Proof.
  apply (sections_blocks parse decode_utf8 literal_eval sources
           (py "/doc/examples/sections.py") (py "Two sections") 2
           [py "x = 1"] sections_layout ∅).
  - vm_compute. reflexivity.
  - vm_compute. reflexivity.
  - repeat constructor.
  - reflexivity.
Defined.

Lemma start_lines_sorted_witness :
  StronglySorted le
    (map lineno_of
       [ (text, lines ["Title"; "====="; ""; "Intro text"], 1);
         (code, py "x = 1" ++ nl, 5);
         (text, py "Some text" ++ nl, 7) ])
  /\ Forall (fun b => 1 <= lineno_of b)
       [ (text, lines ["Title"; "====="; ""; "Intro text"], 1);
         (code, py "x = 1" ++ nl, 5);
         (text, py "Some text" ++ nl, 7) ].
Proof.
  apply (start_lines_sorted ast_parse decode_utf8 literal_eval
           (files (process_ (py "narrative.py") narrative_nl_py))
           (py "/doc/examples/narrative.py") ∅).
  vm_compute. reflexivity.
Defined.

Lemma docstring_rest_witness :
  get_docstring_and_rest parse decode_utf8 sources
    (py "/doc/examples/sections.py")
  = Ok (py "Two sections",
        lines [ "x = 1"; hashes; "# First"; "y = 2";
                (hashes ++ " tail")%string; "# Second"; "#"; "z = 3"; "" ],
        1 + 1).
Proof.
  apply (docstring_rest parse decode_utf8 sources
           (py "/doc/examples/sections.py") sections_py sections_py
           (Module_ [Expr (Str (py "Two sections")) 1; OtherStmt])
           (py "Two sections") 1 [OtherStmt]
           ([DQUOTE] ++ py "Two sections" ++ [DQUOTE])
           (lines [ "x = 1"; hashes; "# First"; "y = 2";
                    (hashes ++ " tail")%string; "# Second"; "#"; "z = 3";
                    "" ])).
  - vm_compute. reflexivity.
  - vm_compute. reflexivity.
  - vm_compute. reflexivity.
  - reflexivity.
  - vm_compute. discriminate.
  - vm_compute. reflexivity.
  - vm_compute. reflexivity.
Defined.

Lemma docstring_rest_last_line_witness :
  exists before rest,
    get_docstring_and_rest parse decode_utf8 sources
      (py "/doc/examples/one.py")
      = Ok (py "Doc", rest, 1 + 1)
    /\ one_line_py = before ++ rest
    /\ count NL rest = 0
    /\ (before = [] \/ exists b, before = b ++ nl)
    /\ (rest = [] <-> one_line_py = [] \/ exists b, one_line_py = b ++ nl).
Proof.
  apply (docstring_rest_last_line parse decode_utf8 sources
           (py "/doc/examples/one.py") one_line_py one_line_py
           (Module_ [Expr (Str (py "Doc")) 1]) (py "Doc") 1 []).
  - vm_compute. reflexivity.
  - vm_compute. reflexivity.
  - vm_compute. reflexivity.
  - reflexivity.
  - vm_compute. discriminate.
  - vm_compute. lia.
Defined.

Lemma file_config_last_wins_witness :
  exists file_conf,
    extract_file_config literal_eval twice = Ok file_conf
    /\ (forall name, name ∉ map fst twice_values -> file_conf !! name = None)
    /\ (forall vs1 name v vs2,
          twice_values = vs1 ++ (name, v) :: vs2 -> name ∉ map fst vs2 ->
          file_conf !! name = Some v).
Proof.
  apply (file_config_last_wins literal_eval twice twice_values).
  vm_compute. reflexivity.
Defined.

Lemma invalid_directive_raises_witness :
  extract_file_config literal_eval unterminated = Raise (NameError "logger").
Proof.
  apply (invalid_directive_raises literal_eval unterminated).
  - let ms := eval vm_compute in (finditer prop_pat unterminated) in
    change (finditer prop_pat unterminated) with ms.
    constructor. left. vm_compute. reflexivity.
  - let ms := eval vm_compute in (finditer prop_pat unterminated) in
    change (finditer prop_pat unterminated) with ms.
    repeat constructor. intros e. vm_compute. discriminate.
Defined.

Lemma intro_single_line_witness :
  count NL (py "Figures") = 0 /\ length (py "Figures") <= 98.
Proof.
  apply (intro_single_line (py "plot.py") (py "Figures") (py "Figures")
           (py "Figures")).
  vm_compute. reflexivity.
Defined.

Lemma title_first_line_witness :
  exists intro,
    extract_intro_and_title (py "narrative.py")
      ("T"%char :: py "itle" ++ nl ++ py "=====")
    = Ok (intro, strip ("T"%char :: py "itle")).
Proof.
  apply (title_first_line (py "narrative.py") "T"%char (py "itle")
           (nl ++ py "=====")); reflexivity.
Defined.

Lemma blank_docstring_no_title_witness :
  extract_intro_and_title (py "blank.py") [SPACE]
  = Raise (ValueError
             (py "Example docstring should have a header for the example title. Please check the example file:"
              ++ nl ++ py " " ++ py "blank.py" ++ nl)).
Proof.
  apply (blank_docstring_no_title (py "blank.py") [SPACE]). reflexivity.
Defined.

Lemma lineno_start_first_code_line_witness :
  leading_blank_lines ((nl ++ nl) ++ "x"%char :: py " = 1") = count NL (nl ++ nl)
  /\ codestr2rst (conf_ false) ((nl ++ nl) ++ "x"%char :: py " = 1")
                 (py "python") (Some 5)
     = (nl ++ py ".. code-block:: " ++ py "python" ++ nl
        ++ (py "   :lineno-start: " ++ str_of_nat (5 + count NL (nl ++ nl))
            ++ nl)
        ++ nl)
       ++ indent ((nl ++ nl) ++ "x"%char :: py " = 1") (repeat SPACE 4).
Proof.
  apply (lineno_start_first_code_line (conf_ false) (nl ++ nl) "x"%char
           (py " = 1") (py "python") 5); reflexivity.
Defined.

Lemma md5sum_round_trip_witness :
  let p := process_ (py "plot.py") plot_py in
  let p' :=
    set_files (Fs.write (py "/doc/examples/plot.py" ++ md5_suffix)
                        (digest plot_py) (files p)) p in
  md5sum_is_current digest (files p') (py "/doc/examples/plot.py") = Ok true
  /\ forall q : path,
       q <> py "/doc/examples/plot.py" ++ md5_suffix ->
       files p' !! q = files p !! q.
Proof.
  intros p p'.
  apply (md5sum_round_trip host_ (vars_ (py "plot.py"))
           (py "/doc/examples/plot.py") p p').
  - reflexivity.
  - vm_compute. reflexivity.
Defined.

Lemma scale_image_thumbnail_witness :
  exists width_sc height_sc,
    scale_image thumb_png (py "/doc/auto/images/thumb/b.png") 400 280
                pictures_
      = Ok (<[py "/doc/auto/images/thumb/b.png" :=
               Image (Canvas 400 280 (Resized picture_ width_sc height_sc)
                             ((400 - width_sc) / 2) ((280 - height_sc) / 2))]>
              pictures_)
    /\ (0 <= width_sc <= 400)%Z
    /\ (0 <= height_sc <= 280)%Z
    /\ (width_sc = 400 \/ height_sc = 280)%Z
    /\ (0 <= (400 - width_sc) / 2)%Z
    /\ (0 <= (280 - height_sc) / 2)%Z.
Proof.
  apply (scale_image_thumbnail pictures_ thumb_png
           (py "/doc/auto/images/thumb/b.png") 400 280 picture_).
  - vm_compute. reflexivity.
  - reflexivity.
  - reflexivity.
  - reflexivity.
  - reflexivity.
  - vm_compute. discriminate.
Defined.


Lemma save_figures_count_witness :
  let out := save_figures Posix.posixpath plot_images 0 (conf_ false)
                          one_figure in
  1 = length (figures one_figure)
      + (if find_mayavi_figures (conf_ false)
         then length (scenes one_figure) else 0)
  /\ figures (snd out) = figures one_figure
  /\ scenes (snd out)
     = (if find_mayavi_figures (conf_ false) then [] else scenes one_figure).
Proof.
  intros out.
  apply (save_figures_count Posix.posixpath plot_images 0 (conf_ false)
           one_figure
           (fst (figure_rst Posix.posixpath [format_image_path plot_images 1]
                            (py "/doc")))
           1 (snd out)).
  vm_compute. reflexivity.
Defined.

Lemma tee_lines_witness :
  let writes := [py "a"; py "b" ++ nl ++ py "c"; nl] in
  let t := Tee.tee_all (py "/doc/examples/plot.py") writes in
  Tee.output_file t = concat writes
  /\ Tee.verbose t
     = [py "Output from " ++ py "/doc/examples/plot.py"]
       ++ Tee.splitlines (concat writes)
  /\ Tee.logger_buffer t = [].
Proof.
  intros writes.
  apply (tee_lines (py "/doc/examples/plot.py") writes).
  repeat constructor.
Defined.

Lemma generate_file_rst_no_docstring_witness :
  let p := process_ (py "nodoc.py") no_doc_py in
  let src_file :=
    path_normpath (os host_) (path_join (os host_) src_dir_ (py "nodoc.py")) in
  let example_file := path_join (os host_) target_dir_ (py "nodoc.py") in
  generate_file_rst host_ (conf_ false) (py "nodoc.py") target_dir_ src_dir_ p
  = (Raise (missing_docstring src_file),
     set_files (<[example_file := Bytes no_doc_py]> (files p)) p).
Proof.
  intros p.
  apply (generate_file_rst_no_docstring host_ (conf_ false) (py "nodoc.py")
           target_dir_ src_dir_ p no_doc_py no_doc_py
           (Module_ [OtherStmt])).
  - vm_compute. reflexivity.
  - vm_compute. reflexivity.
  - vm_compute. reflexivity.
  - reflexivity.
Defined.

Lemma generate_file_rst_not_executed_witness :
  let p := process_ (py "plot.py") plot_py in
  let out :=
    generate_file_rst host_ conf_no_plot (py "plot.py") target_dir_ src_dir_
                      p in
  (only_files p (snd out) \/ only_files (clean_modules p) (snd out))
  /\ forall intro time_elapsed,
       fst out = Ok (intro, time_elapsed) -> (time_elapsed == 0)%Q.
Proof.
  intros p.
  apply (generate_file_rst_not_executed host_ conf_no_plot (py "plot.py")
           target_dir_ src_dir_ p).
  reflexivity.
Defined.

Lemma tee_boundary_lost_witness :
  Tee.verbose (Tee.tee_all (py "/doc/examples/plot.py")
                 [py "a" ++ [chr 12]; py "b"])
  = [py "Output from " ++ py "/doc/examples/plot.py"; py "a" ++ py "b"]
  /\ Tee.splitlines (concat [py "a" ++ [chr 12]; py "b"])
     = py "a" :: Tee.splitlines (py "b").
Proof.
  apply (tee_boundary_lost (py "/doc/examples/plot.py") (py "a") (py "b")
           (chr 12)); try reflexivity.
  vm_compute. discriminate.
Defined.

Lemma fig_count_advances_witness :
  exists r st',
    execute_code_block host_ (conf_ false) (py "plt.figure(2)" ++ nl) 2
                       (state_ (py "plot.py") plot_py)
    = (Ok r, st')
    /\ let ran :=
         process_after (executed host_ (py "plt.figure(2)" ++ nl) 2
                                 (state_ (py "plot.py") plot_py)) in
       fig_count (vars st')
       = fig_count (vars (state_ (py "plot.py") plot_py))
         + length (figures ran)
         + (if find_mayavi_figures (conf_ false)
            then length (scenes ran) else 0)
       /\ snd r = (1 # 2)%Q.
Proof.
  destruct (execute_code_block host_ (conf_ false) (py "plt.figure(2)" ++ nl)
              2 (state_ (py "plot.py") plot_py)) as [[r|e] st'] eqn:Hcall.
  - exists r, st'. split; [reflexivity|].
    apply (fig_count_advances host_ (conf_ false)
             (py "plt.figure(2)" ++ nl) 2 (state_ (py "plot.py") plot_py)
             (1 # 2)%Q r st').
    + reflexivity.
    + vm_compute. reflexivity.
    + exact Hcall.
  - exfalso.
    assert (Hok :
      is_ok (fst (execute_code_block host_ (conf_ false)
                    (py "plt.figure(2)" ++ nl) 2
                    (state_ (py "plot.py") plot_py))) = true)
      by (vm_compute; reflexivity).
    rewrite Hcall in Hok. discriminate Hok.
Defined.

Lemma syntax_error_entry_witness :
  head [ (text, SYNTAX_ERROR_DOCSTRING, 1); (code, broken_py, 1) ]
  = Some (text, SYNTAX_ERROR_DOCSTRING, 1)
  /\ extract_intro_and_title (py "broken.py")
       (content_of
          (hd (text, [], 1)
              [ (text, SYNTAX_ERROR_DOCSTRING, 1); (code, broken_py, 1) ]))
     = Ok (py "Example script with invalid Python syntax ", py "SyntaxError").
Proof.
  apply (syntax_error_entry ast_parse decode_utf8 literal_eval sources_
           (py "/doc/examples/broken.py") (py "broken.py") broken_py ∅).
  - vm_compute. reflexivity.
  - vm_compute. reflexivity.
  - vm_compute. reflexivity.
Defined.

Lemma document_written_witness :
  exists out p',
    regenerate host_ (conf_ false) (py "plot.py") target_dir_
               (py "/doc/examples/plot.py") (py "/doc/auto/plot.py")
               ∅ plot_blocks (py "Figures") copied_plot
    = (Ok out, p')
    /\ fst out = py "Figures"
    /\ exists body,
         files p' !! path_join (os host_) target_dir_
                       (fst (path_splitext (os host_) (py "plot.py"))
                        ++ py ".rst")
         = Some (Bytes (reference_target host_ (conf_ false)
                          (py "/doc/auto/plot.py")
                        ++ body
                        ++ CODE_DOWNLOAD host_ (py "plot.py")
                             (replace_py_ipynb host_ (py "plot.py"))
                             (binder_badge_rst host_ (py "plot.py"))
                        ++ SPHX_GLR_SIG)).
Proof.
  destruct (regenerate host_ (conf_ false) (py "plot.py") target_dir_
              (py "/doc/examples/plot.py") (py "/doc/auto/plot.py")
              ∅ plot_blocks (py "Figures") copied_plot)
    as [[out|e] p'] eqn:Hgen.
  - exists out, p'. split; [reflexivity|].
    exact (document_written host_ (conf_ false) (py "plot.py") target_dir_
             (py "/doc/examples/plot.py") (py "/doc/auto/plot.py")
             ∅ plot_blocks (py "Figures") copied_plot out p' Hgen).
  - exfalso.
    assert (Hok :
      is_ok (fst (regenerate host_ (conf_ false) (py "plot.py") target_dir_
                    (py "/doc/examples/plot.py") (py "/doc/auto/plot.py")
                    ∅ plot_blocks (py "Figures") copied_plot)) = true)
      by (vm_compute; reflexivity).
    rewrite Hgen in Hok. discriminate Hok.
Defined.

Lemma indent_round_trip_witness :
  let text := py "a" ++ nl ++ nl ++ py " b" in
  let lines := splitlines_keep (indent text (repeat SPACE 4)) [] in
  Forall (fun line =>
            nonblank line = true -> startswith (repeat SPACE 4) line = true)
         lines
  /\ concat (map (unindent (repeat SPACE 4)) lines) = text.
Proof.
  intros text.
  apply (indent_round_trip text (repeat SPACE 4)); reflexivity.
Defined.

End Instances.
